(** * aoe2killcoach4: the analytics core, embedded and verified

    A shallow embedding of [src/aoe2killcoach4/time_utils.py] and of the
    analytics functions of [src/aoe2killcoach4/core.py]
    ([find_player], [snapshot_composition], [_collect_tc_idle],
    [_detect_switches]), followed by the properties the specification
    states about them.

    Conventions of the embedding.
    - Python integers are [Z]; timestamps, durations and counts are [Z].
    - A Python [dict] is an association list in insertion order with
      unique keys (Python dicts iterate in insertion order).
    - A Python float is a rational ([Q]), an infinity or NaN.  The
      quotient of two integers is rounded to the nearest double, as
      CPython rounds it.  Everywhere else the exact value is kept, so
      the model agrees with CPython wherever that value is representable
      (all integers below 2^53, in particular).
    - The tables of [data_mappings.py] are parameters of the functions
      that consult them.
    - A raised exception is the [Raise] outcome of a small error monad.
    - Strings are ASCII strings: the character classes and the case
      folding are Python's on the ASCII range, and a theorem whose
      strings are not fixed by its other hypotheses says that they are
      ASCII. *)

From Stdlib Require Import ZArith List String Ascii Bool Lia QArith.
From Stdlib Require Import Qround Qabs Qpower Lqa.
From Stdlib Require Import Sorting.Sorted Sorting.Permutation.
From Stdlib Require Import DecimalString DecimalPos.
Import ListNotations.

Open Scope string_scope.
Open Scope list_scope.
Open Scope Z_scope.

Set Implicit Arguments.

(* ================================================================== *)
(** * Exceptions *)

Inductive exn : Type :=
| ValueError (msg : string)
| OverflowError
| IndexError
| StopIteration.

Inductive outcome (A : Type) : Type :=
| Return (a : A)
| Raise (e : exn).

Arguments Return {A} a.
Arguments Raise {A} e.

Definition bind {A B : Type} (m : outcome A) (k : A -> outcome B) : outcome B :=
  match m with
  | Return a => k a
  | Raise e => Raise e
  end.

Notation "x <- m ;; k" := (bind m (fun x => k))
  (at level 61, m at next level, right associativity).

(* ================================================================== *)
(** * Python builtins used by the program *)

Module Py.

(** [range(start, stop, step)] as a list; a zero step raises. *)
Definition range (start stop step : Z) : outcome (list Z) :=
  if step =? 0 then Raise (ValueError "range() arg 3 must not be zero")
  else
    let n := if 0 <? step
             then (stop - start + step - 1) / step
             else (start - stop - step - 1) / (- step) in
    Return (map (fun k => start + Z.of_nat k * step) (seq 0 (Z.to_nat n))).

(** Insertion of [x], which preceded every element of [l] in the input,
    into [l] sorted by [key]: [x] goes before the first element whose key
    is not smaller, so equal keys keep their input order. *)
Fixpoint insert_by {A : Type} (key : A -> Z) (x : A) (l : list A) : list A :=
  match l with
  | [] => [x]
  | y :: r => if key x <=? key y then x :: y :: r else y :: insert_by key x r
  end.

(** [sorted(l, key=key)]: Python's sort is stable, and a stable sort has
    one possible result, computed here by insertion from the right. *)
Fixpoint sorted_by {A : Type} (key : A -> Z) (l : list A) : list A :=
  match l with
  | [] => []
  | x :: r => insert_by key x (sorted_by key r)
  end.

Definition sorted (l : list Z) : list Z := sorted_by (fun z => z) l.

(** The order a list sorted by [key] is in. *)
Definition key_le {A : Type} (key : A -> Z) (a b : A) : Prop := key a <= key b.

(** [x in l] on a list of integers. *)
Definition mem (x : Z) (l : list Z) : bool := existsb (Z.eqb x) l.

(** The distinct elements of [l] (a Python [set] built from [l]); the
    order chosen here is that of first occurrence.  Every use in the
    program either sorts the set or folds a commutative sum over it. *)
Fixpoint set (l : list Z) : list Z :=
  match l with
  | [] => []
  | x :: r => x :: filter (fun y => negb (y =? x)) (set r)
  end.

(** [max(0, int(seconds))] and the like are [Z.max]; [divmod] on
    non-negative integers is [Z.div]/[Z.modulo]. *)

Definition str_of_Z (n : Z) : string := NilZero.string_of_int (Z.to_int n).

End Py.

(* ================================================================== *)
(** * time_utils.py *)

Module TimeUtils.

(** ** Strings *)

Definition is_space (c : ascii) : bool :=
  let n := nat_of_ascii c in
  (((9 <=? n) && (n <=? 13)) || ((28 <=? n) && (n <=? 32)))%nat.

Definition is_digit (c : ascii) : bool :=
  let n := nat_of_ascii c in ((48 <=? n) && (n <=? 57))%nat.

Definition digit_val (c : ascii) : Z := Z.of_nat (nat_of_ascii c) - 48.

(** The white space [int()] and [float()] skip around a literal: that
    of C's [isspace], which leaves out the separators 28 to 31. *)
Definition is_cspace (c : ascii) : bool :=
  let n := nat_of_ascii c in
  (((9 <=? n) && (n <=? 13)) || (n =? 32))%nat.

Section Strip.
Variable space : ascii -> bool.

Fixpoint lstrip_by (s : string) : string :=
  match s with
  | EmptyString => EmptyString
  | String c r => if space c then lstrip_by r else s
  end.

Fixpoint rstrip_by (s : string) : string :=
  match s with
  | EmptyString => EmptyString
  | String c r =>
      match rstrip_by r with
      | EmptyString => if space c then EmptyString else String c EmptyString
      | r' => String c r'
      end
  end.

Definition strip_by (s : string) : string := rstrip_by (lstrip_by s).

End Strip.

(** [s.strip()] *)
Definition strip (s : string) : string := strip_by is_space s.

(** What [int(s)] and [float(s)] read of [s]: the literal between the
    white space. *)
Definition strip_literal (s : string) : string := strip_by is_cspace s.

(** [s.replace(c, empty, 1)] for a one-character [c]: the first [c] is
    dropped. *)
Fixpoint replace_first (c : ascii) (s : string) : string :=
  match s with
  | EmptyString => EmptyString
  | String d r => if Ascii.eqb d c then r else String d (replace_first c r)
  end.

(** [s.isdigit()] *)
Definition isdigit (s : string) : bool :=
  match s with
  | EmptyString => false
  | _ => forallb is_digit (list_ascii_of_string s)
  end.

(** [s.split(sep)] for a one-character [sep] *)
Fixpoint split (sep : ascii) (s : string) : list string :=
  match s with
  | EmptyString => [EmptyString]
  | String c r =>
      if Ascii.eqb c sep then EmptyString :: split sep r
      else match split sep r with
           | p :: ps => String c p :: ps
           | [] => [String c EmptyString]
           end
  end.

(** [c.lower()] on an ASCII character. *)
Definition to_lower (c : ascii) : ascii :=
  let n := nat_of_ascii c in
  if ((65 <=? n) && (n <=? 90))%nat then ascii_of_nat (n + 32) else c.

(** [s.lower()] *)
Fixpoint lower (s : string) : string :=
  match s with
  | EmptyString => EmptyString
  | String c r => String (to_lower c) (lower r)
  end.

(** ** Numeric literals *)

(** The rest of a [digit_part ::= digit (["_"] digit)*] once its first
    digit is read: the value so far, the number of digits so far, and
    what is left of the string. *)
Fixpoint digits_from (acc : Z) (count : nat) (s : string) : Z * nat * string :=
  match s with
  | EmptyString => (acc, count, s)
  | String c r =>
      if is_digit c then digits_from (acc * 10 + digit_val c) (S count) r
      else if Ascii.eqb c "_" then
        match r with
        | String d r' =>
            if is_digit d then digits_from (acc * 10 + digit_val d) (S count) r'
            else (acc, count, s)
        | EmptyString => (acc, count, s)
        end
      else (acc, count, s)
  end.

Definition digit_part (s : string) : option (Z * nat * string) :=
  match s with
  | String c r => if is_digit c then Some (digits_from (digit_val c) 1 r) else None
  | EmptyString => None
  end.

(** An optional sign: whether it is a minus, and the rest. *)
Definition sign (s : string) : bool * string :=
  match s with
  | String c r =>
      if Ascii.eqb c "-" then (true, r)
      else if Ascii.eqb c "+" then (false, r)
      else (false, s)
  | EmptyString => (false, s)
  end.

(** [sys.int_info.default_max_str_digits]: the longest decimal literal
    [int()] converts (CPython 3.11 and later). *)
Definition max_str_digits : nat := 4300.

(** [int(s)] on a string, base 10.  The digits are counted while they
    are read, underscores apart; a misplaced underscore ends the reading
    as a syntax error, and otherwise a literal of more than
    [max_str_digits] digits is refused before what follows it is looked
    at. *)
Definition int_of_str (s : string) : outcome Z :=
  let invalid := ValueError "invalid literal for int() with base 10" in
  let '(neg, t) := sign (strip_literal s) in
  match digit_part t with
  | Some (v, digits, rest) =>
      match rest with
      | String "_" _ => Raise invalid
      | _ =>
          if (max_str_digits <? digits)%nat then
            Raise (ValueError
                     "Exceeds the limit (4300 digits) for integer string conversion")
          else
            match rest with
            | EmptyString => Return (if neg then - v else v)
            | _ => Raise invalid
            end
      end
  | None => Raise invalid
  end.

(** A float: a finite value, held exactly, or a special value. *)
Inductive pyfloat : Type :=
| Finite (q : Q)
| Infinite (negative : bool)
| NaN.

(** Magnitudes from [2^1024 - 2^970] on round to infinity. *)
Definition overflows (q : Q) : bool :=
  let limit := inject_Z (2 ^ 1024 - 2 ^ 970) in
  Qle_bool limit q || Qle_bool q (Qopp limit).

Definition to_float (q : Q) : pyfloat :=
  if overflows q then Infinite (Qle_bool q 0) else Finite q.

(** [number ::= [digit_part] "." digit_part | digit_part ["."]] *)
Definition number (s : string) : option (Q * string) :=
  match s with
  | String c r =>
      if Ascii.eqb c "." then
        match digit_part r with
        | Some (fp, fc, rest) =>
            Some (Qmake fp (Pos.pow 10 (Pos.of_nat fc)), rest)
        | None => None
        end
      else
        match digit_part s with
        | Some (ip, _, String d r') =>
            if Ascii.eqb d "." then
              match digit_part r' with
              | Some (fp, fc, rest) =>
                  Some ((inject_Z ip + Qmake fp (Pos.pow 10 (Pos.of_nat fc)))%Q, rest)
              | None => Some (inject_Z ip, r')
              end
            else Some (inject_Z ip, String d r')
        | Some (ip, _, EmptyString) => Some (inject_Z ip, EmptyString)
        | None => None
        end
  | EmptyString => None
  end.

(** [exponent ::= ("e" | "E") [sign] digit_part], optional: the power of
    ten and the rest; [None] when an exponent starts and is malformed. *)
Definition exponent (s : string) : option (Z * string) :=
  match s with
  | String c r =>
      if Ascii.eqb c "e" || Ascii.eqb c "E" then
        let '(neg, t) := sign r in
        match digit_part t with
        | Some (v, _, rest) => Some (if neg then - v else v, rest)
        | None => None
        end
      else Some (0, s)
  | EmptyString => Some (0, s)
  end.

(** [float(s)] on a string. *)
Definition float_of_str (s : string) : outcome pyfloat :=
  let '(neg, t) := sign (strip_literal s) in
  let low := lower t in
  if (low =? "inf")%string || (low =? "infinity")%string then Return (Infinite neg)
  else if (low =? "nan")%string then Return NaN
  else
    match number t with
    | Some (m, rest) =>
        match exponent rest with
        | Some (e, EmptyString) =>
            let v := (m * Qpower (inject_Z 10) e)%Q in
            Return (to_float (if neg then Qopp v else v))
        | _ => Raise (ValueError "could not convert string to float")
        end
    | None => Raise (ValueError "could not convert string to float")
    end.

(** [int(f)] on a float: truncation toward zero. *)
Definition int_of_float (f : pyfloat) : outcome Z :=
  match f with
  | Finite q => Return (Z.quot (Qnum q) (Z.pos (Qden q)))
  | Infinite _ => Raise OverflowError
  | NaN => Raise (ValueError "cannot convert float NaN to integer")
  end.

(** [n + f] for an integer [n] and a float [f]: [n] is converted first. *)
Definition int_plus_float (n : Z) (f : pyfloat) : outcome pyfloat :=
  if overflows (inject_Z n) then Raise OverflowError
  else
    Return match f with
           | Finite q => to_float (inject_Z n + q)%Q
           | _ => f
           end.

(** ** coerce_seconds *)

(** The inputs [coerce_seconds] tells apart. *)
Inductive value : Type :=
| VNone
| VInt (n : Z)
| VFloat (f : pyfloat)
| VStr (s : string)
| VOther.

Definition unsupported : exn := ValueError "Unsupported time format".

Definition coerce_seconds (v : value) : outcome Z :=
  match v with
  | VNone => Return 0
  | VInt n => Return n
  | VFloat f => int_of_float f
  | VStr s =>
      let stripped := strip s in
      if (stripped =? EmptyString)%string then Return 0
      else if isdigit (replace_first "." stripped) then
        f <- float_of_str stripped ;; int_of_float f
      else
        match split ":" stripped with
        | [p0; p1; p2] =>
            hours <- int_of_str p0 ;;
            minutes <- int_of_str p1 ;;
            seconds <- float_of_str p2 ;;
            total <- int_plus_float (hours * 3600 + minutes * 60) seconds ;;
            int_of_float total
        | [p0; p1] =>
            minutes <- int_of_str p0 ;;
            seconds <- float_of_str p1 ;;
            total <- int_plus_float (0 * 3600 + minutes * 60) seconds ;;
            int_of_float total
        | _ => Raise unsupported
        end
  | VOther => Raise unsupported
  end.

End TimeUtils.

(* ================================================================== *)
(** * core.py *)

Module Core.

Import TimeUtils.

(** ** Dictionaries: association lists in insertion order, unique keys *)

Section Dict.
Variables (K V : Type) (eqb : K -> K -> bool).

Definition dict : Type := list (K * V).

(** [d.get(k)] *)
Fixpoint get (d : dict) (k : K) : option V :=
  match d with
  | [] => None
  | (k', v) :: r => if eqb k' k then Some v else get r k
  end.

(** [d.get(k, default)] *)
Definition get_or (d : dict) (k : K) (default : V) : V :=
  match get d k with
  | Some v => v
  | None => default
  end.

(** [d[k] = v]: an existing key keeps its position, a new one goes last. *)
Fixpoint set_item (d : dict) (k : K) (v : V) : dict :=
  match d with
  | [] => [(k, v)]
  | (k', v') :: r =>
      if eqb k' k then (k', v) :: r else (k', v') :: set_item r k v
  end.

(** [k in d] *)
Definition has_key (d : dict) (k : K) : bool :=
  match get d k with
  | Some _ => true
  | None => false
  end.
End Dict.

Arguments get {K V} eqb d k.
Arguments get_or {K V} eqb d k default.
Arguments set_item {K V} eqb d k v.
Arguments has_key {K V} eqb d k.

(** [line in lines] for a collection of line names *)
Definition in_lines (line : string) (lines : list string) : bool :=
  existsb (String.eqb line) lines.

(** ** format_seconds *)

Definition format_seconds (seconds : option Z) : option string :=
  match seconds with
  | None => None
  | Some s =>
      let t := Z.max 0 s in
      let minutes := t / 60 in
      let sec := t mod 60 in
      let pad := if sec <? 10 then "0" else EmptyString in
      Some (String.append (Py.str_of_Z minutes)
              (String.append ":" (String.append pad (Py.str_of_Z sec))))
  end.

(** ** find_player *)

Record Player : Type := {
  name : string;
  civilization : string;
  winner : bool
}.

(** Equality of two player records (Python compares dicts by value). *)
Definition player_eqb (p q : Player) : bool :=
  (name p =? name q)%string
  && (civilization p =? civilization q)%string
  && Bool.eqb (winner p) (winner q).

(** [next(p for p in players if p != player)] *)
Fixpoint next_other (player : Player) (players : list Player) : outcome Player :=
  match players with
  | [] => Raise StopIteration
  | p :: r => if negb (player_eqb p player) then Return p else next_other player r
  end.

(** Lines 62-64: the first player with the requested name, when a
    non-empty name is given. *)
Definition named_player (players : list Player) (you_name : option string)
  : option Player :=
  match you_name with
  | None => None
  | Some n =>
      if (n =? EmptyString)%string then None
      else find (fun player => (lower (name player) =? lower n)%string) players
  end.

(** Lines 67-70: the player at the requested position, when a non-zero
    position is given and is in range. *)
Definition positioned_player (players : list Player) (you_player : option Z)
  : option Player :=
  match you_player with
  | None => None
  | Some n =>
      if n =? 0 then None
      else
        let idx := Z.max 0 (n - 1) in
        if idx <? Z.of_nat (List.length players)
        then nth_error players (Z.to_nat idx)
        else None
  end.

Definition find_player (players : list Player)
    (you_name : option string) (you_player : option Z)
  : outcome (Player * Player) :=
  match named_player players you_name with
  | Some player =>
      opponent <- next_other player players ;;
      Return (player, opponent)
  | None =>
      match positioned_player players you_player with
      | Some player =>
          opponent <- next_other player players ;;
          Return (player, opponent)
      | None =>
          match players with
          | [] => Raise IndexError
          | [player] => Return (player, player)
          | player :: opponent :: _ => Return (player, opponent)
          end
      end
  end.

(** ** Events and age timings *)

Record UnitEvent : Type := {
  ue_time : Z;
  ue_unit : option string;
  ue_line : string;
  ue_object_ids : list Z
}.

Record BuildEvent : Type := {
  be_time : Z;
  be_building : option string;
  be_object_ids : list Z
}.

(** The keys of an [ages] mapping as [extract_timings] builds it. *)
Inductive Age : Type := Feudal | Castle | Imperial.

Record AgeTiming : Type := {
  click_time : option Z;
  completion_time : option Z
}.

Definition _timing_entry (start duration : option Z) : AgeTiming :=
  {| click_time := start;
     completion_time :=
       match start, duration with
       | Some s, Some d => Some (s + d)
       | _, _ => None
       end |}.

(** ** snapshot_composition *)

Record Snapshot : Type := {
  time : Z;
  time_str : option string;
  totals_by_line : dict string Z;
  military_total : Z;
  villagers_total_proxy : Z;
  gold_units_total : Z;
  trash_units_total : Z;
  gold_pct : option Q;
  trash_pct : option Q
}.

(** [sum(count for line, count in totals.items() if keep(line))] *)
Definition sum_counts (keep : string -> bool) (totals : dict string Z) : Z :=
  fold_left (fun acc '(line, count) => if keep line then acc + count else acc)
            totals 0.

(** The integer nearest to [q], a tie going to the even one. *)
Definition round_half_even (q : Q) : Z :=
  let floor := Qfloor q in
  let rest := (q - inject_Z floor)%Q in
  match (rest ?= 1 # 2)%Q with
  | Lt => floor
  | Gt => floor + 1
  | Eq => if Z.even floor then floor else floor + 1
  end.

(** The binary exponent [e] of the positive quotient [n / d]:
    [2^e <= n / d < 2^(e+1)]. *)
Definition binary_exponent (n d : Z) : Z :=
  let k := Z.log2 n - Z.log2 d in
  if Qle_bool (Qpower 2 k) (inject_Z n / inject_Z d) then k else k - 1.

(** The double nearest to the positive quotient [n / d]: the quotient
    rounded to 53 significant bits, ties to even. *)
Definition nearest_double (n d : Z) : Q :=
  let ulp := Qpower 2 (binary_exponent n d - 52) in
  (inject_Z (round_half_even (inject_Z n / inject_Z d / ulp)) * ulp)%Q.

(** [a / b] on integers: CPython returns the double nearest to the exact
    quotient, held here as the rational it is, in lowest terms.  The
    operands of the
    program are counts of list elements, far inside the range where the
    quotient is a normal double (no overflow, no subnormal); the division
    is guarded, so [b] is never 0. *)
Definition true_div (a b : Z) : Q :=
  Qred (inject_Z (Z.sgn a * Z.sgn b) * nearest_double (Z.abs a) (Z.abs b))%Q.

(** The bucket boundaries (lines 246-251). *)
Definition bucket_boundaries (duration : Z) (age_times : Age -> AgeTiming)
    (interval : Z) : outcome (list Z) :=
  buckets <- Py.range 0 (Z.max duration 0 + interval) interval ;;
  let buckets :=
    fold_left
      (fun buckets age =>
         match click_time (age_times age) with
         | Some time_val =>
             if negb (Py.mem time_val buckets) then buckets ++ [time_val]
             else buckets
         | None => buckets
         end)
      [Feudal; Castle; Imperial] buckets in
  Return (Py.sorted (Py.set buckets)).

(** The inner [while]: the cursor [idx] is the list of events not yet
    counted. *)
Fixpoint advance (events : list UnitEvent) (bucket : Z) (totals : dict string Z)
  : list UnitEvent * dict string Z :=
  match events with
  | [] => ([], totals)
  | e :: rest =>
      if ue_time e <=? bucket then
        let line := ue_line e in
        advance rest bucket
                (set_item String.eqb totals line (get_or String.eqb totals line 0 + 1))
      else (events, totals)
  end.

Definition default_interval : Z := 300.

Section Composition.
(** The line tables of [data_mappings.py] the snapshots consult. *)
Variables GOLD_LINES TRASH_LINES : list string.

Definition make_snapshot (bucket : Z) (totals : dict string Z) : Snapshot :=
  let military_total :=
    sum_counts
      (fun line => negb (in_lines line ["villager"; "fishing_ship"; "trade"]%string))
      totals in
  let gold_total := sum_counts (fun line => in_lines line GOLD_LINES) totals in
  let trash_total := sum_counts (fun line => in_lines line TRASH_LINES) totals in
  {| time := bucket;
     time_str := format_seconds (Some bucket);
     totals_by_line := totals;
     military_total := military_total;
     villagers_total_proxy := get_or String.eqb totals "villager" 0;
     gold_units_total := gold_total;
     trash_units_total := trash_total;
     gold_pct :=
       if negb (military_total =? 0) then Some (true_div gold_total military_total)
       else None;
     trash_pct :=
       if negb (military_total =? 0) then Some (true_div trash_total military_total)
       else None |}.

(** The [for bucket in buckets] loop, with its running [totals]. *)
Fixpoint snapshot_loop (buckets : list Z) (events : list UnitEvent)
    (totals : dict string Z) : list Snapshot :=
  match buckets with
  | [] => []
  | bucket :: rest =>
      let '(events', totals') := advance events bucket totals in
      make_snapshot bucket totals' :: snapshot_loop rest events' totals'
  end.

Definition snapshot_composition (unit_events : list UnitEvent) (duration : Z)
    (age_times : Age -> AgeTiming) (interval : Z) : outcome (list Snapshot) :=
  buckets <- bucket_boundaries duration age_times interval ;;
  let events_sorted := Py.sorted_by ue_time unit_events in
  Return (snapshot_loop buckets events_sorted []).

End Composition.

(** ** _collect_tc_idle *)

(** The two variables [add_idle] updates: [idle_total] and [per_age]. *)
Record IdleAcc : Type := {
  idle_total : Z;
  per_age : dict string Z
}.

Definition idle_start : IdleAcc :=
  {| idle_total := 0;
     per_age := [("Dark", 0); ("Feudal", 0); ("Castle", 0); ("Imperial", 0)] |}.

Record TcIdle : Type := {
  total : Z;
  total_str : option string;
  by_age : dict string Z
}.

Section TcIdle.
Variables (duration : Z) (age_times : Age -> AgeTiming).

Definition age_bounds : list (string * option Z * option Z) :=
  [ ("Dark", Some 0, click_time (age_times Feudal));
    ("Feudal", click_time (age_times Feudal), click_time (age_times Castle));
    ("Castle", click_time (age_times Castle), click_time (age_times Imperial));
    ("Imperial", click_time (age_times Imperial), Some duration) ].

(** The overlap of [start, stop] with one age span, null bounds
    replaced by the match start and the duration. *)
Definition overlap (start stop : Z) (start_age end_age : option Z) : Z :=
  let start_age := match start_age with None => 0 | Some s => s end in
  let end_age := match end_age with None => duration | Some e => e end in
  Z.max 0 (Z.min stop end_age - Z.max start start_age).

Definition add_idle (start stop : Z) (acc : IdleAcc) : IdleAcc :=
  let gap := Z.max 0 (stop - start) in
  {| idle_total := idle_total acc + gap;
     per_age :=
       fold_left
         (fun per_age '(label, start_age, end_age) =>
            set_item String.eqb per_age label
              (get_or String.eqb per_age label 0
               + overlap start stop start_age end_age))
         age_bounds (per_age acc) |}.

(** The [for time in times] loop: the last production time and the
    accumulators after it. *)
Fixpoint production_gaps (times : list Z) (last_time : Z) (acc : IdleAcc)
  : Z * IdleAcc :=
  match times with
  | [] => (last_time, acc)
  | time :: rest =>
      let gap := time - last_time - 25 in
      production_gaps rest time
        (if gap >? 5 then add_idle (last_time + 25) time acc else acc)
  end.

(** One timeline (a town center's, or the aggregate one): the loop from
    [last_time = 0], then the tail up to the end of the match. *)
Definition timeline_idle (times : list Z) (acc : IdleAcc) : IdleAcc :=
  let '(last_time, acc) := production_gaps times 0 acc in
  if negb (last_time =? 0) && (duration >? last_time + 25)
  then add_idle (last_time + 25) duration acc
  else acc.

(** Lines 370-373: the time of [event] is appended under each of its
    object ids that is a tracked town center. *)
Definition record_event (events_by_tc : dict Z (list Z)) (event : UnitEvent)
  : dict Z (list Z) :=
  fold_left
    (fun by_tc obj_id =>
       if has_key Z.eqb by_tc obj_id
       then set_item Z.eqb by_tc obj_id (get_or Z.eqb by_tc obj_id [] ++ [ue_time event])
       else by_tc)
    (ue_object_ids event) events_by_tc.

Definition villager_events_of (unit_events : list UnitEvent) : list UnitEvent :=
  Py.sorted_by ue_time
    (filter (fun e => (ue_line e =? "villager")%string) unit_events).

Definition tc_ids_of (builds : list BuildEvent) : list Z :=
  let tc_builds :=
    filter (fun b => match be_building b with
                     | Some building => (building =? "Town Center")%string
                     | None => false
                     end) builds in
  Py.set (flat_map be_object_ids tc_builds).

(** Lines 369-373: the production times of every tracked town center. *)
Definition events_by_tc_of (villager_events : list UnitEvent) (tc_ids : list Z)
  : dict Z (list Z) :=
  fold_left record_event villager_events
            (map (fun tc_id => (tc_id, @nil Z)) tc_ids).

(** The parameters come in the order [duration], [age_times],
    [unit_events], [builds]. *)
Definition _collect_tc_idle (unit_events : list UnitEvent)
    (builds : list BuildEvent) : TcIdle * bool :=
  let villager_events := villager_events_of unit_events in
  let tc_ids := tc_ids_of builds in
  let had_ids := match tc_ids with [] => false | _ => true end in
  let acc :=
    if had_ids then
      let events_by_tc := events_by_tc_of villager_events tc_ids in
      fold_left (fun acc '(_, times) => timeline_idle (Py.sorted times) acc)
                events_by_tc idle_start
    else
      timeline_idle (map ue_time villager_events) idle_start in
  ({| total := idle_total acc;
      total_str := format_seconds (Some (idle_total acc));
      by_age := per_age acc |},
   negb had_ids).

End TcIdle.

(** ** _detect_switches *)

Record SwitchEvent : Type := {
  se_time : Z;
  se_time_str : option string;
  se_opponent_line : string;
  se_delta : Z;
  se_confidence : string
}.

(** A response; [rr_confidence] is [None] until the key is set. *)
Record ResponseRecord : Type := {
  rr_opponent_line : string;
  rr_your_line : string;
  rr_response_time : Z;
  rr_response_time_str : option string;
  rr_delay : Z;
  rr_delay_str : option string;
  rr_confidence : option string
}.

Record MissedCounter : Type := {
  mc_opponent_line : string;
  mc_suggested_counters : list string;
  mc_confidence : string
}.

Record Switches : Type := {
  switch_events : list SwitchEvent;
  response_delay_vs_opponent : list ResponseRecord;
  missed_counter_opportunities : list MissedCounter
}.

(** The inner loop of lines 458-471: the events one pair of consecutive
    opponent snapshots gives, in the order of [curr]'s lines. *)
Definition switches_between (prev curr : Snapshot) : list SwitchEvent :=
  flat_map
    (fun '(line, count) =>
       let prev_count := get_or String.eqb (totals_by_line prev) line 0 in
       if in_lines line ["villager"; "fishing_ship"; "trade"; "unknown"]%string then []
       else if (count - prev_count >=? 5) && (prev_count <=? 2) then
         [ {| se_time := time curr;
              se_time_str := time_str curr;
              se_opponent_line := line;
              se_delta := count - prev_count;
              se_confidence := "low" |} ]
       else [])
    (totals_by_line curr).

Definition detect_events (opponent_snapshots : list Snapshot) : list SwitchEvent :=
  flat_map (fun '(prev, curr) => switches_between prev curr)
           (combine opponent_snapshots (tl opponent_snapshots)).

(** The first counter, in table order, that [snapshot] holds three of. *)
Definition qualifying_counter (counters : list string) (snapshot : Snapshot)
  : option string :=
  find (fun counter => get_or String.eqb (totals_by_line snapshot) counter 0 >=? 3)
       counters.

(** Lines 476-490: the first snapshot at or after the event with a
    qualifying counter gives the response. *)
Fixpoint find_response (event : SwitchEvent) (counters : list string)
    (you_snapshots : list Snapshot) : option ResponseRecord :=
  match you_snapshots with
  | [] => None
  | snapshot :: rest =>
      if time snapshot <? se_time event then find_response event counters rest
      else
        match qualifying_counter counters snapshot with
        | Some counter =>
            Some {| rr_opponent_line := se_opponent_line event;
                    rr_your_line := counter;
                    rr_response_time := time snapshot;
                    rr_response_time_str := time_str snapshot;
                    rr_delay := time snapshot - se_time event;
                    rr_delay_str := None;
                    rr_confidence := None |}
        | None => find_response event counters rest
        end
  end.

Section Counters.
(** The counter table of [data_mappings.py]. *)
Variable COUNTER_MAP : dict string (list string).

(** The body of the [for event in switch_events] loop, on the two
    output lists. *)
Definition handle_event (you_snapshots : list Snapshot)
    (out : list ResponseRecord * list MissedCounter) (event : SwitchEvent)
  : list ResponseRecord * list MissedCounter :=
  let '(response_delays, missed) := out in
  let opp_line := se_opponent_line event in
  let counters := get_or String.eqb COUNTER_MAP opp_line [] in
  match find_response event counters you_snapshots with
  | Some response =>
      let response :=
        {| rr_opponent_line := rr_opponent_line response;
           rr_your_line := rr_your_line response;
           rr_response_time := rr_response_time response;
           rr_response_time_str := rr_response_time_str response;
           rr_delay := rr_delay response;
           rr_delay_str := format_seconds (Some (rr_delay response));
           rr_confidence := Some "low" |} in
      (response_delays ++ [response], missed)
  | None =>
      (response_delays,
       missed ++ [ {| mc_opponent_line := opp_line;
                      mc_suggested_counters := counters;
                      mc_confidence := "low" |} ])
  end.

Definition _detect_switches (opponent_snapshots you_snapshots : list Snapshot)
  : Switches :=
  let switch_events := detect_events opponent_snapshots in
  let '(response_delays, missed) :=
    fold_left (handle_event you_snapshots) switch_events ([], []) in
  {| switch_events := switch_events;
     response_delay_vs_opponent := response_delays;
     missed_counter_opportunities := missed |}.

End Counters.

(** ** sanitize_filename *)

(** [char.isalpha()] on an ASCII character. *)
Definition is_alpha (c : ascii) : bool :=
  let n := nat_of_ascii c in
  (((65 <=? n) && (n <=? 90)) || ((97 <=? n) && (n <=? 122)))%nat.

(** [char.isalnum() or char in "-_"] *)
Definition is_safe (c : ascii) : bool :=
  is_alpha c || is_digit c || Ascii.eqb c "-" || Ascii.eqb c "_".

(** [sep.join(parts)] for a one-character [sep] *)
Fixpoint join (sep : ascii) (parts : list string) : string :=
  match parts with
  | [] => EmptyString
  | [p] => p
  | p :: rest => String.append p (String sep (join sep rest))
  end.

Definition is_empty (s : string) : bool :=
  match s with EmptyString => true | _ => false end.

Fixpoint map_chars (f : ascii -> ascii) (s : string) : string :=
  match s with
  | EmptyString => EmptyString
  | String c r => String (f c) (map_chars f r)
  end.

Definition sanitize_filename (value : string) : string :=
  let safe := map_chars (fun char => if is_safe char then char else "_"%char) value in
  join "_" (filter (fun part => negb (is_empty part)) (split "_" safe)).

(** ** Actions *)

(** The keys of an action's payload the core reads; an absent key and a
    null value are both [None]. *)
Record Payload : Type := {
  p_unit : option string;
  p_name : option string;
  p_building : option string;
  p_tech : option string
}.

(** An action of the replay record; [a_timestamp] is the timestamp
    already as an integer ([int(ts)]), [None] when absent. *)
Record Action : Type := {
  a_player : option Z;
  a_type : option string;
  a_timestamp : option Z;
  a_payload : Payload;
  a_object_ids : option (list Z)
}.

(** [x or y] on optional strings: [x] unless it is null or empty. *)
Definition str_or (x y : option string) : option string :=
  match x with
  | Some s => if is_empty s then y else x
  | None => y
  end.

(** [x or y] on optional integers: [x] unless it is null or zero. *)
Definition int_or (x y : option Z) : option Z :=
  match x with
  | Some n => if n =? 0 then y else x
  | None => y
  end.

Definition _action_time (action : Action) : option Z := a_timestamp action.

(** [action.get("type") in types] *)
Definition type_in (action : Action) (types : list string) : bool :=
  match a_type action with
  | Some t => in_lines t types
  | None => false
  end.

Definition _player_actions (actions : list Action) (player_index : Z) : list Action :=
  filter (fun action => match a_player action with
                        | Some p => p =? player_index
                        | None => false
                        end) actions.

(** [action.get("object_ids") or []] *)
Definition object_ids_of (action : Action) : list Z :=
  match a_object_ids action with
  | Some ids => ids
  | None => []
  end.

Section UnitLines.
(** The unit-name table of [data_mappings.py]. *)
Variable UNIT_LINE_MAP : dict string string.

Definition _unit_line (unit_name : option string) : string :=
  match unit_name with
  | None => "unknown"
  | Some n =>
      if is_empty n then "unknown"
      else get_or String.eqb UNIT_LINE_MAP n "unknown"
  end.

(** The events of the [for action in actions] loop, before the sort. *)
Definition unit_events_of (actions : list Action) : list UnitEvent :=
  flat_map
    (fun action =>
       if negb (type_in action ["TRAIN"; "DE_QUEUE"; "CREATE"]) then []
       else
         let unit_name := str_or (p_unit (a_payload action)) (p_name (a_payload action)) in
         match _action_time action with
         | None => []
         | Some timestamp =>
             [ {| ue_time := timestamp;
                  ue_unit := unit_name;
                  ue_line := _unit_line unit_name;
                  ue_object_ids := object_ids_of action |} ]
         end)
    actions.

Definition _collect_unit_events (actions : list Action) : list UnitEvent :=
  Py.sorted_by ue_time (unit_events_of actions).

End UnitLines.

Definition build_events_of (actions : list Action) : list BuildEvent :=
  flat_map
    (fun action =>
       if negb (type_in action ["BUILD"]) then []
       else
         let building :=
           str_or (p_building (a_payload action)) (p_name (a_payload action)) in
         match _action_time action with
         | None => []
         | Some timestamp =>
             [ {| be_time := timestamp;
                  be_building := building;
                  be_object_ids := object_ids_of action |} ]
         end)
    actions.

Definition _collect_build_events (actions : list Action) : list BuildEvent :=
  Py.sorted_by be_time (build_events_of actions).

(** ** extract_timings *)

(** One entry of [data["uptimes"]]. *)
Record Uptime : Type := {
  up_feudal : option Z;
  up_castle : option Z;
  up_imperial : option Z
}.

(** [_extract_uptimes]: the three uptimes of the player, each [None]
    when the list is absent, empty or too short.  The player index is a
    position in the player list ([players.index(...)]), a natural number. *)
Definition _extract_uptimes (uptimes : option (list Uptime)) (player_index : nat)
  : Age -> option Z :=
  let uptimes := match uptimes with Some l => l | None => [] end in
  if (player_index <? List.length uptimes)%nat then
    match nth_error uptimes player_index with
    | Some uptime =>
        fun age =>
          match age with
          | Feudal => up_feudal uptime
          | Castle => up_castle uptime
          | Imperial => up_imperial uptime
          end
    | None => fun _ => None
    end
  else fun _ => None.

(** [tech_map]: the age a technology name starts. *)
Definition tech_age (tech : option string) : option Age :=
  match tech with
  | Some t =>
      if (t =? "Feudal Age")%string then Some Feudal
      else if (t =? "Castle Age")%string then Some Castle
      else if (t =? "Imperial Age")%string then Some Imperial
      else None
  | None => None
  end.

Definition age_eqb (a b : Age) : bool :=
  match a, b with
  | Feudal, Feudal | Castle, Castle | Imperial, Imperial => true
  | _, _ => false
  end.

(** The age and the time one action writes into [starts], if any. *)
Definition age_click_of (action : Action) : option (Age * Z) :=
  if negb (type_in action ["RESEARCH"; "DE_RESEARCH"]) then None
  else
    let tech := str_or (p_tech (a_payload action)) (p_name (a_payload action)) in
    match tech_age tech, _action_time action with
    | Some age, Some timestamp => Some (age, timestamp)
    | _, _ => None
    end.

(** [_derive_age_clicks]: [starts], a dict keyed by age. *)
Definition _derive_age_clicks (actions : list Action) : dict Age Z :=
  fold_left
    (fun starts action =>
       match age_click_of action with
       | Some (age, timestamp) => set_item age_eqb starts age timestamp
       | None => starts
       end)
    actions [].

Definition research_duration (age : Age) : Z :=
  match age with
  | Feudal => 130
  | Castle => 160
  | Imperial => 190
  end.

(** [extract_timings(data, player_index)["ages"]], on the actions and the
    uptimes of [data]. *)
Definition extract_timings (actions : list Action) (uptimes : option (list Uptime))
    (player_index : nat) : Age -> AgeTiming :=
  let uptimes := _extract_uptimes uptimes player_index in
  let actions := _player_actions actions (Z.of_nat player_index) in
  let clicks := _derive_age_clicks actions in
  fun age =>
    _timing_entry (int_or (get age_eqb clicks age) (uptimes age))
                  (Some (research_duration age)).

(** ** extract_first_units, extract_first_buildings, aggregate_units *)

Record Firsts : Type := {
  times : dict string Z;
  times_str : dict string (option string)
}.

Definition firsts_result (firsts : dict string Z) : Firsts :=
  {| times := firsts;
     times_str := map (fun '(key, val) => (key, format_seconds (Some val))) firsts |}.

Definition extract_first_units (unit_events : list UnitEvent) : Firsts :=
  firsts_result
    (fold_left
       (fun firsts event =>
          let line := ue_line event in
          if negb (has_key String.eqb firsts line) && negb (line =? "unknown")%string
          then set_item String.eqb firsts line (ue_time event)
          else firsts)
       unit_events []).

Section BuildingKeys.
(** The building-name table of [data_mappings.py]. *)
Variable BUILDING_KEYS : dict string string.

(** [BUILDING_KEYS.get(building)], kept when it is not null or empty. *)
Definition building_key (build : BuildEvent) : option string :=
  match be_building build with
  | Some building =>
      match get String.eqb BUILDING_KEYS building with
      | Some key => if is_empty key then None else Some key
      | None => None
      end
  | None => None
  end.

Definition extract_first_buildings (builds : list BuildEvent) : Firsts :=
  firsts_result
    (fold_left
       (fun firsts build =>
          match building_key build with
          | None => firsts
          | Some key =>
              if negb (has_key String.eqb firsts key)
              then set_item String.eqb firsts key (be_time build)
              else firsts
          end)
       builds []).

End BuildingKeys.

(** [event["unit"] or "unknown"] *)
Definition unit_or_unknown (event : UnitEvent) : string :=
  match ue_unit event with
  | Some u => if is_empty u then "unknown" else u
  | None => "unknown"
  end.

Definition count_key (d : dict string Z) (key : string) : dict string Z :=
  set_item String.eqb d key (get_or String.eqb d key 0 + 1).

Definition aggregate_units (unit_events : list UnitEvent)
  : dict string Z * dict string Z :=
  fold_left
    (fun '(by_type, by_line) event =>
       (count_key by_type (unit_or_unknown event),
        count_key by_line (ue_line event)))
    unit_events ([], []).

(** ** _collect_market_actions *)

Record Market : Type := {
  first_buy : option Z;
  first_buy_str : option string;
  first_sell : option Z;
  first_sell_str : option string;
  buy_count : Z;
  sell_count : Z
}.

(** The four variables of the loop: [first_buy], [first_sell],
    [buy_count], [sell_count]. *)
Definition market_step (st : option Z * option Z * Z * Z) (action : Action)
  : option Z * option Z * Z * Z :=
  let '(first_buy, first_sell, buy_count, sell_count) := st in
  let '(first_buy, buy_count) :=
    if type_in action ["BUY"; "DE_BUY"] then
      (match _action_time action, first_buy with
       | Some timestamp, None => Some timestamp
       | _, _ => first_buy
       end, buy_count + 1)
    else (first_buy, buy_count) in
  let '(first_sell, sell_count) :=
    if type_in action ["SELL"; "DE_SELL"] then
      (match _action_time action, first_sell with
       | Some timestamp, None => Some timestamp
       | _, _ => first_sell
       end, sell_count + 1)
    else (first_sell, sell_count) in
  (first_buy, first_sell, buy_count, sell_count).

Definition _collect_market_actions (actions : list Action) : Market :=
  let '(first_buy, first_sell, buy_count, sell_count) :=
    fold_left market_step actions (None, None, 0, 0) in
  {| first_buy := first_buy;
     first_buy_str := format_seconds first_buy;
     first_sell := first_sell;
     first_sell_str := format_seconds first_sell;
     buy_count := buy_count;
     sell_count := sell_count |}.

(** ** _collect_farms *)

Record Farms : Type := {
  farms_total : Z;
  farm_first : option Z;
  farm_five : option Z;
  farm_ten : option Z;
  farm_first_str : option string;
  farm_five_str : option string;
  farm_ten_str : option string
}.

Definition is_farm (b : BuildEvent) : bool :=
  match be_building b with
  | Some building => (building =? "Farm")%string
  | None => false
  end.

(** [farm_times[count - 1]] when [len(farm_times) >= count], for a
    positive [count]. *)
Definition milestone (farm_times : list Z) (count : nat) : option Z :=
  if (count <=? List.length farm_times)%nat
  then nth_error farm_times (count - 1)
  else None.

Definition _collect_farms (builds : list BuildEvent) : Farms :=
  let farm_times := Py.sorted (map be_time (filter is_farm builds)) in
  {| farms_total := Z.of_nat (List.length farm_times);
     farm_first := milestone farm_times 1;
     farm_five := milestone farm_times 5;
     farm_ten := milestone farm_times 10;
     farm_first_str := format_seconds (milestone farm_times 1);
     farm_five_str := format_seconds (milestone farm_times 5);
     farm_ten_str := format_seconds (milestone farm_times 10) |}.

(** ** _collect_production_idle_flags *)

Record IdleFlag : Type := {
  if_building : string;
  if_object_id : Z;
  if_start : Z;
  if_duration : Z;
  if_start_str : option string;
  if_duration_str : option string
}.

(** [events_by_id.setdefault(obj_id, []).append(time)] *)
Definition setdefault_append (events_by_id : dict Z (list Z)) (obj_id time : Z)
  : dict Z (list Z) :=
  set_item Z.eqb events_by_id obj_id (get_or Z.eqb events_by_id obj_id [] ++ [time]).

Definition events_by_id_of (unit_events : list UnitEvent) : dict Z (list Z) :=
  fold_left
    (fun by_id event =>
       fold_left (fun by_id obj_id => setdefault_append by_id obj_id (ue_time event))
                 (ue_object_ids event) by_id)
    unit_events [].

(** A flag as appended in the loops; the two strings are set by the
    last loop of the function. *)
Definition make_flag (building : string) (obj_id start duration : Z) : IdleFlag :=
  {| if_building := building;
     if_object_id := obj_id;
     if_start := start;
     if_duration := duration;
     if_start_str := format_seconds (Some start);
     if_duration_str := format_seconds (Some duration) |}.

Section ProductionIdle.
(** The production-building table of [data_mappings.py], the match
    duration and the threshold. *)
Variable PRODUCTION_BUILDINGS : list string.
Variables (duration idle_threshold : Z).

(** The [for time in times] loop of one object id: the flags it appends
    and the last production time. *)
Fixpoint production_flags (building : string) (obj_id : Z) (times : list Z)
    (last_time : Z) : list IdleFlag * Z :=
  match times with
  | [] => ([], last_time)
  | time :: rest =>
      let '(flags, final) := production_flags building obj_id rest time in
      ((if time - last_time >? idle_threshold
        then [make_flag building obj_id last_time (time - last_time)]
        else []) ++ flags,
       final)
  end.

(** The flags of one object id of a build: the loop, then the gap up to
    the end of the match. *)
Definition object_flags (events_by_id : dict Z (list Z)) (building : string)
    (build_time obj_id : Z) : list IdleFlag :=
  let times := Py.sorted (get_or Z.eqb events_by_id obj_id []) in
  let '(flags, last_time) := production_flags building obj_id times build_time in
  flags ++ (if duration - last_time >? idle_threshold
            then [make_flag building obj_id last_time (duration - last_time)]
            else []).

(** The production building of a build, when it is one. *)
Definition production_building (build : BuildEvent) : option string :=
  match be_building build with
  | Some building =>
      if in_lines building PRODUCTION_BUILDINGS then Some building else None
  | None => None
  end.

(** The body of the [for build in builds] loop, on [flags] and
    [missing_ids]. *)
Definition build_step (events_by_id : dict Z (list Z))
    (st : list IdleFlag * bool) (build : BuildEvent) : list IdleFlag * bool :=
  let '(flags, missing_ids) := st in
  match production_building build with
  | None => (flags, missing_ids)
  | Some building =>
      match be_object_ids build with
      | [] => (flags, true)
      | ids =>
          (flags ++ flat_map (object_flags events_by_id building (be_time build)) ids,
           missing_ids)
      end
  end.

Definition _collect_production_idle_flags (unit_events : list UnitEvent)
    (builds : list BuildEvent) : list IdleFlag * bool :=
  let events_by_id := events_by_id_of unit_events in
  fold_left (build_step events_by_id) builds ([], false).

End ProductionIdle.

(** ** _actions_per_minute *)

Record MinuteBin : Type := {
  minute : Z;
  actions : Z
}.

(** [bins[index] += 1] with Python's indexing: a negative index counts
    from the end, an index out of range raises. *)
Definition bump (bins : list Z) (index : Z) : outcome (list Z) :=
  let len := Z.of_nat (List.length bins) in
  let position := if index <? 0 then index + len else index in
  if (0 <=? position) && (position <? len) then
    Return (firstn (Z.to_nat position) bins
            ++ match skipn (Z.to_nat position) bins with
               | count :: rest => (count + 1) :: rest
               | [] => []
               end)
  else Raise IndexError.

Definition _actions_per_minute (actions : list Action) (duration : Z)
  : outcome (list MinuteBin) :=
  let bins := repeat 0 (Z.to_nat (Z.max duration 0 / 60 + 1)) in
  bins <- fold_left
            (fun bins action =>
               bins <- bins ;;
               match _action_time action with
               | None => Return bins
               | Some ts =>
                   let index := Z.min (ts / 60) (Z.of_nat (List.length bins) - 1) in
                   bump bins index
               end)
            actions (Return bins) ;;
  Return (map (fun '(idx, count) => {| minute := Z.of_nat idx; actions := count |})
              (combine (seq 0 (List.length bins)) bins)).

End Core.

(* ================================================================== *)
(** * The vocabulary of the properties

    The rules as the specification words them, next to the closed forms
    of what the source computes; the theorems compare the two. *)

Module Spec.
Import Core.

(** ** Snapshots *)

(** [d'] has every key of [d], with a count that is not smaller. *)
Definition totals_le (d d' : dict string Z) : Prop :=
  forall key v,
    get String.eqb d key = Some v ->
    exists v', get String.eqb d' key = Some v' /\ v <= v'.

(** In the specification's words: "equals count/military_total within
    floating tolerance".  The tolerance is that of one rounding to a
    double: a relative error of at most 2^-53. *)
Definition within_tolerance (pct : Q) (count military_total : Z) : Prop :=
  (Qabs (pct - inject_Z count / inject_Z military_total)
   <= (1 # 2 ^ 53) * Qabs (inject_Z count / inject_Z military_total))%Q.

(** ** Town-center idle time *)

(** In the specification's words: "a gap between consecutive productions
    is counted as idle when gap_seconds = next_time - previous_time - 25
    > 5, contributing max(0, gap_seconds)". *)
Definition gap_idle (previous_time next_time : Z) : Z :=
  let gap_seconds := next_time - previous_time - 25 in
  if gap_seconds >? 5 then Z.max 0 gap_seconds else 0.

(** The gaps of a timeline, the first production being measured from
    [previous_time]. *)
Fixpoint gaps_idle (previous_time : Z) (times : list Z) : Z :=
  match times with
  | [] => 0
  | time :: rest => gap_idle previous_time time + gaps_idle time rest
  end.

(** In the specification's words: "Idle time in the tail is included
    under the same +25/+5 rule". *)
Definition tail_idle_same_rule (last_time duration : Z) : Z :=
  gap_idle last_time duration.

(** The tail in the source's terms (lines 382 and 392): after a
    production at a non-zero time, what is left beyond the 25-second
    cycle. *)
Definition tail_idle (last_time duration : Z) : Z :=
  if negb (last_time =? 0) && (duration - last_time - 25 >? 0)
  then duration - last_time - 25
  else 0.

(** The tail without the tolerance: what is left of the match beyond the
    25-second cycle of the last production. *)
Definition tail_beyond_cycle (last_time duration : Z) : Z :=
  Z.max 0 (duration - last_time - 25).

Definition timeline_rule (duration : Z) (times : list Z) : Z :=
  gaps_idle 0 times + tail_idle (last times 0) duration.

(** In the specification's words: the wall-clock span of an age bucket,
    "clipped at match start/duration when a boundary is null". *)
Definition clipped_span (duration : Z) (start_age end_age : option Z) : Z :=
  let start_age := match start_age with None => 0 | Some s => s end in
  let end_age := match end_age with None => duration | Some e => e end in
  Z.max 0 (end_age - start_age).

(** The idle seconds the accumulators hold for the bucket [label]. *)
Definition held (label : string) (acc : IdleAcc) : Z :=
  get_or String.eqb (per_age acc) label 0.

(** The part of a bucket's clipped span that lies before [last_time]. *)
Definition reach (duration : Z) (start_age end_age : option Z) (last_time : Z) : Z :=
  let start_age := match start_age with None => 0 | Some s => s end in
  let end_age := match end_age with None => duration | Some e => e end in
  Z.max 0 (Z.min last_time end_age - start_age).

(** The idle seconds of the four buckets together. *)
Definition buckets_sum (per_age : dict string Z) : Z :=
  get_or String.eqb per_age "Dark" 0 + get_or String.eqb per_age "Feudal" 0
  + get_or String.eqb per_age "Castle" 0 + get_or String.eqb per_age "Imperial" 0.

(** The timelines [_collect_tc_idle] walks (lines 368-393): one per
    tracked town center, or the aggregate one when no town center
    carries an id. *)
Definition timelines_of (unit_events : list UnitEvent) (builds : list BuildEvent)
  : list (list Z) :=
  let villager_events := villager_events_of unit_events in
  match tc_ids_of builds with
  | [] => [map ue_time villager_events]
  | tc_ids =>
      map (fun '(_, times) => Py.sorted times)
          (events_by_tc_of villager_events tc_ids)
  end.

(** ** Timings *)

(** Whether [action] starts the research of [age], with a timestamp. *)
Definition clicks_age (age : Age) (action : Action) : bool :=
  match age_click_of action with
  | Some (a, _) => age_eqb a age
  | None => false
  end.

(** The timestamp of the last action of the list that starts the
    research of [age]. *)
Definition last_click (actions : list Action) (age : Age) : option Z :=
  match find (clicks_age age) (rev actions) with
  | Some action => option_map snd (age_click_of action)
  | None => None
  end.

(** Whether [action] is a research of [technology] by [player] that
    carries a timestamp: its type is RESEARCH or DE_RESEARCH, and the
    technology named by its payload (the [tech] field, or the [name]
    field when [tech] is missing or empty) is [technology]. *)
Definition researches (player : Z) (technology : string) (action : Action) : bool :=
  let names (field : option string) : bool :=
    match field with
    | Some text => (text =? technology)%string
    | None => false
    end in
  match a_player action, a_type action, a_timestamp action with
  | Some p, Some type, Some _ =>
      (p =? player)
      && ((type =? "RESEARCH")%string || (type =? "DE_RESEARCH")%string)
      && match p_tech (a_payload action) with
         | Some EmptyString | None => names (p_name (a_payload action))
         | tech => names tech
         end
  | _, _, _ => false
  end.

(** ** Counting *)

(** How many elements of [l] satisfy [f]. *)
Definition count {A : Type} (f : A -> bool) (l : list A) : Z :=
  Z.of_nat (List.length (filter f l)).

(** ** Production idle flags *)

(** A flag of the object [obj_id] of [building], longer than the
    threshold, that starts at [origin] or at one of [times] and ends at
    one of [stops], with its two formatted fields. *)
Definition flag_between (idle_threshold : Z) (building : string) (obj_id : Z)
    (origin : Z) (times stops : list Z) (f : IdleFlag) : Prop :=
  idle_threshold < if_duration f
  /\ if_building f = building
  /\ if_object_id f = obj_id
  /\ (if_start f = origin \/ In (if_start f) times)
  /\ In (if_start f + if_duration f) stops
  /\ if_start_str f = format_seconds (Some (if_start f))
  /\ if_duration_str f = format_seconds (Some (if_duration f)).

(** The unit events that carry the object id [obj_id]. *)
Definition produced_by (obj_id : Z) (unit_events : list UnitEvent) (t : Z) : Prop :=
  exists e, In e unit_events /\ In obj_id (ue_object_ids e) /\ ue_time e = t.

(** ** Strings *)

(** Every character of [s] satisfies [p]. *)
Fixpoint all_chars (p : ascii -> bool) (s : string) : bool :=
  match s with
  | EmptyString => true
  | String c r => p c && all_chars p r
  end.

(** The characters of the ASCII range, on which the string functions of
    the embedding are those of Python. *)
Definition is_ascii (c : ascii) : bool := (nat_of_ascii c <? 128)%nat.

(** The characters a sanitized file name is made of. *)
Definition filename_chars : string :=
  "ABCDEFGHIJKLMNOPQRSTUVWXYZabcdefghijklmnopqrstuvwxyz0123456789-_".

Definition is_filename_char (c : ascii) : bool :=
  existsb (Ascii.eqb c) (list_ascii_of_string filename_chars).

(** The same character, or the two cases of one letter. *)
Definition same_letter (c d : ascii) : bool :=
  Ascii.eqb c d
  || existsb (fun '(upper, lower) =>
                (Ascii.eqb c upper && Ascii.eqb d lower)
                || (Ascii.eqb c lower && Ascii.eqb d upper))
       (combine (list_ascii_of_string "ABCDEFGHIJKLMNOPQRSTUVWXYZ")
                (list_ascii_of_string "abcdefghijklmnopqrstuvwxyz")).

(** Two names that differ in the case of their letters at most. *)
Fixpoint same_name (s t : string) : bool :=
  match s, t with
  | EmptyString, EmptyString => true
  | String c r, String d r' => same_letter c d && same_name r r'
  | _, _ => false
  end.

(** The number a string of decimal digits writes, after the digits
    already read as [acc]. *)
Fixpoint digits_value (acc : Z) (s : string) : Z :=
  match s with
  | EmptyString => acc
  | String c r => digits_value (acc * 10 + TimeUtils.digit_val c) r
  end.

(** [h:m:s] and [m:s] clock strings. *)
Definition clock3 (h m s : string) : string :=
  String.append h (String ":" (String.append m (String ":" s))).

Definition clock2 (m s : string) : string := String.append m (String ":" s).

(** ** Switches *)

(** A snapshot the scan for a response walks past: it is earlier than
    the event, or it holds three of no counter. *)
Definition passed_over (event : SwitchEvent) (counters : list string)
    (snapshot : Snapshot) : Prop :=
  time snapshot < se_time event \/ qualifying_counter counters snapshot = None.

End Spec.

(* ================================================================== *)
(** * Concrete inputs used by the examples below *)

Module Samples.
Import Core.

(** The [ages] mapping [extract_timings] builds from three resolved
    click times (research lasts 130, 160 and 190 seconds). *)
Definition ages_of (feudal castle imperial : option Z) : Age -> AgeTiming :=
  fun age =>
    match age with
    | Feudal => _timing_entry feudal (Some 130)
    | Castle => _timing_entry castle (Some 160)
    | Imperial => _timing_entry imperial (Some 190)
    end.

Definition no_clicks : Age -> AgeTiming := ages_of None None None.

Definition unit_event (t : Z) (line : string) (ids : list Z) : UnitEvent :=
  {| ue_time := t; ue_unit := None; ue_line := line; ue_object_ids := ids |}.

Definition town_center (t : Z) (ids : list Z) : BuildEvent :=
  {| be_time := t; be_building := Some "Town Center"; be_object_ids := ids |}.

(** The events of [test_snapshot_composition_basic]. *)
Definition test_events : list UnitEvent :=
  [ unit_event 10 "villager" []; unit_event 20 "archer_line" [];
    unit_event 200 "archer_line" [] ].

Definition test_ages : Age -> AgeTiming := ages_of (Some 130) None None.

Definition gold_lines : list string := ["archer_line"; "knight_line"].
Definition trash_lines : list string := ["pikeman_line"; "skirmisher_line"].
Definition counter_map : dict string (list string) :=
  [ ("knight_line", ["pikeman_line"; "camel_line"]);
    ("archer_line", ["skirmisher_line"]) ].

(** The scenario of the specification: villagers at 0, 25, 50 and 300
    from the town center with object id 7, in a 900-second match. *)
Definition scenario_events : list UnitEvent :=
  [ unit_event 0 "villager" [7]; unit_event 25 "villager" [7];
    unit_event 50 "villager" [7]; unit_event 300 "villager" [7] ].

Definition scenario_builds : list BuildEvent := [town_center 0 [7]].

(** Two town centers, each with one villager at second 500. *)
Definition two_tc_events : list UnitEvent :=
  [ unit_event 500 "villager" [1]; unit_event 500 "villager" [2] ].

Definition two_tc_builds : list BuildEvent := [town_center 0 [1; 2]].

Definition unit_line_map : dict string string :=
  [ ("Villager", "villager"); ("Archer", "archer_line");
    ("Crossbowman", "archer_line"); ("Knight", "knight_line") ].

Definition action (player : Z) (type : string) (timestamp : option Z)
    (unit_name : option string) (ids : list Z) : Action :=
  {| a_player := Some player;
     a_type := Some type;
     a_timestamp := timestamp;
     a_payload := {| p_unit := unit_name; p_name := None;
                     p_building := None; p_tech := None |};
     a_object_ids := Some ids |}.

(** The actions of one player: a villager, two archers out of time
    order, an action without timestamp and a market action. *)
Definition sample_actions : list Action :=
  [ action 0 "TRAIN" (Some 10) (Some "Villager") [7];
    action 0 "TRAIN" (Some 200) (Some "Crossbowman") [9];
    action 0 "DE_QUEUE" (Some 20) (Some "Archer") [9];
    action 0 "TRAIN" None (Some "Archer") [9];
    action 0 "BUY" (Some 400) None [] ].

(** The researches of a match: player 0 clicks Feudal twice (the second
    click counts) and Castle at second 0 of the record; player 1 clicks
    Feudal as well. *)
Definition research (player : Z) (type : string) (timestamp : option Z)
    (tech name : option string) : Action :=
  {| a_player := Some player;
     a_type := Some type;
     a_timestamp := timestamp;
     a_payload := {| p_unit := None; p_name := name;
                     p_building := None; p_tech := tech |};
     a_object_ids := None |}.

Definition research_actions : list Action :=
  [ research 0 "RESEARCH" (Some 600) (Some "Feudal Age") None;
    research 1 "RESEARCH" (Some 620) (Some "Feudal Age") None;
    research 0 "DE_RESEARCH" (Some 650) None (Some "Feudal Age");
    research 0 "RESEARCH" (Some 0) (Some "Castle Age") None;
    research 0 "RESEARCH" None (Some "Imperial Age") None ].

Definition research_uptimes : list Uptime :=
  [ {| up_feudal := Some 700; up_castle := Some 1200; up_imperial := None |} ].

(** A barracks built at second 100 whose only production is at 130. *)
Definition barracks_builds : list BuildEvent :=
  [ {| be_time := 100; be_building := Some "Barracks"; be_object_ids := [5] |} ].

Definition barracks_events : list UnitEvent := [unit_event 130 "militia_line" [5]].

(** The opponent goes from one knight to seven between 300 and 420; the
    viewer has three pikemen at 480. *)
Definition snapshot_of (t : Z) (totals : dict string Z) : Snapshot :=
  make_snapshot gold_lines trash_lines t totals.

Definition opponent_snapshots : list Snapshot :=
  [ snapshot_of 300 [("knight_line", 1)]; snapshot_of 420 [("knight_line", 7)] ].

Definition viewer_snapshots : list Snapshot :=
  [ snapshot_of 300 []; snapshot_of 420 [("pikeman_line", 1)];
    snapshot_of 480 [("pikeman_line", 3)] ].

Definition player (n : string) : Player :=
  {| name := n; civilization := "Franks"; winner := true |}.
End Samples.

(* ================================================================== *)
(** * Properties *)

Import Core.
Import Spec.

(** ** The repository's tests, on the embedding *)

Example test_format_seconds :
  format_seconds None = None
  /\ format_seconds (Some 0) = Some "0:00"
  /\ format_seconds (Some 125) = Some "2:05".
Proof. repeat split. Qed.

Example test_snapshot_composition_basic :
  exists first mid last,
    snapshot_composition Samples.gold_lines Samples.trash_lines
      Samples.test_events 300 Samples.test_ages 300 = Return [first; mid; last]
    /\ time mid = 130
    /\ get String.eqb (totals_by_line mid) "villager" = Some 1
    /\ get String.eqb (totals_by_line mid) "archer_line" = Some 1
    /\ get String.eqb (totals_by_line last) "archer_line" = Some 2.
Proof. do 3 eexists. repeat split. Qed.

(** ** Sorting and sets *)

Section SortFacts.
Context {A : Type} (key : A -> Z).

Lemma insert_by_perm (x : A) (l : list A) :
  Permutation (Py.insert_by key x l) (x :: l).
Proof.
  induction l as [|y r IH]; simpl; [reflexivity|].
  destruct (key x <=? key y); [reflexivity|].
  rewrite IH. apply perm_swap.
Qed.

Lemma sorted_by_perm (l : list A) : Permutation (Py.sorted_by key l) l.
Proof.
  induction l as [|x r IH]; simpl; [constructor|].
  rewrite insert_by_perm. now constructor.
Qed.

Lemma insert_by_sorted (x : A) (l : list A) :
  StronglySorted (Py.key_le key) l -> StronglySorted (Py.key_le key) (Py.insert_by key x l).
Proof.
  induction 1 as [|y r Hs IH Hall]; simpl.
  - repeat constructor.
  - destruct (key x <=? key y) eqn:E.
    + apply Z.leb_le in E. constructor; [now constructor|].
      constructor; [exact E|].
      eapply Forall_impl; [|exact Hall].
      unfold Py.key_le; intros; lia.
    + apply Z.leb_gt in E. constructor; [exact IH|].
      eapply Permutation_Forall; [symmetry; apply insert_by_perm|].
      constructor; [unfold Py.key_le; lia | exact Hall].
Qed.

Lemma sorted_by_sorted (l : list A) : StronglySorted (Py.key_le key) (Py.sorted_by key l).
Proof.
  induction l as [|x r IH]; simpl; [constructor|].
  now apply insert_by_sorted.
Qed.

Lemma keys_ascending (l : list A) :
  StronglySorted (Py.key_le key) l -> StronglySorted Z.le (map key l).
Proof.
  induction 1 as [|y r Hs IH Hall]; simpl; constructor; auto.
  rewrite Forall_map. exact Hall.
Qed.
End SortFacts.

Lemma sorted_ascending (l : list Z) : StronglySorted Z.le (Py.sorted l).
Proof.
  unfold Py.sorted.
  rewrite <- (map_id (Py.sorted_by (fun z => z) l)).
  apply keys_ascending. apply sorted_by_sorted.
Qed.

Lemma sorted_In (l : list Z) (x : Z) : In x (Py.sorted l) <-> In x l.
Proof.
  unfold Py.sorted; split; apply Permutation_in;
    [|symmetry]; apply sorted_by_perm.
Qed.

Lemma set_In (l : list Z) (x : Z) : In x (Py.set l) <-> In x l.
Proof.
  induction l as [|y r IH]; simpl; [tauto|].
  rewrite filter_In, IH, negb_true_iff, Z.eqb_neq.
  destruct (Z.eq_dec y x); intuition congruence.
Qed.

Lemma set_NoDup (l : list Z) : NoDup (Py.set l).
Proof.
  induction l as [|y r IH]; simpl; constructor.
  - rewrite filter_In, negb_true_iff, Z.eqb_neq. tauto.
  - now apply NoDup_filter.
Qed.

Lemma ascending_NoDup_strict (l : list Z) :
  StronglySorted Z.le l -> NoDup l -> StronglySorted Z.lt l.
Proof.
  induction 1 as [|y r Hs IH Hall]; intros Hnd; constructor;
    inversion Hnd as [|? ? Hnotin Hnd']; subst; auto.
  rewrite Forall_forall in *. intros z Hz.
  specialize (Hall z Hz).
  assert (y <> z) by (intros ->; contradiction). lia.
Qed.

Lemma sorted_set_strict (l : list Z) : StronglySorted Z.lt (Py.sorted (Py.set l)).
Proof.
  apply ascending_NoDup_strict; [apply sorted_ascending|].
  eapply Permutation_NoDup; [symmetry; apply sorted_by_perm | apply set_NoDup].
Qed.

Lemma mem_In (x : Z) (l : list Z) : Py.mem x l = true <-> In x l.
Proof.
  unfold Py.mem. rewrite existsb_exists. split.
  - intros (y & Hy & E). apply Z.eqb_eq in E. now subst.
  - intros H. exists x. split; [exact H | apply Z.eqb_refl].
Qed.

(** ** range *)

Lemma range_In (stop step : Z) (l : list Z) (t : Z) :
  0 < step ->
  Py.range 0 stop step = Return l ->
  In t l <-> exists k, 0 <= k /\ t = k * step /\ t < stop.
Proof.
  intros Hstep. unfold Py.range.
  destruct (Z.eqb_spec step 0) as [|_]; [lia|].
  destruct (Z.ltb_spec 0 step) as [_|]; [|lia].
  intros [= <-]. rewrite in_map_iff.
  set (n := (stop - 0 + step - 1) / step).
  assert (Hn : forall k, 0 <= k -> (k < n <-> k * step < stop)).
  { intros k Hk. unfold n. split; intros H.
    - assert (k + 1 <= (stop - 0 + step - 1) / step) by lia.
      assert ((k + 1) * step <= stop - 0 + step - 1).
      { etransitivity; [apply Z.mul_le_mono_nonneg_r; [lia | eassumption]|].
        rewrite Z.mul_comm. apply Z.mul_div_le. lia. }
      lia.
    - assert (k + 1 <= (stop - 0 + step - 1) / step);
        [apply Z.div_le_lower_bound; lia | lia]. }
  split.
  - intros (k & <- & Hk). apply in_seq in Hk.
    exists (Z.of_nat k). split; [lia|]. split; [lia|].
    apply Hn; lia.
  - intros (k & Hk & -> & Hlt). exists (Z.to_nat k).
    split; [lia|]. apply in_seq. apply Hn in Hlt; lia.
Qed.

(** ** snapshot_composition: bucket boundaries *)

Lemma add_click_In (age_times : Age -> AgeTiming) (buckets : list Z) (age : Age) (t : Z) :
  In t (match click_time (age_times age) with
        | Some time_val =>
            if negb (Py.mem time_val buckets) then buckets ++ [time_val] else buckets
        | None => buckets
        end)
  <-> In t buckets \/ click_time (age_times age) = Some t.
Proof.
  destruct (click_time (age_times age)) as [c|]; [|intuition discriminate].
  destruct (Py.mem c buckets) eqn:E; simpl.
  - apply mem_In in E. split; [tauto|].
    intros [H|[= <-]]; assumption.
  - rewrite in_app_iff. simpl. intuition congruence.
Qed.

Lemma snapshot_loop_times (GOLD TRASH : list string) (buckets : list Z) :
  forall events totals,
    map time (snapshot_loop GOLD TRASH buckets events totals) = buckets.
Proof.
  induction buckets as [|b r IH]; intros events totals; simpl; [reflexivity|].
  destruct (advance events b totals) as [events' totals']. simpl.
  now rewrite IH.
Qed.

(** The counterexample to C1 as stated: a 100-second match with no age
    click has a bucket, and a snapshot, at second 300, past the end of the
    match and not a multiple of the interval "from 0 to the duration". *)
Lemma bucket_past_duration :
  bucket_boundaries 100 Samples.no_clicks default_interval = Return [0; 300]
  /\ (exists snapshots,
        snapshot_composition Samples.gold_lines Samples.trash_lines []
          100 Samples.no_clicks default_interval = Return snapshots
        /\ map time snapshots = [0; 300]
        /\ ~ Forall (fun s => 0 <= time s <= 100) snapshots)
  /\ ~ (forall t,
          In t [0; 300] <->
          (exists k, 0 <= k /\ t = k * default_interval /\ t <= 100)
          \/ (exists age, click_time (Samples.no_clicks age) = Some t)).
Proof.
  split; [reflexivity|]. split.
  - eexists. split; [reflexivity|]. split; [reflexivity|].
    intros H. inversion H as [|? ? _ H']; subst.
    inversion H' as [|? ? Hs _]; subst. simpl in Hs. lia.
  - intros H. destruct (H 300) as [Hin _].
    destruct Hin as [(k & _ & _ & Hle)|[age Hage]].
    + simpl. tauto.
    + lia.
    + destruct age; discriminate Hage.
Qed.

(** C1 (amended): for a non-negative duration and a positive interval the
    bucket boundaries are exactly the multiples of the interval below
    [duration + interval] (so through the first multiple at or after the
    duration) together with the non-null age click times, without
    duplicates and strictly ascending; the snapshots carry exactly these
    times, so each snapshot time is an age click time or lies in
    [0, duration + interval), and lies in [0, duration] when the interval
    divides the duration and the click times do. *)
Theorem bucket_boundaries_amended (duration interval : Z) (age_times : Age -> AgeTiming) :
  0 <= duration -> 0 < interval ->
  exists buckets,
    bucket_boundaries duration age_times interval = Return buckets
    /\ StronglySorted Z.lt buckets
    /\ (forall t, In t buckets <->
          (exists k, 0 <= k /\ t = k * interval /\ t < duration + interval)
          \/ (exists age, click_time (age_times age) = Some t))
    /\ (forall GOLD TRASH unit_events, exists snapshots,
          snapshot_composition GOLD TRASH unit_events duration age_times interval
          = Return snapshots
          /\ map time snapshots = buckets)
    /\ (forall t, In t buckets ->
          0 <= t < duration + interval
          \/ (exists age, click_time (age_times age) = Some t))
    /\ ((interval | duration) ->
        (forall age t, click_time (age_times age) = Some t -> 0 <= t <= duration) ->
        forall t, In t buckets -> 0 <= t <= duration).
Proof.
  intros Hd Hi.
  destruct (Py.range 0 (Z.max duration 0 + interval) interval) as [l0|e] eqn:Hr.
  2:{ unfold Py.range in Hr. destruct (Z.eqb_spec interval 0); [lia|discriminate]. }
  pose proof (fun t => @range_In _ _ _ t Hi Hr) as Hl0.
  rewrite Z.max_l in Hl0 by lia.
  set (buckets := Py.sorted (Py.set
         (fold_left
            (fun buckets age =>
               match click_time (age_times age) with
               | Some time_val =>
                   if negb (Py.mem time_val buckets) then buckets ++ [time_val]
                   else buckets
               | None => buckets
               end) [Feudal; Castle; Imperial] l0))).
  assert (Hb : bucket_boundaries duration age_times interval = Return buckets).
  { unfold bucket_boundaries. rewrite Hr. reflexivity. }
  assert (Hin : forall t, In t buckets <->
            (exists k, 0 <= k /\ t = k * interval /\ t < duration + interval)
            \/ (exists age, click_time (age_times age) = Some t)).
  { intros t. unfold buckets. rewrite sorted_In, set_In. simpl.
    rewrite !add_click_In, Hl0. split.
    - intros [[[H|H]|H]|H]; eauto.
    - intros [H|[[] H]]; tauto. }
  exists buckets. split; [exact Hb|]. split; [apply sorted_set_strict|].
  split; [exact Hin|]. split; [|split].
  - intros GOLD TRASH unit_events. eexists. split.
    + unfold snapshot_composition. rewrite Hb. reflexivity.
    + apply snapshot_loop_times.
  - intros t Ht. apply Hin in Ht. destruct Ht as [(k & Hk & -> & Hlt)|H]; [left|now right].
    split; [apply Z.mul_nonneg_nonneg; lia | exact Hlt].
  - intros [m Hm] Hclicks t Ht. apply Hin in Ht.
    destruct Ht as [(k & Hk & -> & Hlt)|[age H]]; [|eauto].
    split; [apply Z.mul_nonneg_nonneg; lia|].
    rewrite Hm in *. 
    assert (k < m + 1) by (apply (Z.mul_lt_mono_pos_r interval); lia).
    apply Z.mul_le_mono_nonneg_r; lia.
Qed.

Lemma bucket_boundaries_amended_witness :
  exists buckets,
    bucket_boundaries 900 Samples.test_ages 300 = Return buckets
    /\ StronglySorted Z.lt buckets
    /\ (forall t, In t buckets <->
          (exists k, 0 <= k /\ t = k * 300 /\ t < 900 + 300)
          \/ (exists age, click_time (Samples.test_ages age) = Some t))
    /\ (forall GOLD TRASH unit_events, exists snapshots,
          snapshot_composition GOLD TRASH unit_events 900 Samples.test_ages 300
          = Return snapshots
          /\ map time snapshots = buckets)
    /\ (forall t, In t buckets ->
          0 <= t < 900 + 300
          \/ (exists age, click_time (Samples.test_ages age) = Some t))
    /\ ((300 | 900) ->
        (forall age t, click_time (Samples.test_ages age) = Some t -> 0 <= t <= 900) ->
        forall t, In t buckets -> 0 <= t <= 900).
Proof.
  apply (@bucket_boundaries_amended 900 300 Samples.test_ages); lia.
Defined.

(** ** Dictionaries *)

Section DictFacts.
Context {K V : Type} (eqb : K -> K -> bool).
Hypothesis eqb_spec : forall a b, reflect (a = b) (eqb a b).

Lemma get_set_item (d : dict K V) (k k' : K) (v : V) :
  get eqb (set_item eqb d k v) k' = if eqb k k' then Some v else get eqb d k'.
Proof.
  induction d as [|[k0 v0] r IH]; simpl; [reflexivity|].
  destruct (eqb_spec k0 k) as [->|Hne]; simpl.
  - destruct (eqb_spec k k'); reflexivity.
  - rewrite IH. destruct (eqb_spec k0 k') as [->|]; [|reflexivity].
    destruct (eqb_spec k k'); congruence.
Qed.

Lemma get_or_set_item (d : dict K V) (k k' : K) (v default : V) :
  get_or eqb (set_item eqb d k v) k' default
  = if eqb k k' then v else get_or eqb d k' default.
Proof.
  unfold get_or. rewrite get_set_item. now destruct (eqb k k').
Qed.

Lemma set_item_length (d : dict K V) (k : K) (v : V) :
  has_key eqb d k = true ->
  List.length (set_item eqb d k v) = List.length d.
Proof.
  unfold has_key.
  induction d as [|[k0 v0] r IH]; simpl; [discriminate|].
  destruct (eqb k0 k); simpl; [reflexivity|].
  intros H. now rewrite IH.
Qed.
End DictFacts.

(** ** snapshot_composition: running totals *)

Lemma totals_le_refl (d : dict string Z) : totals_le d d.
Proof. intros key v H. exists v. split; [exact H | lia]. Qed.

Lemma totals_le_trans (a b c : dict string Z) :
  totals_le a b -> totals_le b c -> totals_le a c.
Proof.
  intros Hab Hbc key v H.
  destruct (Hab _ _ H) as (v1 & H1 & Hle1).
  destruct (Hbc _ _ H1) as (v2 & H2 & Hle2).
  exists v2. split; [exact H2 | lia].
Qed.

Lemma count_line_le (totals : dict string Z) (line : string) :
  totals_le totals
    (set_item String.eqb totals line (get_or String.eqb totals line 0 + 1)).
Proof.
  intros key v H. rewrite (@get_set_item _ _ _ String.eqb_spec).
  destruct (String.eqb_spec line key) as [->|_].
  - unfold get_or. rewrite H. eexists. split; [reflexivity | lia].
  - exists v. split; [exact H | lia].
Qed.

Lemma advance_le (events : list UnitEvent) (bucket : Z) :
  forall totals, totals_le totals (snd (advance events bucket totals)).
Proof.
  induction events as [|e rest IH]; intros totals; simpl.
  - apply totals_le_refl.
  - destruct (ue_time e <=? bucket); simpl; [|apply totals_le_refl].
    eapply totals_le_trans; [apply count_line_le | apply IH].
Qed.

Lemma snapshot_loop_step (GOLD TRASH : list string) (buckets : list Z) :
  forall events totals n prev curr,
    nth_error (snapshot_loop GOLD TRASH buckets events totals) n = Some prev ->
    nth_error (snapshot_loop GOLD TRASH buckets events totals) (S n) = Some curr ->
    totals_le (totals_by_line prev) (totals_by_line curr).
Proof.
  induction buckets as [|b r IH]; intros events totals n prev curr; simpl.
  - destruct n; discriminate.
  - destruct (advance events b totals) as [events' totals'] eqn:E1.
    destruct n as [|n]; simpl.
    + intros [= <-]. destruct r as [|b2 r2]; simpl; [discriminate|].
      destruct (advance events' b2 totals') as [events'' totals''] eqn:E2.
      intros [= <-]. simpl.
      pose proof (advance_le events' b2 totals') as H. now rewrite E2 in H.
    + apply IH.
Qed.

(** C2: in the snapshot sequence of a player every key of snapshot N-1 is
    a key of snapshot N, with a count that is at least as large. *)
Theorem totals_by_line_monotone (GOLD TRASH : list string)
    (unit_events : list UnitEvent) (duration interval : Z)
    (age_times : Age -> AgeTiming) (snapshots : list Snapshot)
    (n : nat) (prev curr : Snapshot) (key : string) (v : Z) :
  snapshot_composition GOLD TRASH unit_events duration age_times interval
  = Return snapshots ->
  nth_error snapshots n = Some prev ->
  nth_error snapshots (S n) = Some curr ->
  get String.eqb (totals_by_line prev) key = Some v ->
  exists v', get String.eqb (totals_by_line curr) key = Some v' /\ v <= v'.
Proof.
  unfold snapshot_composition.
  destruct (bucket_boundaries duration age_times interval) as [buckets|e];
    simpl; [|discriminate].
  intros [= <-] Hprev Hcurr.
  exact (@snapshot_loop_step _ _ _ _ _ _ _ _ Hprev Hcurr key v).
Qed.

Lemma totals_by_line_monotone_witness :
  exists v',
    get String.eqb
      (totals_by_line
         {| time := 300; time_str := Some "5:00";
            totals_by_line := [("villager", 1); ("archer_line", 2)];
            military_total := 2; villagers_total_proxy := 1;
            gold_units_total := 2; trash_units_total := 0;
            gold_pct := Some 1%Q; trash_pct := Some 0%Q |})
      "archer_line" = Some v'
    /\ 1 <= v'.
Proof.
  eapply (@totals_by_line_monotone Samples.gold_lines Samples.trash_lines
            Samples.test_events 300 300 Samples.test_ages _ 1%nat);
    reflexivity.
Defined.

(** The run of a match is never refused for its interval: with a
    non-zero interval the snapshots are returned. *)
Lemma snapshot_composition_returns (GOLD TRASH : list string)
    (unit_events : list UnitEvent) (duration interval : Z)
    (age_times : Age -> AgeTiming) :
  interval <> 0 ->
  exists snapshots,
    snapshot_composition GOLD TRASH unit_events duration age_times interval
    = Return snapshots.
Proof.
  intros Hi. unfold snapshot_composition, bucket_boundaries, Py.range.
  destruct (Z.eqb_spec interval 0); [contradiction|].
  simpl. eexists. reflexivity.
Qed.

(** ** snapshot_composition: percentages *)

Lemma snapshot_loop_In (GOLD TRASH : list string) (buckets : list Z) :
  forall events totals s,
    In s (snapshot_loop GOLD TRASH buckets events totals) ->
    exists bucket totals', s = make_snapshot GOLD TRASH bucket totals'.
Proof.
  induction buckets as [|b r IH]; intros events totals s; simpl; [tauto|].
  destruct (advance events b totals) as [events' totals'].
  intros [<-|H]; [eauto | eapply IH; eassumption].
Qed.

(** ** The percentages of a snapshot *)

Lemma round_half_even_near (q : Q) :
  (Qabs (inject_Z (round_half_even q) - q) <= 1 # 2)%Q.
Proof.
  unfold round_half_even.
  pose proof (Qfloor_le q) as Hlo. pose proof (Qlt_floor q) as Hhi.
  rewrite inject_Z_plus in Hhi. change (inject_Z 1) with 1%Q in Hhi.
  apply Qabs_Qle_condition.
  destruct (Qcompare_spec (q - inject_Z (Qfloor q)) (1 # 2)) as [E|E|E].
  - destruct (Z.even (Qfloor q));
      [|rewrite inject_Z_plus; change (inject_Z 1) with 1%Q]; split; lra.
  - split; lra.
  - rewrite inject_Z_plus. change (inject_Z 1) with 1%Q. split; lra.
Qed.

Lemma pow2_pos (e : Z) : (0 < Qpower 2 e)%Q.
Proof. apply Qpower_0_lt. reflexivity. Qed.

Lemma pow2_plus (x y : Z) : (Qpower 2 (x + y) == Qpower 2 x * Qpower 2 y)%Q.
Proof. apply Qpower_plus. discriminate. Qed.

Lemma pow2_inject (x : Z) : 0 <= x -> (inject_Z (2 ^ x) == Qpower 2 x)%Q.
Proof. intros H. now rewrite Zpower_Qpower. Qed.

Lemma binary_exponent_below (n d : Z) :
  0 < n -> 0 < d -> (Qpower 2 (binary_exponent n d) <= inject_Z n / inject_Z d)%Q.
Proof.
  intros Hn Hd. unfold binary_exponent.
  destruct (Qle_bool (Qpower 2 (Z.log2 n - Z.log2 d)) (inject_Z n / inject_Z d)) eqn:E.
  - now apply Qle_bool_iff.
  - clear E.
    destruct (Z.log2_spec n Hn) as [Hn1 _]. destruct (Z.log2_spec d Hd) as [_ Hd2].
    pose proof (Z.log2_nonneg n) as Ln. pose proof (Z.log2_nonneg d) as Ld.
    assert (Qn : (Qpower 2 (Z.log2 n) <= inject_Z n)%Q).
    { rewrite <- pow2_inject by exact Ln. rewrite <- Zle_Qle. exact Hn1. }
    assert (Qd : (inject_Z d <= Qpower 2 (Z.log2 d + 1))%Q).
    { rewrite <- pow2_inject by lia. rewrite <- Zle_Qle.
      replace (Z.log2 d + 1) with (Z.succ (Z.log2 d)) by lia. lia. }
    assert (Dpos : (0 < inject_Z d)%Q) by (rewrite <- (Zlt_Qlt 0); exact Hd).
    apply Qle_shift_div_l; [exact Dpos|].
    replace (Z.log2 n) with ((Z.log2 n - Z.log2 d - 1) + (Z.log2 d + 1)) in Qn by lia.
    rewrite pow2_plus in Qn.
    pose proof (pow2_pos (Z.log2 n - Z.log2 d - 1)) as Ppos.
    eapply Qle_trans; [|exact Qn].
    apply Qmult_le_l; [exact Ppos | exact Qd].
Qed.

Lemma nearest_double_near (n d : Z) :
  0 < n -> 0 < d ->
  (Qabs (nearest_double n d - inject_Z n / inject_Z d)
   <= (1 # 2 ^ 53) * (inject_Z n / inject_Z d))%Q.
Proof.
  intros Hn Hd. unfold nearest_double.
  pose proof (@binary_exponent_below n d Hn Hd) as He.
  set (e := binary_exponent n d) in *.
  set (x := (inject_Z n / inject_Z d)%Q) in *.
  pose proof (pow2_pos (e - 52)) as Upos.
  set (U := Qpower 2 (e - 52)) in *.
  pose proof (round_half_even_near (x / U)) as Hr.
  set (r := inject_Z (round_half_even (x / U))) in *.
  apply Qabs_Qle_condition in Hr. destruct Hr as [Hr1 Hr2].
  assert (HU : (Qpower 2 e == U * (2 ^ 52 # 1))%Q).
  { unfold U. replace e with ((e - 52) + 52) at 1 by lia. rewrite pow2_plus.
    reflexivity. }
  assert (Hx : (x == x / U * U)%Q) by (field; lra).
  apply Qabs_Qle_condition.
  assert (H1 : ((r - x / U) * U <= (1 # 2) * U)%Q)
    by (apply Qmult_le_compat_r; lra).
  assert (H2 : ((- (1 # 2)) * U <= (r - x / U) * U)%Q)
    by (apply Qmult_le_compat_r; lra).
  assert (H3 : (U * (2 ^ 52 # 1) <= x)%Q) by (rewrite <- HU; exact He).
  change (1 # 2 ^ 53)%Q with (1 # 9007199254740992)%Q.
  change (2 ^ 52 # 1)%Q with (4503599627370496 # 1)%Q in H3.
  split; lra.
Qed.

Lemma true_div_within (a b : Z) :
  b <> 0 -> within_tolerance (true_div a b) a b.
Proof.
  intros Hb. unfold within_tolerance, true_div. rewrite Qred_correct.
  destruct a as [|p|p].
  - cbn [Z.sgn Z.mul]. apply Qabs_Qle_condition.
    assert (E : (inject_Z 0 / inject_Z b == 0)%Q) by (unfold Qdiv; ring).
    rewrite E. change (inject_Z 0) with 0%Q.
    change (Qabs 0) with 0%Q. split; ring_simplify; apply Qle_refl.
  - destruct b as [|q|q]; [contradiction| |].
    + cbn [Z.sgn Z.mul Z.abs].
      pose proof (@nearest_double_near (Z.pos p) (Z.pos q) eq_refl eq_refl) as H.
      assert (Hpos : (0 < inject_Z (Z.pos p) / inject_Z (Z.pos q))%Q)
        by (apply Qlt_shift_div_l; [reflexivity | ring_simplify; reflexivity]).
      rewrite (Qabs_pos (inject_Z (Z.pos p) / inject_Z (Z.pos q))) by lra.
      change (inject_Z 1) with 1%Q.
      setoid_replace (1 * nearest_double (Z.pos p) (Z.pos q))%Q
        with (nearest_double (Z.pos p) (Z.pos q)) by ring.
      exact H.
    + cbn [Z.sgn Z.mul Z.abs].
      pose proof (@nearest_double_near (Z.pos p) (Z.pos q) eq_refl eq_refl) as H.
      assert (E : (inject_Z (Z.pos p) / inject_Z (Z.neg q)
                   == - (inject_Z (Z.pos p) / inject_Z (Z.pos q)))%Q).
      { change (inject_Z (Z.neg q)) with (- inject_Z (Z.pos q))%Q.
        field. discriminate. }
      rewrite E.
      setoid_replace (inject_Z (-1) * nearest_double (Z.pos p) (Z.pos q)
                      - - (inject_Z (Z.pos p) / inject_Z (Z.pos q)))%Q
        with (- (nearest_double (Z.pos p) (Z.pos q)
                 - inject_Z (Z.pos p) / inject_Z (Z.pos q)))%Q
        by (change (inject_Z (-1)) with (-1 # 1)%Q; ring).
      rewrite !Qabs_opp.
      assert (Hpos : (0 < inject_Z (Z.pos p) / inject_Z (Z.pos q))%Q)
        by (apply Qlt_shift_div_l; [reflexivity | ring_simplify; reflexivity]).
      rewrite (Qabs_pos (inject_Z (Z.pos p) / inject_Z (Z.pos q))) by lra.
      exact H.
  - destruct b as [|q|q]; [contradiction| |].
    + cbn [Z.sgn Z.mul Z.abs].
      pose proof (@nearest_double_near (Z.pos p) (Z.pos q) eq_refl eq_refl) as H.
      assert (E : (inject_Z (Z.neg p) / inject_Z (Z.pos q)
                   == - (inject_Z (Z.pos p) / inject_Z (Z.pos q)))%Q).
      { change (inject_Z (Z.neg p)) with (- inject_Z (Z.pos p))%Q.
        field. discriminate. }
      rewrite E.
      setoid_replace (inject_Z (-1) * nearest_double (Z.pos p) (Z.pos q)
                      - - (inject_Z (Z.pos p) / inject_Z (Z.pos q)))%Q
        with (- (nearest_double (Z.pos p) (Z.pos q)
                 - inject_Z (Z.pos p) / inject_Z (Z.pos q)))%Q
        by (change (inject_Z (-1)) with (-1 # 1)%Q; ring).
      rewrite !Qabs_opp.
      assert (Hpos : (0 < inject_Z (Z.pos p) / inject_Z (Z.pos q))%Q)
        by (apply Qlt_shift_div_l; [reflexivity | ring_simplify; reflexivity]).
      rewrite (Qabs_pos (inject_Z (Z.pos p) / inject_Z (Z.pos q))) by lra.
      exact H.
    + cbn [Z.sgn Z.mul Z.abs].
      pose proof (@nearest_double_near (Z.pos p) (Z.pos q) eq_refl eq_refl) as H.
      assert (E : (inject_Z (Z.neg p) / inject_Z (Z.neg q)
                   == inject_Z (Z.pos p) / inject_Z (Z.pos q))%Q).
      { change (inject_Z (Z.neg p)) with (- inject_Z (Z.pos p))%Q.
        change (inject_Z (Z.neg q)) with (- inject_Z (Z.pos q))%Q.
        field. discriminate. }
      rewrite E.
      assert (Hpos : (0 < inject_Z (Z.pos p) / inject_Z (Z.pos q))%Q)
        by (apply Qlt_shift_div_l; [reflexivity | ring_simplify; reflexivity]).
      rewrite (Qabs_pos (inject_Z (Z.pos p) / inject_Z (Z.pos q))) by lra.
      change (inject_Z 1) with 1%Q.
      setoid_replace (1 * nearest_double (Z.pos p) (Z.pos q))%Q
        with (nearest_double (Z.pos p) (Z.pos q)) by ring.
      exact H.
Qed.

(** C7: in every snapshot produced, [gold_pct] and [trash_pct] are null
    exactly when [military_total] is zero; otherwise each is a number
    that equals the gold (trash) total divided by [military_total] within
    floating tolerance, a relative error of at most 2^-53; the three
    totals are the sums over the snapshot's own lines. *)
Theorem percentages_null_iff_no_military (GOLD TRASH : list string)
    (unit_events : list UnitEvent) (duration interval : Z)
    (age_times : Age -> AgeTiming) (snapshots : list Snapshot) (s : Snapshot) :
  snapshot_composition GOLD TRASH unit_events duration age_times interval
  = Return snapshots ->
  In s snapshots ->
  (gold_pct s = None <-> military_total s = 0)
  /\ (trash_pct s = None <-> military_total s = 0)
  /\ (military_total s <> 0 ->
      exists gold trash,
        gold_pct s = Some gold
        /\ trash_pct s = Some trash
        /\ within_tolerance gold (gold_units_total s) (military_total s)
        /\ within_tolerance trash (trash_units_total s) (military_total s))
  /\ military_total s
     = sum_counts
         (fun line => negb (in_lines line ["villager"; "fishing_ship"; "trade"]))
         (totals_by_line s)
  /\ gold_units_total s
     = sum_counts (fun line => in_lines line GOLD) (totals_by_line s)
  /\ trash_units_total s
     = sum_counts (fun line => in_lines line TRASH) (totals_by_line s).
Proof.
  unfold snapshot_composition.
  destruct (bucket_boundaries duration age_times interval) as [buckets|e];
    simpl; [|discriminate].
  intros [= <-] Hin.
  apply snapshot_loop_In in Hin. destruct Hin as (bucket & totals & ->).
  unfold make_snapshot.
  cbn [gold_pct trash_pct military_total gold_units_total trash_units_total
       totals_by_line].
  remember (sum_counts
              (fun line => negb (in_lines line ["villager"; "fishing_ship"; "trade"]))
              totals) as m eqn:Em.
  destruct (Z.eqb_spec m 0) as [E|E]; cbn [negb].
  - repeat split; auto; contradiction.
  - split; [split; [discriminate | contradiction]|].
    split; [split; [discriminate | contradiction]|].
    split; [|repeat split; exact Em].
    intros _. do 2 eexists. split; [reflexivity|]. split; [reflexivity|].
    split; apply true_div_within; exact E.
Qed.

Lemma percentages_null_iff_no_military_witness :
  let s := make_snapshot Samples.gold_lines Samples.trash_lines 130
             [("villager", 1); ("archer_line", 1)] in
  (gold_pct s = None <-> military_total s = 0)
  /\ (trash_pct s = None <-> military_total s = 0)
  /\ (military_total s <> 0 ->
      exists gold trash,
        gold_pct s = Some gold
        /\ trash_pct s = Some trash
        /\ within_tolerance gold (gold_units_total s) (military_total s)
        /\ within_tolerance trash (trash_units_total s) (military_total s))
  /\ military_total s
     = sum_counts
         (fun line => negb (in_lines line ["villager"; "fishing_ship"; "trade"]))
         (totals_by_line s)
  /\ gold_units_total s
     = sum_counts (fun line => in_lines line Samples.gold_lines) (totals_by_line s)
  /\ trash_units_total s
     = sum_counts (fun line => in_lines line Samples.trash_lines) (totals_by_line s).
Proof.
  intros s.
  apply (@percentages_null_iff_no_military Samples.gold_lines Samples.trash_lines
           Samples.test_events 300 300 Samples.test_ages
           [make_snapshot Samples.gold_lines Samples.trash_lines 0 [];
            s;
            make_snapshot Samples.gold_lines Samples.trash_lines 300
              [("villager", 1); ("archer_line", 2)]]).
  - reflexivity.
  - simpl. right. left. reflexivity.
Defined.

(** Two gold units of three: the percentage is the double nearest to
    2/3, which prints as 0.6666666666666666. *)
Example test_gold_pct_rounded :
  gold_pct (make_snapshot Samples.gold_lines Samples.trash_lines 300
              [("archer_line", 2); ("spearman_line", 1)])
  = Some (6004799503160661 # 9007199254740992)%Q.
Proof. vm_compute. reflexivity. Qed.

(** ** _collect_tc_idle: the walk over the timelines *)

Section IdleFacts.
Variables (duration : Z) (age_times : Age -> AgeTiming).

Local Abbreviation add_idle := (Core.add_idle duration age_times).
Local Abbreviation production_gaps := (Core.production_gaps duration age_times).
Local Abbreviation timeline_idle := (Core.timeline_idle duration age_times).

Lemma add_idle_total (start stop : Z) (acc : IdleAcc) :
  idle_total (add_idle start stop acc) = idle_total acc + Z.max 0 (stop - start).
Proof. reflexivity. Qed.

Lemma last_default (l : list Z) (x a b : Z) : last (x :: l) a = last (x :: l) b.
Proof.
  revert x. induction l as [|y r IH]; intros x; [reflexivity|].
  change (last (y :: r) a = last (y :: r) b). apply IH.
Qed.

Lemma production_gaps_last (times : list Z) :
  forall last_time acc,
    fst (production_gaps times last_time acc) = last times last_time.
Proof.
  induction times as [|t rest IH]; intros last_time acc; simpl; [reflexivity|].
  rewrite IH. destruct rest; [reflexivity|]. apply last_default.
Qed.

Lemma production_gaps_total (times : list Z) :
  forall last_time acc,
    idle_total (snd (production_gaps times last_time acc))
    = idle_total acc + gaps_idle last_time times.
Proof.
  induction times as [|t rest IH]; intros last_time acc; simpl; [lia|].
  rewrite IH. unfold gap_idle.
  destruct (t - last_time - 25 >? 5); [rewrite add_idle_total|]; lia.
Qed.

Lemma timeline_idle_total (times : list Z) (acc : IdleAcc) :
  idle_total (timeline_idle times acc)
  = idle_total acc + timeline_rule duration times.
Proof.
  unfold Core.timeline_idle, timeline_rule, tail_idle.
  pose proof (production_gaps_last times 0 acc) as Hl.
  pose proof (production_gaps_total times 0 acc) as Ht.
  destruct (production_gaps times 0 acc) as [last_time acc']. simpl in Hl, Ht.
  rewrite <- Hl.
  replace (duration - last_time - 25 >? 0) with (duration >? last_time + 25)
    by (rewrite !Z.gtb_ltb; destruct (Z.ltb_spec (last_time + 25) duration),
          (Z.ltb_spec 0 (duration - last_time - 25)); lia).
  destruct (negb (last_time =? 0) && (duration >? last_time + 25)) eqn:E.
  - rewrite add_idle_total, Ht.
    apply andb_true_iff in E. destruct E as [_ E].
    rewrite Z.gtb_ltb in E. apply Z.ltb_lt in E. lia.
  - lia.
Qed.

(** The accumulators [_collect_tc_idle] ends with are those of the
    timelines walked one after the other. *)
Lemma collect_tc_idle_walk (unit_events : list UnitEvent) (builds : list BuildEvent) :
  let r := fst (_collect_tc_idle duration age_times unit_events builds) in
  let acc := fold_left (fun acc times => timeline_idle times acc)
                       (timelines_of unit_events builds) idle_start in
  total r = idle_total acc /\ by_age r = per_age acc.
Proof.
  unfold _collect_tc_idle, timelines_of. simpl.
  destruct (tc_ids_of builds) as [|tc_id tc_ids]; simpl; [split; reflexivity|].
  generalize (events_by_tc_of (villager_events_of unit_events) (tc_id :: tc_ids)).
  intros by_tc. generalize idle_start.
  induction by_tc as [|[id times] r IH]; intros acc; simpl; [split; reflexivity|].
  apply IH.
Qed.

Lemma walk_total (timelines : list (list Z)) :
  forall acc,
    idle_total (fold_left (fun acc times => timeline_idle times acc) timelines acc)
    = idle_total acc
      + fold_right (fun times sum => timeline_rule duration times + sum) 0 timelines.
Proof.
  induction timelines as [|times r IH]; intros acc; simpl; [lia|].
  rewrite IH, timeline_idle_total. lia.
Qed.
End IdleFacts.

(** The counterexample to C3 as stated: one villager at second 10 of a
    38-second match leaves a tail of 38 - 10 - 25 = 3 seconds, within the
    5-second tolerance of the claim, and the code reports it as idle. *)
Lemma tail_without_tolerance :
  total (fst (_collect_tc_idle 38 Samples.no_clicks
                [Samples.unit_event 10 "villager" []] [])) = 3
  /\ timelines_of [Samples.unit_event 10 "villager" []] [] = [[10]]
  /\ gaps_idle 0 [10] = 0
  /\ ~ (38 - 10 - 25 > 5)
  /\ gaps_idle 0 [10] + tail_idle_same_rule 10 38 = 0.
Proof. repeat (split; [reflexivity|]). split; [lia | reflexivity]. Qed.

(** C3 (amended): on a timeline (a town center's, or the aggregate one)
    whose last production is at a non-zero time, the idle time the
    program adds is what it holds after the first production, plus the
    gaps between consecutive productions, plus the tail; on every
    timeline the loop over the productions adds the gaps between
    consecutive productions to what it holds after the first; a gap
    between consecutive productions contributes [max(0, gap_seconds)]
    exactly when [gap_seconds = next - previous - 25 > 5]; the tail after
    the last production contributes [duration - last_time - 25] whenever
    that is positive, with no 5-second tolerance; and the reported total
    is the sum over the timelines. *)
Theorem tc_idle_gap_and_tail_rule (duration : Z) (age_times : Age -> AgeTiming)
    (first : Z) (rest : list Z) (acc : IdleAcc) :
  last (first :: rest) 0 <> 0 ->
  idle_total (timeline_idle duration age_times (first :: rest) acc)
  = idle_total (snd (production_gaps duration age_times [first] 0 acc))
    + gaps_idle first rest
    + tail_beyond_cycle (last (first :: rest) 0) duration
  /\ (forall (time : Z) (later : list Z) (held : IdleAcc),
        idle_total (snd (production_gaps duration age_times (time :: later) 0 held))
        = idle_total (snd (production_gaps duration age_times [time] 0 held))
          + gaps_idle time later)
  /\ (forall previous_time next_time,
        (0 < gap_idle previous_time next_time
         <-> next_time - previous_time - 25 > 5)
        /\ (0 < gap_idle previous_time next_time ->
            gap_idle previous_time next_time = next_time - previous_time - 25))
  /\ (forall last_time,
        (0 < tail_beyond_cycle last_time duration
         <-> duration - last_time - 25 > 0)
        /\ (0 < tail_beyond_cycle last_time duration ->
            tail_beyond_cycle last_time duration = duration - last_time - 25))
  /\ (forall unit_events builds,
        total (fst (_collect_tc_idle duration age_times unit_events builds))
        = fold_right
            (fun times sum =>
               idle_total (timeline_idle duration age_times times idle_start) + sum)
            0 (timelines_of unit_events builds)).
Proof.
  intros Hlast. split; [|split; [|split; [|split]]].
  - rewrite timeline_idle_total, production_gaps_total.
    unfold timeline_rule, tail_idle, tail_beyond_cycle.
    cbn [gaps_idle].
    destruct (Z.eqb_spec (last (first :: rest) 0) 0) as [E|_]; [contradiction|].
    cbn [negb andb]. rewrite Z.gtb_ltb.
    destruct (Z.ltb_spec 0 (duration - last (first :: rest) 0 - 25)); lia.
  - intros time later held. rewrite !production_gaps_total. cbn [gaps_idle]. lia.
  - intros previous_time next_time. unfold gap_idle. rewrite Z.gtb_ltb.
    destruct (Z.ltb_spec 5 (next_time - previous_time - 25)); split; try split; lia.
  - intros last_time. unfold tail_beyond_cycle. split; [split|]; lia.
  - intros unit_events builds.
    destruct (collect_tc_idle_walk duration age_times unit_events builds) as [-> _].
    rewrite walk_total. cbn [idle_start idle_total].
    generalize (timelines_of unit_events builds). intros timelines.
    induction timelines as [|times r IH]; cbn [fold_right]; [reflexivity|].
    rewrite timeline_idle_total. cbn [idle_start idle_total].
    cbn [fold_right] in IH. lia.
Qed.

Lemma tc_idle_gap_and_tail_rule_witness :
  idle_total (timeline_idle 900 Samples.no_clicks [0; 25; 50; 300] idle_start)
  = 0 + 225 + 575.
Proof.
  destruct (@tc_idle_gap_and_tail_rule 900 Samples.no_clicks 0 [25; 50; 300]
              idle_start) as [H _]; [discriminate|].
  exact H.
Defined.

(** The counterexample to C4 as stated: in the scenario the gap from 50
    to 300 is itself idle, so 225 seconds fall before second 300 (the
    Dark bucket when Feudal is clicked at 300) and the total is 800, 225
    seconds more than the trailing gap alone. *)
Lemma scenario_idle_before_300 :
  let r := fst (_collect_tc_idle 900 (Samples.ages_of (Some 300) None None)
                  Samples.scenario_events Samples.scenario_builds) in
  get_or String.eqb (by_age r) "Dark" 0 = 225
  /\ total r = 800
  /\ total r - 575 = 225
  /\ ~ (get_or String.eqb (by_age r) "Dark" 0 = 0)
  /\ ~ (total r = 575).
Proof.
  cbv zeta. repeat (split; [reflexivity|]). split; intros H; discriminate H.
Qed.

(** C4 (amended): in the scenario (900-second match, villagers at 0, 25,
    50 and 300 from one town center) the detector walks the one timeline
    [0; 25; 50; 300]; the gaps up to 50 give no idle time, the gap from 50
    to 300 gives 225 seconds (75 to 300), the tail gives 575 seconds (325
    to 900), and the reported total is 800 whatever the age times. *)
Theorem scenario_idle_total (age_times : Age -> AgeTiming) :
  timelines_of Samples.scenario_events Samples.scenario_builds = [[0; 25; 50; 300]]
  /\ gaps_idle 0 [0; 25; 50] = 0
  /\ gap_idle 50 300 = 225
  /\ tail_idle 300 900 = 575
  /\ total (fst (_collect_tc_idle 900 age_times
                   Samples.scenario_events Samples.scenario_builds)) = 800
  /\ snd (_collect_tc_idle 900 age_times
            Samples.scenario_events Samples.scenario_builds) = false.
Proof.
  repeat (split; [reflexivity|]). reflexivity.
Qed.

(** ** _collect_tc_idle: a player without villagers *)

Lemma filter_none {A : Type} (f : A -> bool) (l : list A) :
  (forall x, In x l -> f x = false) -> filter f l = [].
Proof.
  induction l as [|x r IH]; intros H; simpl; [reflexivity|].
  rewrite (H x (or_introl eq_refl)). apply IH. intros y Hy. apply H. now right.
Qed.

Lemma idle_timelines (duration : Z) (age_times : Age -> AgeTiming) (tc_ids : list Z) :
  forall acc,
    fold_left
      (fun acc '(_, times) => timeline_idle duration age_times (Py.sorted times) acc)
      (map (fun tc_id => (tc_id, @nil Z)) tc_ids) acc
    = acc.
Proof.
  induction tc_ids as [|id r IH]; intros acc; simpl; [reflexivity|].
  apply IH.
Qed.

(** C10: a player with no villager-production event is reported a total
    idle time of 0 and 0 in every age bucket, whatever the duration, the
    age times and the build events; and the timeline of a tracked town
    center that produced no villager leaves the idle accumulators as they
    are, so no tail spanning the match is counted for it. *)
Theorem no_villager_no_idle (duration : Z) (age_times : Age -> AgeTiming)
    (unit_events : list UnitEvent) (builds : list BuildEvent) :
  (forall e, In e unit_events -> ue_line e <> "villager") ->
  fst (_collect_tc_idle duration age_times unit_events builds)
  = {| total := 0;
       total_str := Some "0:00";
       by_age := [("Dark", 0); ("Feudal", 0); ("Castle", 0); ("Imperial", 0)] |}
  /\ (forall acc, timeline_idle duration age_times (Py.sorted []) acc = acc).
Proof.
  intros Hnone. split; [|reflexivity].
  assert (Hv : villager_events_of unit_events = []).
  { unfold villager_events_of. rewrite filter_none; [reflexivity|].
    intros e He. apply String.eqb_neq. now apply Hnone. }
  unfold _collect_tc_idle. rewrite Hv.
  destruct (tc_ids_of builds) as [|tc_id tc_ids]; [reflexivity|].
  unfold events_by_tc_of. cbn [fold_left fst].
  rewrite idle_timelines. reflexivity.
Qed.

Lemma no_villager_no_idle_witness :
  fst (_collect_tc_idle 900 Samples.test_ages
         [Samples.unit_event 20 "archer_line" [7]] Samples.scenario_builds)
  = {| total := 0;
       total_str := Some "0:00";
       by_age := [("Dark", 0); ("Feudal", 0); ("Castle", 0); ("Imperial", 0)] |}
  /\ (forall acc, timeline_idle 900 Samples.test_ages (Py.sorted []) acc = acc).
Proof.
  apply no_villager_no_idle.
  intros e [<-|[]]. simpl. discriminate.
Defined.

(** ** _collect_tc_idle: idle time per age bucket *)

Section AgeBuckets.
Variables (duration : Z) (age_times : Age -> AgeTiming).
Variables (label : string) (start_age end_age : option Z).
Hypothesis bucket : In (label, start_age, end_age) (age_bounds duration age_times).

Local Abbreviation held := (held label).
Local Abbreviation reach := (reach duration start_age end_age).

Lemma add_idle_held (start stop : Z) (acc : IdleAcc) :
  held (add_idle duration age_times start stop acc)
  = held acc + overlap duration start stop start_age end_age.
Proof.
  unfold Spec.held, add_idle, age_bounds in *. cbn [per_age fold_left].
  destruct bucket as [E|[E|[E|[E|[]]]]]; injection E as <- <- <-;
    rewrite !(@get_or_set_item _ _ _ String.eqb_spec); cbn; lia.
Qed.

Lemma production_gaps_held (times : list Z) :
  forall last_time acc base,
    StronglySorted Z.le times ->
    Forall (fun t => last_time <= t) times ->
    held acc <= base + reach last_time ->
    held (snd (production_gaps duration age_times times last_time acc))
    <= base + reach (fst (production_gaps duration age_times times last_time acc)).
Proof.
  induction times as [|t rest IH]; intros last_time acc base Hs Hall Hacc; simpl;
    [exact Hacc|].
  inversion Hs as [|? ? Hs' Hrest]; subst.
  inversion Hall as [|? ? Hle _]; subst.
  apply IH; [exact Hs' | exact Hrest |].
  destruct (t - last_time - 25 >? 5).
  - rewrite add_idle_held. unfold overlap, Spec.reach in *. lia.
  - unfold Spec.reach in *. lia.
Qed.

Lemma timeline_idle_held (times : list Z) (acc : IdleAcc) :
  StronglySorted Z.le times ->
  held (timeline_idle duration age_times times acc)
  <= held acc + clipped_span duration start_age end_age.
Proof.
  intros Hs. unfold timeline_idle.
  assert (Hg : held (snd (production_gaps duration age_times times 0 acc))
               <= held acc
                  + reach (fst (production_gaps duration age_times times 0 acc))).
  { destruct times as [|t rest]; simpl; [unfold Spec.reach; lia|].
    inversion Hs as [|? ? Hs' Hrest]; subst.
    apply production_gaps_held; [exact Hs' | exact Hrest |].
    destruct (t - 0 - 25 >? 5).
    - rewrite add_idle_held. unfold overlap, Spec.reach. lia.
    - unfold Spec.reach. lia. }
  destruct (production_gaps duration age_times times 0 acc) as [last_time acc'].
  simpl in Hg. unfold Spec.reach in Hg. unfold clipped_span.
  destruct (negb (last_time =? 0) && (duration >? last_time + 25)).
  - rewrite add_idle_held. unfold overlap. lia.
  - lia.
Qed.

Lemma walk_held (timelines : list (list Z)) :
  Forall (StronglySorted Z.le) timelines ->
  forall acc,
    held (fold_left (fun acc times => timeline_idle duration age_times times acc)
                    timelines acc)
    <= held acc
       + Z.of_nat (List.length timelines) * clipped_span duration start_age end_age.
Proof.
  induction 1 as [|times r Hs _ IH]; intros acc; [simpl; lia|].
  cbn [fold_left]. etransitivity; [apply IH|].
  pose proof (timeline_idle_held acc Hs).
  change (List.length (times :: r)) with (S (List.length r)). lia.
Qed.

Lemma held_start : held idle_start = 0.
Proof.
  unfold Spec.held, age_bounds in *.
  destruct bucket as [E|[E|[E|[E|[]]]]]; injection E as <- <- <-; reflexivity.
Qed.
End AgeBuckets.

Lemma record_event_length (event : UnitEvent) (by_tc : dict Z (list Z)) :
  List.length (record_event by_tc event) = List.length by_tc.
Proof.
  unfold record_event. revert by_tc.
  induction (ue_object_ids event) as [|obj_id r IH]; intros by_tc; simpl;
    [reflexivity|].
  rewrite IH. destruct (has_key Z.eqb by_tc obj_id) eqn:E; [|reflexivity].
  now apply set_item_length.
Qed.

Lemma events_by_tc_length (villager_events : list UnitEvent) (tc_ids : list Z) :
  List.length (events_by_tc_of villager_events tc_ids) = List.length tc_ids.
Proof.
  unfold events_by_tc_of.
  rewrite <- (length_map (fun tc_id => (tc_id, @nil Z)) tc_ids).
  generalize (map (fun tc_id => (tc_id, @nil Z)) tc_ids).
  induction villager_events as [|e r IH]; intros by_tc; simpl; [reflexivity|].
  now rewrite IH, record_event_length.
Qed.

Lemma timelines_count (unit_events : list UnitEvent) (builds : list BuildEvent) :
  List.length (timelines_of unit_events builds)
  = Nat.max 1 (List.length (tc_ids_of builds)).
Proof.
  unfold timelines_of.
  destruct (tc_ids_of builds) as [|tc_id tc_ids] eqn:E; [reflexivity|].
  rewrite length_map, events_by_tc_length. simpl. lia.
Qed.

Lemma timelines_ascending (unit_events : list UnitEvent) (builds : list BuildEvent) :
  Forall (StronglySorted Z.le) (timelines_of unit_events builds).
Proof.
  unfold timelines_of.
  destruct (tc_ids_of builds) as [|tc_id tc_ids].
  - constructor; [|constructor].
    apply keys_ascending, sorted_by_sorted.
  - apply Forall_map, Forall_forall. intros [id times] _. apply sorted_ascending.
Qed.

(** The counterexample to C5 as stated: two town centers idle at the same
    time put 1900 idle seconds in the Dark bucket of a 1000-second match. *)
Lemma two_town_centers_exceed_span :
  let r := fst (_collect_tc_idle 1000 Samples.no_clicks
                  Samples.two_tc_events Samples.two_tc_builds) in
  In ("Dark", Some 0, None) (age_bounds 1000 Samples.no_clicks)
  /\ get_or String.eqb (by_age r) "Dark" 0 = 1900
  /\ clipped_span 1000 (Some 0) None = 1000
  /\ ~ (get_or String.eqb (by_age r) "Dark" 0 <= clipped_span 1000 (Some 0) None).
Proof.
  cbv zeta. split; [left; reflexivity|].
  split; [reflexivity|]. split; [reflexivity|].
  vm_compute. intros H. apply H. reflexivity.
Qed.

(** C5 (amended): the idle seconds attributed to an age bucket never
    exceed the bucket's clipped wall-clock span multiplied by the number
    of timelines walked, which is the number of distinct tracked town
    center ids, or one for the aggregate timeline; with at most one
    tracked town center the bound is the span itself. *)
Theorem idle_per_age_bounded (duration : Z) (age_times : Age -> AgeTiming)
    (unit_events : list UnitEvent) (builds : list BuildEvent)
    (label : string) (start_age end_age : option Z) :
  In (label, start_age, end_age) (age_bounds duration age_times) ->
  get_or String.eqb
    (by_age (fst (_collect_tc_idle duration age_times unit_events builds))) label 0
  <= Z.of_nat (Nat.max 1 (List.length (tc_ids_of builds)))
     * clipped_span duration start_age end_age.
Proof.
  intros Hin.
  destruct (collect_tc_idle_walk duration age_times unit_events builds) as [_ ->].
  rewrite <- (timelines_count unit_events builds).
  pose proof (walk_held Hin (timelines_ascending unit_events builds) idle_start) as H.
  rewrite (held_start Hin) in H. exact H.
Qed.

Lemma idle_per_age_bounded_witness :
  get_or String.eqb
    (by_age (fst (_collect_tc_idle 900 (Samples.ages_of (Some 300) None None)
                    Samples.scenario_events Samples.scenario_builds))) "Dark" 0
  <= Z.of_nat (Nat.max 1 (List.length (tc_ids_of Samples.scenario_builds)))
     * clipped_span 900 (Some 0) (Some 300).
Proof.
  apply (@idle_per_age_bounded 900 (Samples.ages_of (Some 300) None None)
           Samples.scenario_events Samples.scenario_builds "Dark" (Some 0) (Some 300)).
  simpl. left. reflexivity.
Defined.

(** ** _detect_switches *)

Lemma find_first {A : Type} (f : A -> bool) (l : list A) (x : A) :
  find f l = Some x ->
  exists before after,
    l = before ++ x :: after
    /\ f x = true
    /\ Forall (fun y => f y = false) before.
Proof.
  induction l as [|y r IH]; simpl; [discriminate|].
  destruct (f y) eqn:E.
  - intros [= <-]. exists [], r. repeat split; [exact E | constructor].
  - intros H. destruct (IH H) as (before & after & -> & Hx & Hb).
    exists (y :: before), after. repeat split; [exact Hx | now constructor].
Qed.

Lemma qualifying_counter_first (counters : list string) (snapshot : Snapshot)
    (counter : string) :
  qualifying_counter counters snapshot = Some counter ->
  exists before after,
    counters = before ++ counter :: after
    /\ 3 <= get_or String.eqb (totals_by_line snapshot) counter 0
    /\ Forall (fun c => get_or String.eqb (totals_by_line snapshot) c 0 < 3) before.
Proof.
  intros H. apply find_first in H. destruct H as (before & after & -> & Hc & Hb).
  exists before, after. split; [reflexivity|]. split.
  - cbv beta in Hc. rewrite Z.geb_leb in Hc. now apply Z.leb_le.
  - eapply Forall_impl; [|exact Hb]. intros c Hlt.
    cbv beta in Hlt. rewrite Z.geb_leb in Hlt. now apply Z.leb_gt.
Qed.

Lemma find_response_some (event : SwitchEvent) (counters : list string)
    (you_snapshots : list Snapshot) (response : ResponseRecord) :
  find_response event counters you_snapshots = Some response ->
  exists before snapshot after,
    you_snapshots = before ++ snapshot :: after
    /\ Forall (passed_over event counters) before
    /\ se_time event <= time snapshot
    /\ qualifying_counter counters snapshot = Some (rr_your_line response)
    /\ rr_opponent_line response = se_opponent_line event
    /\ rr_response_time response = time snapshot
    /\ rr_delay response = time snapshot - se_time event.
Proof.
  induction you_snapshots as [|snapshot rest IH]; simpl; [discriminate|].
  destruct (Z.ltb_spec (time snapshot) (se_time event)) as [Hlt|Hge].
  - intros H. destruct (IH H) as (before & s & after & -> & Hb & Hrest).
    exists (snapshot :: before), s, after.
    split; [reflexivity|]. split; [|exact Hrest].
    constructor; [now left | exact Hb].
  - destruct (qualifying_counter counters snapshot) as [counter|] eqn:Q.
    + intros [= <-]. exists [], snapshot, rest. simpl.
      repeat split; [constructor | exact Hge | exact Q].
    + intros H. destruct (IH H) as (before & s & after & -> & Hb & Hrest).
      exists (snapshot :: before), s, after.
      split; [reflexivity|]. split; [|exact Hrest].
      constructor; [now right | exact Hb].
Qed.

Lemma find_response_none (event : SwitchEvent) (counters : list string)
    (you_snapshots : list Snapshot) :
  find_response event counters you_snapshots = None ->
  Forall (passed_over event counters) you_snapshots.
Proof.
  induction you_snapshots as [|snapshot rest IH]; simpl; [constructor|].
  destruct (Z.ltb_spec (time snapshot) (se_time event)) as [Hlt|Hge].
  - intros H. constructor; [now left | now apply IH].
  - destruct (qualifying_counter counters snapshot) as [counter|] eqn:Q;
      [discriminate|].
    intros H. constructor; [now right | now apply IH].
Qed.

Section SwitchFacts.
Variable COUNTER_MAP : dict string (list string).
Variable you_snapshots : list Snapshot.

(** What one event adds to the two output lists. *)
Local Abbreviation added event := (handle_event COUNTER_MAP you_snapshots ([], []) event).
Local Abbreviation counters_of event :=
  (get_or String.eqb COUNTER_MAP (se_opponent_line event) []).

Lemma handle_event_appends (out : list ResponseRecord * list MissedCounter)
    (event : SwitchEvent) :
  handle_event COUNTER_MAP you_snapshots out event
  = (fst out ++ fst (added event), snd out ++ snd (added event)).
Proof.
  destruct out as [responses missed]. unfold handle_event.
  destruct (find_response event _ you_snapshots); simpl;
    now rewrite ?app_nil_r.
Qed.

Lemma handle_events_fold (events : list SwitchEvent) :
  forall out,
    fold_left (handle_event COUNTER_MAP you_snapshots) events out
    = (fst out ++ flat_map (fun event => fst (added event)) events,
       snd out ++ flat_map (fun event => snd (added event)) events).
Proof.
  induction events as [|event r IH]; intros out; simpl.
  - rewrite !app_nil_r. now destruct out.
  - rewrite IH, handle_event_appends. simpl. now rewrite <- !app_assoc.
Qed.

Lemma added_one (event : SwitchEvent) :
  (exists response before snapshot after,
      added event = ([response], [])
      /\ you_snapshots = before ++ snapshot :: after
      /\ Forall (passed_over event (counters_of event)) before
      /\ se_time event <= time snapshot
      /\ qualifying_counter (counters_of event) snapshot
         = Some (rr_your_line response)
      /\ rr_opponent_line response = se_opponent_line event
      /\ rr_response_time response = time snapshot
      /\ rr_delay response = time snapshot - se_time event)
  \/ (exists missed,
         added event = ([], [missed])
         /\ Forall (passed_over event (counters_of event)) you_snapshots
         /\ mc_opponent_line missed = se_opponent_line event
         /\ mc_suggested_counters missed = counters_of event).
Proof.
  unfold handle_event.
  destruct (find_response event (counters_of event) you_snapshots)
    as [response|] eqn:E.
  - left. apply find_response_some in E.
    destruct E as (before & snapshot & after & E).
    eexists. exists before, snapshot, after. split; [reflexivity|]. exact E.
  - right. apply find_response_none in E.
    eexists. split; [reflexivity|]. split; [exact E|]. split; reflexivity.
Qed.
End SwitchFacts.

(** C6: every detected SwitchEvent adds exactly one entry to the output:
    either one ResponseRecord and no missed opportunity, or one missed
    opportunity and no ResponseRecord.  The response comes from the first
    of the viewer's snapshots, at or after the event, that holds three of
    some counter, with the first such counter in table order; the missed
    opportunity is recorded when no snapshot qualifies.  The two output
    lists are the entries so added, in event order, and together are as
    many as the events. *)
Theorem switch_event_one_outcome (COUNTER_MAP : dict string (list string))
    (opponent_snapshots you_snapshots : list Snapshot) :
  let result := _detect_switches COUNTER_MAP opponent_snapshots you_snapshots in
  let added event := handle_event COUNTER_MAP you_snapshots ([], []) event in
  let counters_of event :=
    get_or String.eqb COUNTER_MAP (se_opponent_line event) [] in
  (forall event,
      (exists response before snapshot after,
          added event = ([response], [])
          /\ you_snapshots = before ++ snapshot :: after
          /\ Forall (passed_over event (counters_of event)) before
          /\ se_time event <= time snapshot
          /\ qualifying_counter (counters_of event) snapshot
             = Some (rr_your_line response))
      \/ (exists missed,
             added event = ([], [missed])
             /\ Forall (passed_over event (counters_of event)) you_snapshots))
  /\ response_delay_vs_opponent result
     = flat_map (fun event => fst (added event)) (switch_events result)
  /\ missed_counter_opportunities result
     = flat_map (fun event => snd (added event)) (switch_events result)
  /\ (List.length (response_delay_vs_opponent result)
      + List.length (missed_counter_opportunities result)
      = List.length (switch_events result))%nat.
Proof.
  intros result added counters_of.
  assert (Hone : forall event,
             (exists response before snapshot after,
                 added event = ([response], [])
                 /\ you_snapshots = before ++ snapshot :: after
                 /\ Forall (passed_over event (counters_of event)) before
                 /\ se_time event <= time snapshot
                 /\ qualifying_counter (counters_of event) snapshot
                    = Some (rr_your_line response))
             \/ (exists missed,
                    added event = ([], [missed])
                    /\ Forall (passed_over event (counters_of event)) you_snapshots)).
  { intros event.
    destruct (added_one COUNTER_MAP you_snapshots event)
      as [(r & b & sn & a & H1 & H2 & H3 & H4 & H5 & _)|(m & H1 & H2 & _)].
    - left. exists r, b, sn, a. auto.
    - right. exists m. auto. }
  assert (Hr : response_delay_vs_opponent result
               = flat_map (fun event => fst (added event)) (switch_events result)
               /\ missed_counter_opportunities result
                  = flat_map (fun event => snd (added event)) (switch_events result)).
  { unfold result, _detect_switches.
    rewrite handle_events_fold. simpl. split; reflexivity. }
  destruct Hr as [Hr Hm].
  split; [exact Hone|]. split; [exact Hr|]. split; [exact Hm|].
  rewrite Hr, Hm. clear Hr Hm.
  induction (switch_events result) as [|event r IH]; simpl; [reflexivity|].
  rewrite !length_app.
  destruct (Hone event) as [(x & ? & ? & ? & -> & _)|(x & -> & _)]; simpl; lia.
Qed.

(** ** coerce_seconds *)

(** C8: [coerce_seconds] gives 5400 for "1:30:00", 754 for "12:34" and
    125 for 125, and raises the unsupported-format [ValueError] for
    "bogus". *)
Theorem coerce_seconds_scenario :
  TimeUtils.coerce_seconds (TimeUtils.VStr "1:30:00") = Return 5400
  /\ TimeUtils.coerce_seconds (TimeUtils.VStr "12:34") = Return 754
  /\ TimeUtils.coerce_seconds (TimeUtils.VInt 125) = Return 125
  /\ TimeUtils.coerce_seconds (TimeUtils.VStr "bogus")
     = Raise (ValueError "Unsupported time format").
Proof. repeat split; vm_compute; reflexivity. Qed.

(** ** find_player *)

Lemma player_eqb_spec (p q : Player) : reflect (p = q) (player_eqb p q).
Proof.
  unfold player_eqb. destruct p as [n c w], q as [n' c' w']; simpl.
  destruct (String.eqb_spec n n') as [->|Hn]; simpl;
    [|constructor; congruence].
  destruct (String.eqb_spec c c') as [->|Hc]; simpl;
    [|constructor; congruence].
  destruct (Bool.eqb_spec w w') as [->|Hw]; constructor; congruence.
Qed.

(** With another, different player in the list the opponent is found. *)
Lemma next_other_returns (player : Player) (players : list Player) :
  (exists q, In q players /\ q <> player) ->
  exists opponent,
    next_other player players = Return opponent
    /\ In opponent players /\ opponent <> player.
Proof.
  induction players as [|p r IH]; intros (q & Hq & Hne); simpl in *; [tauto|].
  destruct (player_eqb_spec p player) as [->|Hp]; simpl.
  - destruct Hq as [<-|Hq]; [congruence|].
    destruct IH as (o & Ho & Hin & Hd); eauto.
  - exists p. auto.
Qed.

(** Without one, the generator is exhausted. *)
Lemma next_other_stops (player : Player) (players : list Player) :
  (forall q, In q players -> q = player) ->
  next_other player players = Raise StopIteration.
Proof.
  induction players as [|p r IH]; intros H; simpl; [reflexivity|].
  destruct (player_eqb_spec p player) as [_|Hp]; simpl.
  - apply IH. intros q Hq. apply H. now right.
  - exfalso. apply Hp, H. now left.
Qed.

(** The selection on a list with two different players: the viewer is the
    first player with the requested name, else the player at the requested
    position, else the first player, and an opponent is always returned. *)
Lemma find_player_selects (players : list Player)
    (you_name : option string) (you_player : option Z) :
  (exists p q, In p players /\ In q players /\ p <> q) ->
  exists viewer opponent,
    find_player players you_name you_player = Return (viewer, opponent)
    /\ In viewer players /\ In opponent players
    /\ match named_player players you_name with
       | Some player => viewer = player /\ opponent <> viewer
       | None =>
           match positioned_player players you_player with
           | Some player => viewer = player /\ opponent <> viewer
           | None => Some viewer = nth_error players 0
                     /\ Some opponent = nth_error players 1
           end
       end.
Proof.
  intros (p & q & Hp & Hq & Hpq).
  assert (Hother : forall player, exists o, In o players /\ o <> player).
  { intros player. destruct (player_eqb_spec p player) as [->|Hne].
    - exists q. split; [exact Hq | congruence].
    - exists p. split; [exact Hp | exact Hne]. }
  unfold find_player.
  destruct (named_player players you_name) as [player|] eqn:En.
  - destruct (@next_other_returns player players (Hother player)) as (o & -> & Ho & Hd).
    exists player, o. simpl. repeat split; auto.
    unfold named_player in En. destruct you_name as [n|]; [|discriminate].
    destruct (n =? EmptyString)%string; [discriminate|].
    now apply find_some in En.
  - destruct (positioned_player players you_player) as [player|] eqn:Ep.
    + destruct (@next_other_returns player players (Hother player)) as (o & -> & Ho & Hd).
      exists player, o. simpl. repeat split; auto.
      unfold positioned_player in Ep. destruct you_player as [n|]; [|discriminate].
      destruct (n =? 0); [discriminate|].
      destruct (Z.max 0 (n - 1) <? Z.of_nat (List.length players)); [|discriminate].
      eapply nth_error_In; eassumption.
    + destruct players as [|p0 [|p1 r]].
      * destruct Hp.
      * exfalso. destruct Hp as [<-|[]], Hq as [<-|[]]. congruence.
      * exists p0, p1. simpl. repeat split; auto.
Qed.

(** C9 (failing input): with one player in the list, asking for that
    player by name or by position raises [StopIteration], where the
    default path returns the sole player as its own opponent. *)
Theorem find_player_sole_player :
  find_player [Samples.player "Solo"] (Some "solo") None = Raise StopIteration
  /\ find_player [Samples.player "Solo"] None (Some 1) = Raise StopIteration
  /\ find_player [Samples.player "Solo"] None None
     = Return (Samples.player "Solo", Samples.player "Solo").
Proof. repeat split. Qed.

(* ================================================================== *)
(** * Further properties of the core *)

(** ** _collect_unit_events, _collect_build_events *)

Lemma insert_by_filter {A : Type} (key : A -> Z) (t : Z) (x : A) (l : list A) :
  filter (fun y => key y =? t) (Py.insert_by key x l)
  = filter (fun y => key y =? t) (x :: l).
Proof.
  induction l as [|y r IH]; [reflexivity|].
  cbn [Py.insert_by]. destruct (Z.leb_spec (key x) (key y)) as [Hle|Hgt];
    [reflexivity|].
  cbn [filter] in *. rewrite IH.
  destruct (Z.eqb_spec (key x) t) as [Hx|Hx]; [|reflexivity].
  destruct (Z.eqb_spec (key y) t) as [Hy|Hy]; [lia | reflexivity].
Qed.

(** A stable sort: the elements of one key keep their input order. *)
Lemma sorted_by_stable {A : Type} (key : A -> Z) (t : Z) (l : list A) :
  filter (fun y => key y =? t) (Py.sorted_by key l)
  = filter (fun y => key y =? t) l.
Proof.
  induction l as [|x r IH]; [reflexivity|].
  cbn [Py.sorted_by]. rewrite insert_by_filter. cbn [filter]. now rewrite IH.
Qed.

Lemma sorted_by_In {A : Type} (key : A -> Z) (l : list A) (x : A) :
  In x (Py.sorted_by key l) <-> In x l.
Proof.
  split; apply Permutation_in; [|symmetry]; apply sorted_by_perm.
Qed.

Lemma unit_events_of_length (UNIT_LINE_MAP : dict string string)
    (actions : list Action) :
  List.length (unit_events_of UNIT_LINE_MAP actions)
  = List.length
      (filter (fun a => type_in a ["TRAIN"; "DE_QUEUE"; "CREATE"]
                        && match a_timestamp a with Some _ => true | None => false end)
              actions).
Proof.
  unfold unit_events_of. induction actions as [|a r IH]; [reflexivity|].
  cbn [flat_map filter]. rewrite length_app, IH. unfold _action_time.
  destruct (type_in a _); simpl; [|reflexivity].
  destruct (a_timestamp a); reflexivity.
Qed.

(** X1: the unit events of a player come out ascending by time, events of
    one time in the order of their actions; they are exactly the events of
    the TRAIN, DE_QUEUE and CREATE actions that carry a timestamp, the
    unit name being the payload's unit, else its name, and the line that
    of the unit table, [unknown] for a missing, empty or unlisted name. *)
Theorem collect_unit_events_sorted (UNIT_LINE_MAP : dict string string)
    (actions : list Action) :
  let events := _collect_unit_events UNIT_LINE_MAP actions in
  StronglySorted (fun a b => ue_time a <= ue_time b) events
  /\ (forall t, filter (fun e => ue_time e =? t) events
                = filter (fun e => ue_time e =? t) (unit_events_of UNIT_LINE_MAP actions))
  /\ (List.length events
      = List.length
          (filter (fun a => type_in a ["TRAIN"; "DE_QUEUE"; "CREATE"]
                            && match a_timestamp a with Some _ => true | None => false end)
                  actions))
  /\ (forall e, In e events <->
        exists action timestamp,
          In action actions
          /\ type_in action ["TRAIN"; "DE_QUEUE"; "CREATE"] = true
          /\ a_timestamp action = Some timestamp
          /\ e = {| ue_time := timestamp;
                    ue_unit := str_or (p_unit (a_payload action))
                                      (p_name (a_payload action));
                    ue_line := _unit_line UNIT_LINE_MAP
                                 (str_or (p_unit (a_payload action))
                                         (p_name (a_payload action)));
                    ue_object_ids := object_ids_of action |})
  /\ (forall e, In e events ->
        ue_line e = "unknown"
        \/ get String.eqb UNIT_LINE_MAP (unit_or_unknown e) = Some (ue_line e)).
Proof.
  intros events. unfold events, _collect_unit_events.
  assert (Hin : forall e,
             In e (unit_events_of UNIT_LINE_MAP actions) <->
             exists action timestamp,
               In action actions
               /\ type_in action ["TRAIN"; "DE_QUEUE"; "CREATE"] = true
               /\ a_timestamp action = Some timestamp
               /\ e = {| ue_time := timestamp;
                         ue_unit := str_or (p_unit (a_payload action))
                                           (p_name (a_payload action));
                         ue_line := _unit_line UNIT_LINE_MAP
                                      (str_or (p_unit (a_payload action))
                                              (p_name (a_payload action)));
                         ue_object_ids := object_ids_of action |}).
  { intros e. unfold unit_events_of. rewrite in_flat_map. split.
    - intros (action & Ha & He). exists action.
      destruct (type_in action _) eqn:Et; simpl in He; [|tauto].
      unfold _action_time in He.
      destruct (a_timestamp action) as [ts|] eqn:Ets; simpl in He; [|tauto].
      destruct He as [<-|[]]. exists ts. auto.
    - intros (action & ts & Ha & Et & Ets & ->). exists action.
      split; [exact Ha|]. unfold _action_time. rewrite Et, Ets. simpl. now left. }
  split; [apply (sorted_by_sorted ue_time)|].
  split; [intros t; apply sorted_by_stable|].
  split.
  - rewrite (Permutation_length (sorted_by_perm ue_time _)).
    apply unit_events_of_length.
  - split.
    + intros e. rewrite sorted_by_In. apply Hin.
    + intros e He. apply sorted_by_In, Hin in He.
      destruct He as (action & ts & _ & _ & _ & ->).
      unfold unit_or_unknown, _unit_line. simpl.
      destruct (str_or _ _) as [n|]; [|now left].
      destruct (is_empty n); [now left|].
      unfold get_or. destruct (get String.eqb UNIT_LINE_MAP n); [now right | now left].
Qed.

(** X2: the build events of a player come out ascending by time, events
    of one time in the order of their actions, and are exactly the events
    of the BUILD actions that carry a timestamp. *)
Theorem collect_build_events_sorted (actions : list Action) :
  let builds := _collect_build_events actions in
  StronglySorted (fun a b => be_time a <= be_time b) builds
  /\ (forall t, filter (fun b => be_time b =? t) builds
                = filter (fun b => be_time b =? t) (build_events_of actions))
  /\ (forall b, In b builds <->
        exists action timestamp,
          In action actions
          /\ a_type action = Some "BUILD"
          /\ a_timestamp action = Some timestamp
          /\ b = {| be_time := timestamp;
                    be_building := str_or (p_building (a_payload action))
                                          (p_name (a_payload action));
                    be_object_ids := object_ids_of action |}).
Proof.
  intros builds. unfold builds, _collect_build_events.
  split; [apply (sorted_by_sorted be_time)|].
  split; [intros t; apply sorted_by_stable|].
  intros b. rewrite sorted_by_In. unfold build_events_of. rewrite in_flat_map.
  assert (Hty : forall a, type_in a ["BUILD"] = true <-> a_type a = Some "BUILD").
  { intros a. unfold type_in, in_lines. destruct (a_type a) as [t|]; simpl.
    - rewrite orb_false_r. destruct (String.eqb_spec t "BUILD"); split; congruence.
    - split; discriminate. }
  split.
  - intros (action & Ha & Hb). exists action.
    destruct (type_in action _) eqn:Et; simpl in Hb; [|tauto].
    unfold _action_time in Hb.
    destruct (a_timestamp action) as [ts|] eqn:Ets; simpl in Hb; [|tauto].
    destruct Hb as [<-|[]]. exists ts. repeat split; auto. now apply Hty.
  - intros (action & ts & Ha & Et & Ets & ->). exists action.
    split; [exact Ha|]. apply Hty in Et. unfold _action_time. rewrite Et, Ets.
    simpl. now left.
Qed.

(** ** extract_timings *)

Lemma age_eqb_spec (a b : Age) : reflect (a = b) (age_eqb a b).
Proof. destruct a, b; constructor; congruence. Qed.

(** In [_derive_age_clicks] the last research action of an age wins. *)
Lemma derive_age_clicks_last (actions : list Action) (age : Age) :
  get age_eqb (_derive_age_clicks actions) age = last_click actions age.
Proof.
  unfold _derive_age_clicks, last_click.
  induction actions as [|action r IH] using rev_ind; [reflexivity|].
  rewrite fold_left_app, rev_app_distr. cbn [fold_left rev app find].
  unfold clicks_age at 1.
  destruct (age_click_of action) as [[a ts]|] eqn:E.
  - rewrite (@get_set_item _ _ _ age_eqb_spec).
    destruct (age_eqb a age); [now rewrite E | exact IH].
  - exact IH.
Qed.

Lemma find_rev_filter {A : Type} (f g : A -> bool) (l : list A) :
  find f (rev (filter g l)) = find (fun a => g a && f a) (rev l).
Proof.
  induction l as [|x r IH] using rev_ind; [reflexivity|].
  rewrite filter_app, !rev_app_distr. cbn [filter rev app find].
  destruct (g x); cbn [rev app find andb]; [|exact IH].
  destruct (f x); [reflexivity | exact IH].
Qed.

Lemma find_ext_in {A : Type} (f g : A -> bool) (l : list A) :
  (forall a, In a l -> f a = g a) -> find f l = find g l.
Proof.
  induction l as [|x r IH]; intros H; cbn [find]; [reflexivity|].
  rewrite (H x (or_introl eq_refl)), IH; [reflexivity|].
  intros a Ha. apply H. now right.
Qed.

(** The technology whose research starts an age. *)
Lemma tech_age_some (tech : option string) (age : Age) :
  match tech_age tech with Some a => age_eqb a age | None => false end
  = match tech with
    | Some text =>
        (text =? match age with
                 | Feudal => "Feudal Age"
                 | Castle => "Castle Age"
                 | Imperial => "Imperial Age"
                 end)%string
    | None => false
    end.
Proof.
  destruct tech as [text|]; [|reflexivity]. unfold tech_age.
  destruct (String.eqb_spec text "Feudal Age") as [->|H1];
    [now destruct age|].
  destruct (String.eqb_spec text "Castle Age") as [->|H2];
    [now destruct age|].
  destruct (String.eqb_spec text "Imperial Age") as [->|H3];
    [now destruct age|].
  destruct age; symmetry; now apply String.eqb_neq.
Qed.

Lemma researches_clicks (player : Z) (age : Age) (action : Action) :
  researches player
    match age with
    | Feudal => "Feudal Age"
    | Castle => "Castle Age"
    | Imperial => "Imperial Age"
    end action
  = match a_player action with
    | Some p => p =? player
    | None => false
    end && clicks_age age action.
Proof.
  unfold researches, clicks_age, age_click_of, type_in, _action_time, in_lines.
  destruct (a_player action) as [p|]; [|reflexivity].
  destruct (a_type action) as [type|]; [|now rewrite andb_false_r].
  cbn [existsb]. rewrite orb_false_r.
  destruct ((type =? "RESEARCH")%string || (type =? "DE_RESEARCH")%string);
    cbn [negb];
    [|destruct (a_timestamp action); now rewrite ?andb_false_r].
  pose proof (tech_age_some
                (str_or (p_tech (a_payload action)) (p_name (a_payload action)))
                age) as H.
  destruct (a_timestamp action) as [ts|].
  - rewrite andb_true_r. f_equal.
    transitivity
      (match tech_age (str_or (p_tech (a_payload action))
                              (p_name (a_payload action))) with
       | Some a => age_eqb a age
       | None => false
       end);
      [|now destruct (tech_age _)].
    rewrite H. unfold str_or.
    destruct (p_tech (a_payload action)) as [[|c r]|]; reflexivity.
  - destruct (tech_age _); now rewrite andb_false_r.
Qed.

Lemma clicks_age_timestamp (age : Age) (action : Action) :
  clicks_age age action = true ->
  option_map snd (age_click_of action) = a_timestamp action.
Proof.
  unfold clicks_age, age_click_of, _action_time.
  destruct (negb (type_in action ["RESEARCH"; "DE_RESEARCH"])); [discriminate|].
  destruct (tech_age _); [|discriminate].
  destruct (a_timestamp action); [reflexivity | discriminate].
Qed.

(** X3: the click time [extract_timings] gives a player for an age is the
    timestamp of the player's last research of that age's technology
    (a RESEARCH or DE_RESEARCH action with a timestamp, the technology
    being Feudal Age, Castle Age or Imperial Age), unless there is none
    or its timestamp is 0, in which case it is the uptime of the player's
    entry in the uptimes list (null when the list is absent or too
    short); the completion time is the click time plus 130 seconds for
    Feudal, 160 for Castle and 190 for Imperial, and null when the click
    time is. *)
Theorem extract_timings_click (actions : list Action)
    (uptimes : option (list Uptime)) (player_index : nat) (age : Age) :
  let entry := extract_timings actions uptimes player_index age in
  let technology :=
    match age with
    | Feudal => "Feudal Age"
    | Castle => "Castle Age"
    | Imperial => "Imperial Age"
    end in
  let research_seconds :=
    match age with Feudal => 130 | Castle => 160 | Imperial => 190 end in
  let uptime :=
    match uptimes with
    | Some players =>
        match nth_error players player_index with
        | Some up =>
            match age with
            | Feudal => up_feudal up
            | Castle => up_castle up
            | Imperial => up_imperial up
            end
        | None => None
        end
    | None => None
    end in
  click_time entry
  = match find (researches (Z.of_nat player_index) technology) (rev actions) with
    | Some action =>
        match a_timestamp action with
        | Some timestamp => if timestamp =? 0 then uptime else Some timestamp
        | None => uptime
        end
    | None => uptime
    end
  /\ completion_time entry
     = match click_time entry with
       | Some click => Some (click + research_seconds)
       | None => None
       end.
Proof.
  intros entry technology research_seconds uptime.
  assert (Hup : _extract_uptimes uptimes player_index age = uptime).
  { unfold _extract_uptimes, uptime. destruct uptimes as [players|].
    - destruct (Nat.ltb_spec player_index (List.length players)) as [Hlt|Hge].
      + destruct (nth_error players player_index); [now destruct age | reflexivity].
      + apply nth_error_None in Hge. now rewrite Hge.
    - destruct player_index; reflexivity. }
  unfold entry, extract_timings, _timing_entry.
  cbn [click_time completion_time]. rewrite derive_age_clicks_last, Hup.
  assert (Hclick :
            last_click (_player_actions actions (Z.of_nat player_index)) age
            = match find (researches (Z.of_nat player_index) technology)
                         (rev actions) with
              | Some action => a_timestamp action
              | None => None
              end).
  { unfold last_click, _player_actions. rewrite find_rev_filter.
    rewrite (@find_ext_in _ _ (researches (Z.of_nat player_index) technology));
      [|intros a _; symmetry; apply researches_clicks].
    destruct (find (researches (Z.of_nat player_index) technology) (rev actions))
      as [action|] eqn:Ef; [|reflexivity].
    apply find_some in Ef. destruct Ef as [_ Ef].
    unfold technology in Ef. rewrite researches_clicks in Ef.
    apply andb_true_iff in Ef. destruct Ef as [_ Ef].
    now apply clicks_age_timestamp with (age := age). }
  rewrite Hclick. split.
  - unfold int_or.
    destruct (find (researches (Z.of_nat player_index) technology) (rev actions))
      as [action|]; [|reflexivity].
    destruct (a_timestamp action) as [ts|]; reflexivity.
  - destruct (int_or _ uptime); [|reflexivity].
    unfold research_seconds. now destruct age.
Qed.

(** The sample researches: Feudal from the second click of player 0,
    Castle from the uptime since the click is at second 0, Imperial
    unknown. *)
Example test_extract_timings :
  let ages := extract_timings Samples.research_actions
                (Some Samples.research_uptimes) 0 in
  ages Feudal = {| click_time := Some 650; completion_time := Some 780 |}
  /\ ages Castle = {| click_time := Some 1200; completion_time := Some 1360 |}
  /\ ages Imperial = {| click_time := None; completion_time := None |}.
Proof. repeat split. Qed.

(** ** extract_first_units, extract_first_buildings *)

Section FirstWins.
Context {A : Type} (keyf : A -> option string) (val : A -> Z).
Variable step : dict string Z -> A -> dict string Z.

(** The loop body shared by the two functions: the first value of a key
    is kept. *)
Hypothesis step_keeps_first :
  forall firsts x,
    step firsts x
    = match keyf x with
      | Some key =>
          if negb (has_key String.eqb firsts key)
          then set_item String.eqb firsts key (val x)
          else firsts
      | None => firsts
      end.

Lemma keep_first_get (l : list A) :
  forall firsts key,
    get String.eqb (fold_left step l firsts) key
    = match get String.eqb firsts key with
      | Some v => Some v
      | None =>
          option_map val
            (find (fun x => match keyf x with
                            | Some k => (k =? key)%string
                            | None => false
                            end) l)
      end.
Proof.
  induction l as [|x r IH]; intros firsts key; cbn [fold_left find].
  - now destruct (get String.eqb firsts key).
  - rewrite IH, step_keeps_first. destruct (keyf x) as [k|]; [|reflexivity].
    unfold has_key. destruct (get String.eqb firsts k) as [v|] eqn:Ek; cbn [negb].
    + destruct (String.eqb_spec k key) as [->|Hne]; [now rewrite Ek | reflexivity].
    + rewrite (@get_set_item _ _ _ String.eqb_spec).
      destruct (String.eqb_spec k key) as [->|Hne]; [now rewrite Ek | reflexivity].
Qed.
End FirstWins.

Lemma get_map_values {V W : Type} (f : V -> W) (d : dict string V) (key : string) :
  get String.eqb (map (fun '(k, v) => (k, f v)) d) key
  = option_map f (get String.eqb d key).
Proof.
  induction d as [|[k v] r IH]; simpl; [reflexivity|].
  destruct (k =? key)%string; [reflexivity | exact IH].
Qed.

(** The time kept for a line is that of the first event of the line. *)
Lemma first_units_times (unit_events : list UnitEvent) (line : string) :
  get String.eqb (times (extract_first_units unit_events)) line
  = (if (line =? "unknown")%string then None
     else option_map ue_time
            (find (fun e => (ue_line e =? line)%string) unit_events)).
Proof.
  unfold extract_first_units, firsts_result. cbn [times].
  rewrite (@keep_first_get _
             (fun e => if (ue_line e =? "unknown")%string then None
                       else Some (ue_line e)) ue_time).
  - cbn [get].
    destruct (String.eqb_spec line "unknown") as [->|Hne].
    + induction unit_events as [|e r IH]; [reflexivity|]. cbn [find].
      destruct (String.eqb_spec (ue_line e) "unknown") as [He|He]; [exact IH|].
      destruct (String.eqb_spec (ue_line e) "unknown"); [contradiction | exact IH].
    + f_equal. induction unit_events as [|e r IH]; [reflexivity|]. cbn [find].
      destruct (String.eqb_spec (ue_line e) "unknown") as [He|He].
      * destruct (String.eqb_spec (ue_line e) line); [congruence | exact IH].
      * destruct (ue_line e =? line)%string; [reflexivity | exact IH].
  - intros d e.
    destruct (ue_line e =? "unknown")%string;
      [now rewrite andb_false_r | now rewrite andb_true_r].
Qed.

(** X4: [extract_first_units] records, for every line but [unknown], the
    time of the first event of that line in the list, and nothing for a
    line without event; [unknown] is never a key; the formatted times are
    those of the recorded times. *)
Theorem extract_first_units_first (unit_events : list UnitEvent) (line : string) :
  let firsts := extract_first_units unit_events in
  get String.eqb (times firsts) line
  = (if (line =? "unknown")%string then None
     else option_map ue_time
            (find (fun e => (ue_line e =? line)%string) unit_events))
  /\ get String.eqb (times_str firsts) line
     = option_map (fun t => format_seconds (Some t))
                  (get String.eqb (times firsts) line).
Proof.
  intros firsts. split; [apply first_units_times|].
  unfold firsts, extract_first_units, firsts_result.
  cbn [times times_str]. apply get_map_values.
Qed.

Lemma sorted_find_min {A : Type} (key : A -> Z) (f : A -> bool) (l : list A) (x : A) :
  StronglySorted (Py.key_le key) l ->
  find f l = Some x ->
  forall y, In y l -> f y = true -> key x <= key y.
Proof.
  induction 1 as [|z r Hs IH Hall]; simpl; [discriminate|].
  destruct (f z) eqn:Ez.
  - intros [= <-] y [<-|Hy] _; [lia|].
    rewrite Forall_forall in Hall. exact (Hall y Hy).
  - intros Hfind y [<-|Hy] Hfy; [congruence|]. now apply IH.
Qed.

(** X5: on the unit events [_collect_unit_events] gives, the time
    [extract_first_units] records for a line is the earliest time of an
    event of that line. *)
Theorem first_unit_is_earliest (UNIT_LINE_MAP : dict string string)
    (actions : list Action) (line : string) (t : Z) :
  let events := _collect_unit_events UNIT_LINE_MAP actions in
  get String.eqb (times (extract_first_units events)) line = Some t ->
  (exists e, In e events /\ ue_line e = line /\ ue_time e = t)
  /\ (forall e, In e events -> ue_line e = line -> t <= ue_time e).
Proof.
  intros events.
  rewrite first_units_times.
  destruct (line =? "unknown")%string; [discriminate|].
  destruct (find (fun e => (ue_line e =? line)%string) events) as [e0|] eqn:Ef;
    [|discriminate].
  intros [= <-]. split.
  - exists e0. apply find_some in Ef. destruct Ef as [Hin Hl].
    apply String.eqb_eq in Hl. auto.
  - intros e He Hl.
    eapply (@sorted_find_min _ ue_time); [apply sorted_by_sorted | exact Ef | exact He |].
    now apply String.eqb_eq.
Qed.

Lemma first_unit_is_earliest_witness :
  (exists e,
      In e (_collect_unit_events Samples.unit_line_map Samples.sample_actions)
      /\ ue_line e = "archer_line" /\ ue_time e = 20)
  /\ (forall e,
         In e (_collect_unit_events Samples.unit_line_map Samples.sample_actions) ->
         ue_line e = "archer_line" -> 20 <= ue_time e).
Proof.
  apply (@first_unit_is_earliest Samples.unit_line_map Samples.sample_actions
           "archer_line" 20).
  reflexivity.
Defined.

(** X6: [extract_first_buildings] records, for every key of the building
    table, the time of the first build in the list whose building maps to
    that key, and nothing for a key no build maps to; builds whose
    building is missing, unlisted or mapped to an empty key are skipped. *)
Theorem extract_first_buildings_first (BUILDING_KEYS : dict string string)
    (builds : list BuildEvent) (key : string) :
  let firsts := extract_first_buildings BUILDING_KEYS builds in
  get String.eqb (times firsts) key
  = option_map be_time
      (find (fun b => match building_key BUILDING_KEYS b with
                      | Some k => (k =? key)%string
                      | None => false
                      end) builds)
  /\ get String.eqb (times_str firsts) key
     = option_map (fun t => format_seconds (Some t))
                  (get String.eqb (times firsts) key)
  /\ get String.eqb (times firsts) EmptyString = None.
Proof.
  intros firsts. unfold firsts, extract_first_buildings, firsts_result.
  cbn [times times_str].
  assert (H : forall k,
             get String.eqb
               (fold_left
                  (fun firsts build =>
                     match building_key BUILDING_KEYS build with
                     | None => firsts
                     | Some key =>
                         if negb (has_key String.eqb firsts key)
                         then set_item String.eqb firsts key (be_time build)
                         else firsts
                     end) builds []) k
             = option_map be_time
                 (find (fun b => match building_key BUILDING_KEYS b with
                                 | Some k' => (k' =? k)%string
                                 | None => false
                                 end) builds)).
  { intros k.
    rewrite (@keep_first_get _ (building_key BUILDING_KEYS) be_time);
      [reflexivity|].
    intros d b. now destruct (building_key BUILDING_KEYS b). }
  split; [apply H|]. split; [apply get_map_values|].
  rewrite H. clear H firsts.
  induction builds as [|b r IH]; [reflexivity|]. cbn [find].
  destruct (building_key BUILDING_KEYS b) as [k|] eqn:Ek; [|exact IH].
  unfold building_key in Ek. destruct (be_building b); [|discriminate].
  destruct (get String.eqb BUILDING_KEYS s) as [k'|]; [|discriminate].
  destruct k'; simpl in Ek; [discriminate|]. injection Ek as <-. exact IH.
Qed.

(** ** aggregate_units *)

Lemma count_key_get (d : dict string Z) (k key : string) :
  get String.eqb (count_key d k) key
  = if (k =? key)%string then Some (get_or String.eqb d k 0 + 1)
    else get String.eqb d key.
Proof. unfold count_key. apply (@get_set_item _ _ _ String.eqb_spec). Qed.

Lemma count_fold_get {A : Type} (kf : A -> string) (l : list A) :
  forall d key,
    get String.eqb (fold_left (fun d x => count_key d (kf x)) l d) key
    = if count (fun x => (kf x =? key)%string) l =? 0
      then get String.eqb d key
      else Some (get_or String.eqb d key 0
                 + count (fun x => (kf x =? key)%string) l).
Proof.
  unfold count.
  induction l as [|x r IH]; intros d key; cbn [fold_left filter]; [reflexivity|].
  rewrite IH. unfold get_or at 1. rewrite !count_key_get.
  set (n := List.length (filter (fun x0 => (kf x0 =? key)%string) r)).
  destruct (String.eqb_spec (kf x) key) as [->|Hne]; [|reflexivity].
  cbn [List.length]. fold n.
  destruct (Z.eqb_spec (Z.of_nat (S n)) 0) as [E|_]; [lia|].
  destruct (Z.eqb_spec (Z.of_nat n) 0) as [E|E]; f_equal; lia.
Qed.

Lemma aggregate_units_split (unit_events : list UnitEvent) :
  forall by_type by_line,
    fold_left
      (fun '(by_type, by_line) event =>
         (count_key by_type (unit_or_unknown event),
          count_key by_line (ue_line event)))
      unit_events (by_type, by_line)
    = (fold_left (fun d e => count_key d (unit_or_unknown e)) unit_events by_type,
       fold_left (fun d e => count_key d (ue_line e)) unit_events by_line).
Proof.
  induction unit_events as [|e r IH]; intros by_type by_line; [reflexivity|].
  cbn [fold_left]. apply IH.
Qed.

(** X7: [aggregate_units] counts every event once under its line and once
    under its unit name ([unknown] for a missing or empty name): the count
    of a key is the number of events that carry it, and a key no event
    carries is absent. *)
Theorem aggregate_units_counts (unit_events : list UnitEvent) (key : string) :
  let by_type := fst (aggregate_units unit_events) in
  let by_line := snd (aggregate_units unit_events) in
  get_or String.eqb by_line key 0
  = count (fun e => (ue_line e =? key)%string) unit_events
  /\ get_or String.eqb by_type key 0
     = count (fun e => (unit_or_unknown e =? key)%string) unit_events
  /\ (get String.eqb by_line key = None
      <-> count (fun e => (ue_line e =? key)%string) unit_events = 0)
  /\ (get String.eqb by_type key = None
      <-> count (fun e => (unit_or_unknown e =? key)%string) unit_events = 0).
Proof.
  intros by_type by_line. unfold by_type, by_line, aggregate_units.
  rewrite aggregate_units_split. cbn [fst snd]. unfold get_or.
  rewrite !count_fold_get. cbn [get].
  destruct (Z.eqb_spec (count (fun e => (ue_line e =? key)%string) unit_events) 0)
    as [E1|E1];
    destruct (Z.eqb_spec (count (fun e => (unit_or_unknown e =? key)%string) unit_events) 0)
      as [E2|E2];
    repeat split; try lia; try tauto; try discriminate; intros; try lia; try easy.
Qed.

(** ** snapshot_composition: what a snapshot counts *)



Lemma count_fold_get_or {A : Type} (kf : A -> string) (l : list A)
    (d : dict string Z) (key : string) :
  get_or String.eqb (fold_left (fun d x => count_key d (kf x)) l d) key 0
  = get_or String.eqb d key 0 + count (fun x => (kf x =? key)%string) l.
Proof.
  unfold get_or at 1. rewrite count_fold_get.
  destruct (Z.eqb_spec (count (fun x => (kf x =? key)%string) l) 0) as [E|E];
    [|reflexivity].
  rewrite E. unfold get_or. destruct (get String.eqb d key); lia.
Qed.

Lemma aggregate_by_line_count (unit_events : list UnitEvent) (key : string) :
  get_or String.eqb (snd (aggregate_units unit_events)) key 0
  = count (fun e => (ue_line e =? key)%string) unit_events.
Proof.
  unfold aggregate_units. rewrite aggregate_units_split. cbn [snd].
  now rewrite count_fold_get_or.
Qed.

Lemma count_app {A : Type} (f : A -> bool) (l l' : list A) :
  count f (l ++ l') = count f l + count f l'.
Proof. unfold count. rewrite filter_app, length_app. lia. Qed.

Lemma count_perm {A : Type} (f : A -> bool) (l l' : list A) :
  Permutation l l' -> count f l = count f l'.
Proof.
  unfold count. induction 1 as [|x l l' _ IH|x y l|l l' l'' _ IH1 _ IH2];
    cbn [filter]; try reflexivity.
  - destruct (f x); cbn [List.length]; lia.
  - destruct (f x), (f y); reflexivity.
  - lia.
Qed.

Lemma count_ext_in {A : Type} (f g : A -> bool) (l : list A) :
  (forall x, In x l -> f x = g x) -> count f l = count g l.
Proof.
  unfold count. intros H. f_equal. f_equal. now apply filter_ext_in.
Qed.

Lemma count_none {A : Type} (f : A -> bool) (l : list A) :
  (forall x, In x l -> f x = false) -> count f l = 0.
Proof. unfold count. intros H. now rewrite (filter_none f l H). Qed.

(** What the inner [while] does: it counts a prefix of the events, all
    at or before the bucket, and stops at an event after the bucket. *)
Lemma advance_prefix (events : list UnitEvent) (bucket : Z) :
  forall totals,
    exists prefix,
      events = prefix ++ fst (advance events bucket totals)
      /\ Forall (fun e => ue_time e <= bucket) prefix
      /\ snd (advance events bucket totals)
         = fold_left (fun d e => count_key d (ue_line e)) prefix totals
      /\ match fst (advance events bucket totals) with
         | [] => True
         | e :: _ => bucket < ue_time e
         end.
Proof.
  induction events as [|e rest IH]; intros totals; cbn [advance].
  - exists []. repeat split. constructor.
  - destruct (Z.leb_spec (ue_time e) bucket) as [Hle|Hgt].
    + destruct (IH (set_item String.eqb totals (ue_line e)
                      (get_or String.eqb totals (ue_line e) 0 + 1)))
        as (prefix & Hsplit & Hall & Htot & Hhead).
      exists (e :: prefix). cbn [app fold_left].
      split; [now rewrite <- Hsplit|]. split; [now constructor|].
      split; [exact Htot | exact Hhead].
    + exists []. cbn [fst snd app fold_left]. repeat split; [constructor | exact Hgt].
Qed.

Section SnapshotCounts.
Variables GOLD TRASH : list string.
Variable events_sorted : list UnitEvent.
Hypothesis events_ascending : StronglySorted (Py.key_le ue_time) events_sorted.

Lemma later_events_after (consumed : list UnitEvent) (e : UnitEvent)
    (rest : list UnitEvent) (bound : Z) :
  events_sorted = consumed ++ e :: rest ->
  bound < ue_time e ->
  forall x, In x (e :: rest) -> bound < ue_time x.
Proof.
  intros Hsplit Hb x [<-|Hx]; [exact Hb|].
  pose proof events_ascending as Hs. rewrite Hsplit in Hs.
  clear Hsplit. induction consumed as [|c r IH]; cbn [app] in Hs.
  - inversion Hs as [|? ? _ Hall]; subst. rewrite Forall_forall in Hall.
    specialize (Hall x Hx). unfold Py.key_le in Hall. lia.
  - inversion Hs; subst. now apply IH.
Qed.

Lemma snapshot_loop_counts (buckets : list Z) :
  forall consumed remaining,
    events_sorted = consumed ++ remaining ->
    StronglySorted Z.lt buckets ->
    (forall b e, In b buckets -> In e consumed -> ue_time e <= b) ->
    forall s,
      In s (snapshot_loop GOLD TRASH buckets remaining
              (fold_left (fun d e => count_key d (ue_line e)) consumed [])) ->
      forall line,
        get_or String.eqb (totals_by_line s) line 0
        = count (fun e => (ue_line e =? line)%string && (ue_time e <=? time s))
                events_sorted.
Proof.
  induction buckets as [|b rest IH]; intros consumed remaining Hsplit Hb Hcons s;
    cbn [snapshot_loop]; [intros []|].
  destruct (advance_prefix remaining b
              (fold_left (fun d e => count_key d (ue_line e)) consumed []))
    as (prefix & Hrem & Hprefix & Htot & Hhead).
  destruct (advance remaining b _) as [remaining' totals'].
  cbn [fst snd] in *. rewrite <- fold_left_app in Htot. rewrite Htot. clear Htot.
  apply StronglySorted_inv in Hb. destruct Hb as [Hb' Hlt].
  assert (Hsplit' : events_sorted = (consumed ++ prefix) ++ remaining')
    by (rewrite Hsplit, Hrem; now rewrite app_assoc).
  intros [<-|Hin] line.
  - cbn [make_snapshot totals_by_line time].
    rewrite count_fold_get_or. cbn [get_or get]. rewrite Hsplit' at 1.
    rewrite (count_app _ (consumed ++ prefix) remaining'), (count_none _ remaining').
    + rewrite Z.add_0_l, Z.add_0_r. apply count_ext_in. intros e He.
      assert (ue_time e <= b).
      { apply in_app_or in He. destruct He as [He|He].
        - apply (Hcons b e); [now left | exact He].
        - rewrite Forall_forall in Hprefix. now apply Hprefix. }
      destruct (Z.leb_spec (ue_time e) b); [now rewrite andb_true_r | lia].
    + intros e He. destruct remaining' as [|e0 r0]; [destruct He|].
      assert (b < ue_time e).
      { eapply (@later_events_after (consumed ++ prefix) e0 r0 b);
          [exact Hsplit' | exact Hhead | exact He]. }
      destruct (Z.leb_spec (ue_time e) b); [lia | apply andb_false_r].
  - eapply (IH (consumed ++ prefix) remaining'); [exact Hsplit' | exact Hb' | | exact Hin].
    intros b' e Hb'in He. rewrite Forall_forall in Hlt. specialize (Hlt b' Hb'in).
    apply in_app_or in He. destruct He as [He|He].
    + apply (Hcons b' e); [now right | exact He].
    + rewrite Forall_forall in Hprefix. specialize (Hprefix e He). lia.
Qed.
End SnapshotCounts.

Lemma bucket_boundaries_strict (duration interval : Z) (age_times : Age -> AgeTiming)
    (buckets : list Z) :
  bucket_boundaries duration age_times interval = Return buckets ->
  StronglySorted Z.lt buckets.
Proof.
  unfold bucket_boundaries.
  destruct (Py.range 0 (Z.max duration 0 + interval) interval); simpl;
    [|discriminate].
  intros [= <-]. apply sorted_set_strict.
Qed.

Lemma snapshot_totals_count (GOLD TRASH : list string)
    (unit_events : list UnitEvent) (duration interval : Z)
    (age_times : Age -> AgeTiming) (snapshots : list Snapshot) (s : Snapshot) :
  snapshot_composition GOLD TRASH unit_events duration age_times interval
  = Return snapshots ->
  In s snapshots ->
  forall line,
    get_or String.eqb (totals_by_line s) line 0
    = count (fun e => (ue_line e =? line)%string && (ue_time e <=? time s))
            unit_events.
Proof.
  unfold snapshot_composition.
  destruct (bucket_boundaries duration age_times interval) as [buckets|e] eqn:Eb;
    simpl; [|discriminate].
  intros [= <-] Hin line.
  rewrite (count_perm _ (Permutation_sym (sorted_by_perm ue_time unit_events))).
  eapply (@snapshot_loop_counts GOLD TRASH (Py.sorted_by ue_time unit_events)
            (sorted_by_sorted ue_time unit_events) buckets []);
    [reflexivity | eapply bucket_boundaries_strict; eassumption
     | intros b e _ [] | exact Hin].
Qed.

(** X8: in every snapshot, the total of a line is the number of the
    player's unit events of that line whose time is at or before the
    snapshot's time, a line with no such event being absent; the villager
    proxy is that number for the villager line. *)
Theorem snapshot_counts_events (GOLD TRASH : list string)
    (unit_events : list UnitEvent) (duration interval : Z)
    (age_times : Age -> AgeTiming) (snapshots : list Snapshot) (s : Snapshot) :
  snapshot_composition GOLD TRASH unit_events duration age_times interval
  = Return snapshots ->
  In s snapshots ->
  (forall line,
      get_or String.eqb (totals_by_line s) line 0
      = count (fun e => (ue_line e =? line)%string && (ue_time e <=? time s))
              unit_events)
  /\ villagers_total_proxy s
     = count (fun e => (ue_line e =? "villager")%string && (ue_time e <=? time s))
             unit_events.
Proof.
  intros Hsnap Hin.
  pose proof (@snapshot_totals_count _ _ _ _ _ _ _ _ Hsnap Hin) as H.
  split; [exact H|].
  rewrite <- H. unfold snapshot_composition in Hsnap.
  destruct (bucket_boundaries duration age_times interval) as [buckets|e];
    simpl in Hsnap; [|discriminate].
  injection Hsnap as <-.
  apply snapshot_loop_In in Hin. destruct Hin as (b & totals & ->).
  reflexivity.
Qed.

Lemma snapshot_counts_events_witness :
  let s := make_snapshot Samples.gold_lines Samples.trash_lines 130
             [("villager", 1); ("archer_line", 1)] in
  (forall line,
      get_or String.eqb (totals_by_line s) line 0
      = count (fun e => (ue_line e =? line)%string && (ue_time e <=? time s))
              Samples.test_events)
  /\ villagers_total_proxy s
     = count (fun e => (ue_line e =? "villager")%string && (ue_time e <=? time s))
             Samples.test_events.
Proof.
  intros s.
  apply (@snapshot_counts_events Samples.gold_lines Samples.trash_lines
           Samples.test_events 300 300 Samples.test_ages
           [make_snapshot Samples.gold_lines Samples.trash_lines 0 [];
            s;
            make_snapshot Samples.gold_lines Samples.trash_lines 300
              [("villager", 1); ("archer_line", 2)]]).
  - reflexivity.
  - simpl. right. left. reflexivity.
Defined.

Lemma bucket_covers_duration (duration interval : Z) (age_times : Age -> AgeTiming)
    (buckets : list Z) :
  0 <= duration -> 0 < interval ->
  bucket_boundaries duration age_times interval = Return buckets ->
  exists b, In b buckets /\ duration <= b.
Proof.
  intros Hd Hi. unfold bucket_boundaries.
  destruct (Py.range 0 (Z.max duration 0 + interval) interval) as [l0|e] eqn:Hr;
    simpl; [|discriminate].
  intros [= <-].
  set (k := (duration + interval - 1) / interval).
  assert (Hk1 : k * interval <= duration + interval - 1)
    by (unfold k; rewrite Z.mul_comm; apply Z.mul_div_le; lia).
  assert (Hk2 : duration + interval - 1 < (k + 1) * interval).
  { unfold k. rewrite Z.mul_comm.
    pose proof (Z.mul_succ_div_gt (duration + interval - 1) interval Hi). lia. }
  assert (Hk0 : 0 <= k) by (unfold k; apply Z.div_pos; lia).
  exists (k * interval). split; [|lia].
  rewrite sorted_In, set_In, !add_click_In.
  left. left. left. apply (@range_In _ _ _ (k * interval) Hi Hr).
  exists k. rewrite Z.max_l by lia. repeat split; [exact Hk0 | lia].
Qed.

Lemma strict_last_max (l : list Z) (d : Z) :
  StronglySorted Z.lt l -> forall b, In b l -> b <= last l d.
Proof.
  induction 1 as [|x r Hs IH Hall]; [intros b []|].
  intros b [<-|Hb].
  - destruct r as [|y r']; [cbn; lia|].
    change (last (x :: y :: r') d) with (last (y :: r') d).
    rewrite Forall_forall in Hall.
    assert (x < y) by (apply Hall; now left).
    assert (y <= last (y :: r') d) by (apply IH; now left). lia.
  - destruct r as [|y r']; [destruct Hb|].
    change (last (x :: y :: r') d) with (last (y :: r') d). now apply IH.
Qed.

Lemma last_map_time (snapshots : list Snapshot) (d : Snapshot) :
  time (last snapshots d) = last (map time snapshots) (time d).
Proof.
  induction snapshots as [|s r IH]; [reflexivity|].
  destruct r as [|s' r']; [reflexivity|].
  change (time (last (s' :: r') d) = last (map time (s' :: r')) (time d)).
  exact IH.
Qed.

Lemma last_In {A : Type} (l : list A) (d : A) : l <> [] -> In (last l d) l.
Proof.
  induction l as [|x r IH]; [congruence|]. intros _.
  destruct r as [|y r']; [now left|].
  right. apply IH. discriminate.
Qed.

(** X9: when no unit event is later than the match duration, the last
    snapshot (whose time is at or after the duration) holds for every
    line the count [aggregate_units] gives: the snapshot timeline ends on
    the totals of the whole match. *)
Theorem last_snapshot_is_aggregate (GOLD TRASH : list string)
    (unit_events : list UnitEvent) (duration interval : Z)
    (age_times : Age -> AgeTiming) (snapshots : list Snapshot) (d : Snapshot) :
  0 <= duration -> 0 < interval ->
  (forall e, In e unit_events -> ue_time e <= duration) ->
  snapshot_composition GOLD TRASH unit_events duration age_times interval
  = Return snapshots ->
  snapshots <> []
  /\ duration <= time (last snapshots d)
  /\ (forall line,
        get_or String.eqb (totals_by_line (last snapshots d)) line 0
        = get_or String.eqb (snd (aggregate_units unit_events)) line 0).
Proof.
  intros Hd Hi Htimes Hsnap.
  pose proof Hsnap as Hsnap'. unfold snapshot_composition in Hsnap'.
  destruct (bucket_boundaries duration age_times interval) as [buckets|e] eqn:Eb;
    simpl in Hsnap'; [|discriminate].
  injection Hsnap' as Hsnap'.
  assert (Hmap : map time snapshots = buckets)
    by (rewrite <- Hsnap'; apply snapshot_loop_times).
  destruct (@bucket_covers_duration _ _ _ _ Hd Hi Eb) as (b & Hb & Hdb).
  assert (Hne : snapshots <> []).
  { intros ->. simpl in Hmap. subst buckets. destruct Hb. }
  assert (Hlast : duration <= time (last snapshots d)).
  { rewrite last_map_time, Hmap.
    pose proof (@strict_last_max buckets (time d)
                  (@bucket_boundaries_strict _ _ _ _ Eb) b Hb). lia. }
  split; [exact Hne|]. split; [exact Hlast|].
  intros line.
  rewrite (@snapshot_totals_count _ _ _ _ _ _ _ _ Hsnap (@last_In _ _ d Hne)), aggregate_by_line_count.
  apply count_ext_in. intros e He. specialize (Htimes e He).
  destruct (Z.leb_spec (ue_time e) (time (last snapshots d)));
    [apply andb_true_r | lia].
Qed.

Lemma last_snapshot_is_aggregate_witness :
  let d := make_snapshot Samples.gold_lines Samples.trash_lines 0 [] in
  let snapshots :=
    [ make_snapshot Samples.gold_lines Samples.trash_lines 0 [];
      make_snapshot Samples.gold_lines Samples.trash_lines 130
        [("villager", 1); ("archer_line", 1)];
      make_snapshot Samples.gold_lines Samples.trash_lines 300
        [("villager", 1); ("archer_line", 2)] ] in
  snapshots <> []
  /\ 300 <= time (last snapshots d)
  /\ (forall line,
        get_or String.eqb (totals_by_line (last snapshots d)) line 0
        = get_or String.eqb (snd (aggregate_units Samples.test_events)) line 0).
Proof.
  intros d snapshots.
  apply (@last_snapshot_is_aggregate Samples.gold_lines Samples.trash_lines
           Samples.test_events 300 300 Samples.test_ages snapshots d).
  - lia.
  - lia.
  - intros e [<-|[<-|[<-|[]]]]; simpl; lia.
  - reflexivity.
Defined.

(** ** _collect_farms *)

Lemma ascending_nth_le (l : list Z) :
  StronglySorted Z.le l ->
  forall i j a b,
    (i <= j)%nat -> nth_error l i = Some a -> nth_error l j = Some b -> a <= b.
Proof.
  induction 1 as [|x r Hs IH Hall]; intros i j a b Hij Hi Hj.
  - destruct i; discriminate.
  - destruct i as [|i], j as [|j]; simpl in Hi, Hj.
    + injection Hi as <-. injection Hj as <-. lia.
    + injection Hi as <-. rewrite Forall_forall in Hall.
      apply Hall. eapply nth_error_In; eassumption.
    + lia.
    + eapply (IH i j); [lia | eassumption | eassumption].
Qed.

Lemma milestone_none (farm_times : list Z) (k : nat) :
  (1 <= k)%nat ->
  milestone farm_times k = None <-> (List.length farm_times < k)%nat.
Proof.
  intros Hk. unfold milestone.
  destruct (Nat.leb_spec k (List.length farm_times)) as [Hle|Hgt].
  - rewrite nth_error_None. lia.
  - split; [lia | reflexivity].
Qed.

Lemma milestone_some (farm_times : list Z) (k : nat) (t : Z) :
  milestone farm_times k = Some t -> nth_error farm_times (k - 1) = Some t.
Proof.
  unfold milestone. destruct (k <=? List.length farm_times)%nat; [auto | discriminate].
Qed.

(** X10: [_collect_farms] counts the Farm builds; the first, fifth and
    tenth milestone is null exactly when there are fewer than 1, 5 and 10
    farms; the first milestone is the time of a Farm build and no Farm
    build is earlier; and the milestones are in order. *)
Theorem collect_farms_milestones (builds : list BuildEvent) :
  let farms := _collect_farms builds in
  let n := count is_farm builds in
  farms_total farms = n
  /\ (farm_first farms = None <-> n < 1)
  /\ (farm_five farms = None <-> n < 5)
  /\ (farm_ten farms = None <-> n < 10)
  /\ (forall t, farm_first farms = Some t ->
        (exists b, In b builds /\ is_farm b = true /\ be_time b = t)
        /\ (forall b, In b builds -> is_farm b = true -> t <= be_time b))
  /\ (forall t5 t10, farm_five farms = Some t5 -> farm_ten farms = Some t10 ->
        t5 <= t10)
  /\ (forall t1 t5, farm_first farms = Some t1 -> farm_five farms = Some t5 ->
        t1 <= t5).
Proof.
  intros farms n. unfold farms, n, _collect_farms, count.
  cbn [farms_total farm_first farm_five farm_ten].
  set (farm_times := Py.sorted (map be_time (filter is_farm builds))).
  assert (Hlen : List.length farm_times = List.length (filter is_farm builds)).
  { unfold farm_times, Py.sorted.
    now rewrite (Permutation_length (sorted_by_perm _ _)), length_map. }
  assert (Hs : StronglySorted Z.le farm_times) by apply sorted_ascending.
  assert (Hin : forall t, In t farm_times <->
                          exists b, In b builds /\ is_farm b = true /\ be_time b = t).
  { intros t. unfold farm_times. rewrite sorted_In, in_map_iff. split.
    - intros (b & <- & Hb). apply filter_In in Hb. exists b. tauto.
    - intros (b & Hb & Hf & <-). exists b. split; [reflexivity|].
      apply filter_In. tauto. }
  split; [now rewrite Hlen|].
  split; [rewrite milestone_none, Hlen by lia; lia|].
  split; [rewrite milestone_none, Hlen by lia; lia|].
  split; [rewrite milestone_none, Hlen by lia; lia|].
  split; [|split].
  - intros t Ht. apply milestone_some in Ht.
    change (1 - 1)%nat with 0%nat in Ht. split.
    + apply (proj1 (Hin t)). eapply nth_error_In; eassumption.
    + intros b Hb Hf.
      assert (Hbt : In (be_time b) farm_times).
      { apply (proj2 (Hin (be_time b))). exists b; auto. }
      apply In_nth_error in Hbt. destruct Hbt as [j Hj].
      eapply (@ascending_nth_le farm_times Hs 0 j); [lia | exact Ht | exact Hj].
  - intros t5 t10 H5 H10. apply milestone_some in H5, H10.
    eapply (@ascending_nth_le farm_times Hs 4 9); [lia | exact H5 | exact H10].
  - intros t1 t5 H1 H5. apply milestone_some in H1, H5.
    eapply (@ascending_nth_le farm_times Hs 0 4); [lia | exact H1 | exact H5].
Qed.

(** ** _collect_market_actions *)

Lemma market_fold (actions : list Action) :
  forall first_buy first_sell buy_count sell_count,
    fold_left market_step actions (first_buy, first_sell, buy_count, sell_count)
    = (match first_buy with
       | Some t => Some t
       | None =>
           match find (fun a => type_in a ["BUY"; "DE_BUY"]
                                && match a_timestamp a with
                                   | Some _ => true | None => false end) actions with
           | Some a => a_timestamp a
           | None => None
           end
       end,
       match first_sell with
       | Some t => Some t
       | None =>
           match find (fun a => type_in a ["SELL"; "DE_SELL"]
                                && match a_timestamp a with
                                   | Some _ => true | None => false end) actions with
           | Some a => a_timestamp a
           | None => None
           end
       end,
       buy_count + count (fun a => type_in a ["BUY"; "DE_BUY"]) actions,
       sell_count + count (fun a => type_in a ["SELL"; "DE_SELL"]) actions).
Proof.
  unfold count.
  induction actions as [|a r IH]; intros fb fs bc sc; cbn [fold_left find filter].
  - rewrite !Z.add_0_r. now destruct fb, fs.
  - unfold market_step at 2. unfold _action_time.
    destruct (type_in a ["BUY"; "DE_BUY"]) eqn:Eb;
      destruct (type_in a ["SELL"; "DE_SELL"]) eqn:Es;
      destruct (a_timestamp a) as [ts|] eqn:Et;
      destruct fb as [fb|], fs as [fs|];
      rewrite IH; cbn [andb List.length]; rewrite ?Et;
      repeat match goal with |- (_, _) = (_, _) => f_equal end;
      solve [reflexivity | lia].
Qed.

(** X11: [_collect_market_actions] counts the BUY/DE_BUY and the
    SELL/DE_SELL actions, with or without timestamp, and gives as first
    buy (first sell) the timestamp of the first such action that carries
    one, null when there is none. *)
Theorem collect_market_actions_counts (actions : list Action) :
  let market := _collect_market_actions actions in
  buy_count market = count (fun a => type_in a ["BUY"; "DE_BUY"]) actions
  /\ sell_count market = count (fun a => type_in a ["SELL"; "DE_SELL"]) actions
  /\ first_buy market
     = match find (fun a => type_in a ["BUY"; "DE_BUY"]
                            && match a_timestamp a with
                               | Some _ => true | None => false end) actions with
       | Some a => a_timestamp a
       | None => None
       end
  /\ first_sell market
     = match find (fun a => type_in a ["SELL"; "DE_SELL"]
                            && match a_timestamp a with
                               | Some _ => true | None => false end) actions with
       | Some a => a_timestamp a
       | None => None
       end
  /\ first_buy_str market = format_seconds (first_buy market)
  /\ first_sell_str market = format_seconds (first_sell market).
Proof.
  intros market. unfold market, _collect_market_actions.
  rewrite market_fold. cbn. repeat split.
Qed.

(** ** _collect_production_idle_flags *)

Lemma setdefault_append_get (d : dict Z (list Z)) (obj_id obj t : Z) :
  get_or Z.eqb (setdefault_append d obj_id t) obj []
  = if obj_id =? obj then get_or Z.eqb d obj_id [] ++ [t] else get_or Z.eqb d obj [].
Proof. unfold setdefault_append. apply (@get_or_set_item _ _ _ Z.eqb_spec). Qed.

Lemma record_ids_In (ids : list Z) (time obj t : Z) :
  forall d,
    In t (get_or Z.eqb
            (fold_left (fun by_id obj_id => setdefault_append by_id obj_id time) ids d)
            obj [])
    <-> In t (get_or Z.eqb d obj []) \/ (In obj ids /\ t = time).
Proof.
  induction ids as [|i r IH]; intros d; cbn [fold_left In]; [tauto|].
  rewrite IH, setdefault_append_get.
  destruct (Z.eqb_spec i obj) as [->|Hne].
  - rewrite in_app_iff. cbn [In]. intuition congruence.
  - intuition congruence.
Qed.

Lemma events_by_id_In (unit_events : list UnitEvent) (obj t : Z) :
  forall d,
    In t (get_or Z.eqb
            (fold_left
               (fun by_id event =>
                  fold_left
                    (fun by_id obj_id => setdefault_append by_id obj_id (ue_time event))
                    (ue_object_ids event) by_id)
               unit_events d) obj [])
    <-> In t (get_or Z.eqb d obj []) \/ produced_by obj unit_events t.
Proof.
  unfold produced_by.
  induction unit_events as [|e r IH]; intros d; cbn [fold_left In].
  - split; [tauto | intros [H|(e & [] & _)]; exact H].
  - rewrite IH, record_ids_In. split.
    + intros [[H|[Ho ->]]|(e' & He' & Ho & Ht)]; [tauto | |].
      * right. exists e. auto.
      * right. exists e'. auto.
    + intros [H|(e' & [<-|He'] & Ho & Ht)]; [tauto | |].
      * left. right. auto.
      * right. exists e'. auto.
Qed.

Section FlagFacts.
Variable PRODUCTION_BUILDINGS : list string.
Variables (duration idle_threshold : Z).

Lemma production_flags_between (building : string) (obj_id : Z) (times : list Z) :
  forall last_time,
    (forall f,
        In f (fst (production_flags idle_threshold building obj_id times last_time)) ->
        flag_between idle_threshold building obj_id last_time times times f)
    /\ (snd (production_flags idle_threshold building obj_id times last_time)
        = last_time
        \/ In (snd (production_flags idle_threshold building obj_id times last_time))
              times).
Proof.
  induction times as [|t r IH]; intros last_time; cbn [production_flags].
  - split; [intros f [] | now left].
  - destruct (IH t) as [Hflags Hfinal].
    destruct (production_flags idle_threshold building obj_id r t) as [flags final].
    cbn [fst snd] in *. split.
    + intros f Hf. apply in_app_or in Hf. destruct Hf as [Hf|Hf].
      * destruct (Z.gtb_spec (t - last_time) idle_threshold) as [Hgt|_];
          [|destruct Hf].
        destruct Hf as [<-|[]]. unfold flag_between, make_flag. cbn.
        repeat split; auto; try lia; try (left; lia).
      * destruct (Hflags f Hf) as (H1 & H2 & H3 & H4 & H5 & H6 & H7).
        unfold flag_between. repeat split; auto.
        -- right. destruct H4 as [->|H4]; [now left | now right].
        -- now right.
    + right. destruct Hfinal as [->|H]; [now left | now right].
Qed.

Lemma object_flags_between (events_by_id : dict Z (list Z)) (building : string)
    (build_time obj_id : Z) (f : IdleFlag) :
  In f (object_flags duration idle_threshold events_by_id building build_time obj_id) ->
  flag_between idle_threshold building obj_id build_time
    (get_or Z.eqb events_by_id obj_id [])
    (duration :: get_or Z.eqb events_by_id obj_id []) f.
Proof.
  unfold object_flags.
  set (times := Py.sorted (get_or Z.eqb events_by_id obj_id [])).
  destruct (production_flags_between building obj_id times build_time)
    as [Hflags Hfinal].
  destruct (production_flags idle_threshold building obj_id times build_time)
    as [flags final].
  cbn [fst snd] in *. intros Hf. apply in_app_or in Hf.
  assert (Htimes : forall t, In t times -> In t (get_or Z.eqb events_by_id obj_id []))
    by (intros t; apply sorted_In).
  destruct Hf as [Hf|Hf].
  - destruct (Hflags f Hf) as (H1 & H2 & H3 & H4 & H5 & H6 & H7).
    unfold flag_between. repeat split; auto.
    + destruct H4 as [H4|H4]; [now left | right; now apply Htimes].
    + right. now apply Htimes.
  - destruct (Z.gtb_spec (duration - final) idle_threshold) as [Hgt|_]; [|destruct Hf].
    destruct Hf as [<-|[]]. unfold flag_between, make_flag.
    cbn [if_duration if_building if_object_id if_start if_start_str if_duration_str].
    split; [lia|]. split; [reflexivity|]. split; [reflexivity|].
    split; [|split; [|split; reflexivity]].
    + destruct Hfinal as [->|H]; [now left | right; now apply Htimes].
    + left. lia.
Qed.

Lemma build_fold (events_by_id : dict Z (list Z)) (builds : list BuildEvent) :
  forall flags missing_ids,
    (forall f,
        In f (fst (fold_left (build_step PRODUCTION_BUILDINGS duration idle_threshold
                                events_by_id) builds (flags, missing_ids))) ->
        In f flags
        \/ exists build building obj_id,
             In build builds
             /\ production_building PRODUCTION_BUILDINGS build = Some building
             /\ In obj_id (be_object_ids build)
             /\ In f (object_flags duration idle_threshold events_by_id building
                        (be_time build) obj_id))
    /\ snd (fold_left (build_step PRODUCTION_BUILDINGS duration idle_threshold
                         events_by_id) builds (flags, missing_ids))
       = missing_ids
         || existsb (fun build =>
                       match production_building PRODUCTION_BUILDINGS build with
                       | Some _ => match be_object_ids build with
                                   | [] => true
                                   | _ => false
                                   end
                       | None => false
                       end) builds.
Proof.
  induction builds as [|b r IH]; intros flags missing_ids; cbn [fold_left existsb].
  - split; [auto | now rewrite orb_false_r].
  - unfold build_step at 2 4.
    destruct (production_building PRODUCTION_BUILDINGS b) as [building|] eqn:Epb.
    + destruct (be_object_ids b) as [|i ids] eqn:Eids.
      * destruct (IH flags true) as [Hf Hm]. split.
        -- intros f Hin. destruct (Hf f Hin) as [H|(b' & bd & o & Hb' & H)];
             [now left|]. right. exists b', bd, o. split; [now right | exact H].
        -- rewrite Hm. cbn. now rewrite orb_true_r.
      * destruct (IH (flags ++ flat_map (object_flags duration idle_threshold
                                          events_by_id building (be_time b)) (i :: ids))
                     missing_ids) as [Hf Hm].
        split.
        -- intros f Hin. destruct (Hf f Hin) as [H|(b' & bd & o & Hb' & H)].
           ++ apply in_app_or in H. destruct H as [H|H]; [now left|].
              right. apply in_flat_map in H. destruct H as (o & Ho & Hfo).
              exists b, building, o. split; [now left|]. split; [exact Epb|].
              split; [rewrite Eids; exact Ho | exact Hfo].
           ++ right. exists b', bd, o. split; [now right | exact H].
        -- rewrite Hm. reflexivity.
    + destruct (IH flags missing_ids) as [Hf Hm]. split.
      * intros f Hin. destruct (Hf f Hin) as [H|(b' & bd & o & Hb' & H)];
          [now left|]. right. exists b', bd, o. split; [now right | exact H].
      * rewrite Hm. reflexivity.
Qed.
End FlagFacts.

(** X12: every production idle flag is longer than the threshold, names
    a production building of the build list and one of that build's
    object ids, starts at the build's time or at a production of that
    object, ends at a production of that object or at the end of the
    match, and carries the formatted start and duration. *)
Theorem production_idle_flags_sound (PRODUCTION_BUILDINGS : list string)
    (duration idle_threshold : Z) (unit_events : list UnitEvent)
    (builds : list BuildEvent) (f : IdleFlag) :
  In f (fst (_collect_production_idle_flags PRODUCTION_BUILDINGS duration
               idle_threshold unit_events builds)) ->
  idle_threshold < if_duration f
  /\ (exists build,
         In build builds
         /\ production_building PRODUCTION_BUILDINGS build = Some (if_building f)
         /\ In (if_object_id f) (be_object_ids build)
         /\ (if_start f = be_time build
             \/ produced_by (if_object_id f) unit_events (if_start f)))
  /\ (if_start f + if_duration f = duration
      \/ produced_by (if_object_id f) unit_events (if_start f + if_duration f))
  /\ if_start_str f = format_seconds (Some (if_start f))
  /\ if_duration_str f = format_seconds (Some (if_duration f)).
Proof.
  unfold _collect_production_idle_flags. intros Hin.
  destruct (build_fold PRODUCTION_BUILDINGS duration idle_threshold
              (events_by_id_of unit_events) builds [] false) as [Hf _].
  destruct (Hf f Hin) as [[]|(build & building & obj & Hb & Hpb & Hobj & Hflag)].
  apply object_flags_between in Hflag.
  destruct Hflag as (H1 & H2 & H3 & H4 & H5 & H6 & H7).
  assert (Hprod : forall t,
             In t (get_or Z.eqb (events_by_id_of unit_events) obj []) ->
             produced_by obj unit_events t).
  { intros t Ht. unfold events_by_id_of in Ht. apply events_by_id_In in Ht.
    destruct Ht as [[]|Ht]. exact Ht. }
  split; [exact H1|]. split; [|split; [|split; assumption]].
  - exists build. rewrite H2, H3. repeat split; auto.
    destruct H4 as [H4|H4]; [now left | right; now apply Hprod].
  - rewrite H3. destruct H5 as [H5|H5]; [left; congruence | right; now apply Hprod].
Qed.

(** X13: the missing-ids flag of [_collect_production_idle_flags] is
    raised exactly when some build of a production building carries no
    object id (such a build gives no flag); without any build of a
    production building there is no flag at all. *)
Theorem production_idle_missing_ids (PRODUCTION_BUILDINGS : list string)
    (duration idle_threshold : Z) (unit_events : list UnitEvent)
    (builds : list BuildEvent) :
  let result := _collect_production_idle_flags PRODUCTION_BUILDINGS duration
                  idle_threshold unit_events builds in
  (snd result = true
   <-> exists build,
         In build builds
         /\ (exists building,
                production_building PRODUCTION_BUILDINGS build = Some building)
         /\ be_object_ids build = [])
  /\ ((forall build, In build builds ->
         production_building PRODUCTION_BUILDINGS build = None) ->
      fst result = []).
Proof.
  intros result. unfold result, _collect_production_idle_flags.
  destruct (build_fold PRODUCTION_BUILDINGS duration idle_threshold
              (events_by_id_of unit_events) builds [] false) as [Hf Hm].
  split.
  - rewrite Hm. cbn [orb]. rewrite existsb_exists. split.
    + intros (b & Hb & H). exists b. split; [exact Hb|].
      destruct (production_building PRODUCTION_BUILDINGS b) as [bd|]; [|discriminate].
      destruct (be_object_ids b); [|discriminate]. split; [eauto | reflexivity].
    + intros (b & Hb & (bd & Hbd) & Hids). exists b. split; [exact Hb|].
      now rewrite Hbd, Hids.
  - intros Hnone.
    destruct (fst (fold_left _ builds ([], false))) as [|f r] eqn:E; [reflexivity|].
    destruct (Hf f) as [[]|(b & bd & o & Hb & Hpb & _)]; [now left|].
    rewrite (Hnone b Hb) in Hpb. discriminate.
Qed.

Lemma production_idle_flags_sound_witness :
  let f := make_flag "Barracks" 5 130 770 in
  60 < if_duration f
  /\ (exists build,
         In build Samples.barracks_builds
         /\ production_building ["Barracks"; "Stable"] build = Some (if_building f)
         /\ In (if_object_id f) (be_object_ids build)
         /\ (if_start f = be_time build
             \/ produced_by (if_object_id f) Samples.barracks_events (if_start f)))
  /\ (if_start f + if_duration f = 900
      \/ produced_by (if_object_id f) Samples.barracks_events
           (if_start f + if_duration f))
  /\ if_start_str f = format_seconds (Some (if_start f))
  /\ if_duration_str f = format_seconds (Some (if_duration f)).
Proof.
  intros f.
  apply (@production_idle_flags_sound ["Barracks"; "Stable"] 900 60
           Samples.barracks_events Samples.barracks_builds f).
  simpl. left. reflexivity.
Defined.

(** ** _detect_switches: what is reported *)

Lemma detect_switches_events (COUNTER_MAP : dict string (list string))
    (opponent_snapshots you_snapshots : list Snapshot) :
  switch_events (_detect_switches COUNTER_MAP opponent_snapshots you_snapshots)
  = detect_events opponent_snapshots.
Proof.
  unfold _detect_switches.
  destruct (fold_left _ (detect_events opponent_snapshots) ([], [])). reflexivity.
Qed.

Lemma combine_tl_consecutive {A : Type} (l : list A) (a b : A) :
  In (a, b) (combine l (tl l)) ->
  exists n, nth_error l n = Some a /\ nth_error l (S n) = Some b.
Proof.
  induction l as [|x r IH]; [intros []|].
  destruct r as [|y r']; [intros []|].
  cbn [tl combine]. intros [[= <- <-]|H].
  - exists 0%nat. split; reflexivity.
  - destruct (IH H) as (n & Ha & Hb). exists (S n). split; assumption.
Qed.

(** X14: every reported switch event comes from two consecutive opponent
    snapshots: it carries the time of the later one, names one of its
    lines other than villager, fishing_ship, trade and unknown, its delta
    is that line's increase between the two snapshots and is at least 5,
    the earlier count was at most 2, and its confidence is low. *)
Theorem switch_events_threshold (COUNTER_MAP : dict string (list string))
    (opponent_snapshots you_snapshots : list Snapshot) (event : SwitchEvent) :
  In event (switch_events
              (_detect_switches COUNTER_MAP opponent_snapshots you_snapshots)) ->
  exists n prev curr count,
    nth_error opponent_snapshots n = Some prev
    /\ nth_error opponent_snapshots (S n) = Some curr
    /\ In (se_opponent_line event, count) (totals_by_line curr)
    /\ se_time event = time curr
    /\ se_time_str event = time_str curr
    /\ se_delta event
       = count - get_or String.eqb (totals_by_line prev) (se_opponent_line event) 0
    /\ 5 <= se_delta event
    /\ get_or String.eqb (totals_by_line prev) (se_opponent_line event) 0 <= 2
    /\ in_lines (se_opponent_line event)
         ["villager"; "fishing_ship"; "trade"; "unknown"] = false
    /\ se_confidence event = "low".
Proof.
  rewrite detect_switches_events. unfold detect_events.
  rewrite in_flat_map. intros ([prev curr] & Hpair & Hev).
  apply combine_tl_consecutive in Hpair. destruct Hpair as (n & Hp & Hc).
  unfold switches_between in Hev. apply in_flat_map in Hev.
  destruct Hev as ([line cnt] & Hline & Hev).
  destruct (in_lines line _) eqn:Ex; [destruct Hev|].
  destruct (Z.geb_spec (cnt - get_or String.eqb (totals_by_line prev) line 0) 5)
    as [Hge|_]; [|destruct Hev].
  destruct (Z.leb_spec (get_or String.eqb (totals_by_line prev) line 0) 2)
    as [Hle|_]; [|destruct Hev].
  destruct Hev as [<-|[]]. exists n, prev, curr, cnt. cbn.
  repeat split; auto; lia.
Qed.

Lemma switch_events_threshold_witness :
  let event := {| se_time := 420; se_time_str := Some "7:00";
                  se_opponent_line := "knight_line"; se_delta := 6;
                  se_confidence := "low" |} in
  exists n prev curr count,
    nth_error Samples.opponent_snapshots n = Some prev
    /\ nth_error Samples.opponent_snapshots (S n) = Some curr
    /\ In (se_opponent_line event, count) (totals_by_line curr)
    /\ se_time event = time curr
    /\ se_time_str event = time_str curr
    /\ se_delta event
       = count - get_or String.eqb (totals_by_line prev) (se_opponent_line event) 0
    /\ 5 <= se_delta event
    /\ get_or String.eqb (totals_by_line prev) (se_opponent_line event) 0 <= 2
    /\ in_lines (se_opponent_line event)
         ["villager"; "fishing_ship"; "trade"; "unknown"] = false
    /\ se_confidence event = "low".
Proof.
  intros event.
  apply (@switch_events_threshold Samples.counter_map Samples.opponent_snapshots
           Samples.viewer_snapshots event).
  simpl. left. reflexivity.
Defined.

(** X15: every reported response answers a reported switch event with a
    line of the counter table of the event's line; it carries the time of
    a viewer snapshot, at or after the event, that holds at least three of
    that line; its delay is the difference of the two times and is never
    negative; and it carries the formatted delay and a low confidence. *)
Theorem responses_sound (COUNTER_MAP : dict string (list string))
    (opponent_snapshots you_snapshots : list Snapshot) (r : ResponseRecord) :
  let result := _detect_switches COUNTER_MAP opponent_snapshots you_snapshots in
  In r (response_delay_vs_opponent result) ->
  exists event snapshot,
    In event (switch_events result)
    /\ In snapshot you_snapshots
    /\ rr_opponent_line r = se_opponent_line event
    /\ In (rr_your_line r)
          (get_or String.eqb COUNTER_MAP (se_opponent_line event) [])
    /\ 3 <= get_or String.eqb (totals_by_line snapshot) (rr_your_line r) 0
    /\ rr_response_time r = time snapshot
    /\ rr_delay r = time snapshot - se_time event
    /\ 0 <= rr_delay r
    /\ rr_delay_str r = format_seconds (Some (rr_delay r))
    /\ rr_confidence r = Some "low".
Proof.
  intros result. unfold result. rewrite detect_switches_events.
  unfold _detect_switches. rewrite handle_events_fold. cbn [fst snd app].
  cbn [response_delay_vs_opponent]. rewrite in_flat_map.
  intros (event & Hev & Hr). exists event.
  unfold handle_event in Hr.
  destruct (find_response event _ you_snapshots) as [response|] eqn:E;
    cbn [fst] in Hr; [|destruct Hr].
  destruct Hr as [<-|[]].
  apply find_response_some in E.
  destruct E as (before & snapshot & after & Hsplit & _ & Hge & Hq & Hl & Ht & Hd).
  exists snapshot. cbn.
  apply qualifying_counter_first in Hq.
  destruct Hq as (cb & ca & Hc & H3 & _).
  repeat split; auto.
  - rewrite Hsplit. apply in_or_app. right. now left.
  - rewrite Hc. apply in_or_app. right. now left.
  - lia.
Qed.

Lemma responses_sound_witness :
  let r := {| rr_opponent_line := "knight_line"; rr_your_line := "pikeman_line";
              rr_response_time := 480; rr_response_time_str := Some "8:00";
              rr_delay := 60; rr_delay_str := Some "1:00";
              rr_confidence := Some "low" |} in
  let result := _detect_switches Samples.counter_map Samples.opponent_snapshots
                  Samples.viewer_snapshots in
  exists event snapshot,
    In event (switch_events result)
    /\ In snapshot Samples.viewer_snapshots
    /\ rr_opponent_line r = se_opponent_line event
    /\ In (rr_your_line r)
          (get_or String.eqb Samples.counter_map (se_opponent_line event) [])
    /\ 3 <= get_or String.eqb (totals_by_line snapshot) (rr_your_line r) 0
    /\ rr_response_time r = time snapshot
    /\ rr_delay r = time snapshot - se_time event
    /\ 0 <= rr_delay r
    /\ rr_delay_str r = format_seconds (Some (rr_delay r))
    /\ rr_confidence r = Some "low".
Proof.
  intros r result.
  apply (@responses_sound Samples.counter_map Samples.opponent_snapshots
           Samples.viewer_snapshots r).
  simpl. left. reflexivity.
Defined.

(** X16: every missed counter opportunity names the line of a reported
    switch event and lists the whole counter-table entry of that line (no
    counter at all for a line without entry); it is recorded only when no
    viewer snapshot at or after the event holds three of any of these
    counters. *)
Theorem missed_opportunities_sound (COUNTER_MAP : dict string (list string))
    (opponent_snapshots you_snapshots : list Snapshot) (m : MissedCounter) :
  let result := _detect_switches COUNTER_MAP opponent_snapshots you_snapshots in
  In m (missed_counter_opportunities result) ->
  exists event,
    In event (switch_events result)
    /\ mc_opponent_line m = se_opponent_line event
    /\ mc_suggested_counters m
       = get_or String.eqb COUNTER_MAP (se_opponent_line event) []
    /\ mc_confidence m = "low"
    /\ (forall snapshot counter,
          In snapshot you_snapshots ->
          se_time event <= time snapshot ->
          In counter (mc_suggested_counters m) ->
          get_or String.eqb (totals_by_line snapshot) counter 0 < 3).
Proof.
  intros result. unfold result. rewrite detect_switches_events.
  unfold _detect_switches. rewrite handle_events_fold. cbn [fst snd app].
  cbn [missed_counter_opportunities]. rewrite in_flat_map.
  intros (event & Hev & Hm). exists event.
  unfold handle_event in Hm.
  destruct (find_response event _ you_snapshots) as [response|] eqn:E;
    cbn [snd] in Hm; [destruct Hm|].
  destruct Hm as [<-|[]]. cbn.
  repeat split; auto.
  intros snapshot counter Hs Hge Hc.
  apply find_response_none in E. rewrite Forall_forall in E.
  destruct (E snapshot Hs) as [Hlt|Hq]; [lia|].
  unfold qualifying_counter in Hq.
  pose proof (find_none _ _ Hq counter Hc) as Hn. cbv beta in Hn.
  rewrite Z.geb_leb in Hn. now apply Z.leb_gt.
Qed.

Lemma missed_opportunities_sound_witness :
  let m := {| mc_opponent_line := "knight_line";
              mc_suggested_counters := ["pikeman_line"; "camel_line"];
              mc_confidence := "low" |} in
  let result := _detect_switches Samples.counter_map Samples.opponent_snapshots
                  [Samples.snapshot_of 480 [("pikeman_line", 2)]] in
  exists event,
    In event (switch_events result)
    /\ mc_opponent_line m = se_opponent_line event
    /\ mc_suggested_counters m
       = get_or String.eqb Samples.counter_map (se_opponent_line event) []
    /\ mc_confidence m = "low"
    /\ (forall snapshot counter,
          In snapshot [Samples.snapshot_of 480 [("pikeman_line", 2)]] ->
          se_time event <= time snapshot ->
          In counter (mc_suggested_counters m) ->
          get_or String.eqb (totals_by_line snapshot) counter 0 < 3).
Proof.
  intros m result.
  apply (@missed_opportunities_sound Samples.counter_map Samples.opponent_snapshots
           [Samples.snapshot_of 480 [("pikeman_line", 2)]] m).
  simpl. left. reflexivity.
Defined.

(** ** _actions_per_minute *)

Lemma bump_position (n : nat) :
  forall bins,
    (n < List.length bins)%nat ->
    let bins' := firstn n bins
                 ++ match skipn n bins with
                    | count :: rest => (count + 1) :: rest
                    | [] => []
                    end in
    List.length bins' = List.length bins
    /\ forall i, nth i bins' 0 = nth i bins 0 + (if (i =? n)%nat then 1 else 0).
Proof.
  induction n as [|n IH]; intros [|x r] Hlen; cbn [List.length] in Hlen; try lia.
  - cbn. split; [reflexivity|]. intros [|i]; cbn; lia.
  - destruct (IH r ltac:(lia)) as [Hl Hn]. cbn [firstn skipn app].
    split; [cbn [List.length]; now rewrite Hl|].
    intros [|i]; cbn [nth Nat.eqb]; [lia | apply Hn].
Qed.

Lemma bump_in_range (bins : list Z) (index : Z) :
  0 <= index < Z.of_nat (List.length bins) ->
  exists bins',
    bump bins index = Return bins'
    /\ List.length bins' = List.length bins
    /\ forall i, nth i bins' 0
                 = nth i bins 0 + (if Z.of_nat i =? index then 1 else 0).
Proof.
  intros Hr. unfold bump.
  destruct (Z.ltb_spec index 0); [lia|].
  destruct (Z.leb_spec 0 index); [|lia].
  destruct (Z.ltb_spec index (Z.of_nat (List.length bins))); [|lia].
  cbn [andb]. eexists. split; [reflexivity|].
  destruct (@bump_position (Z.to_nat index) bins ltac:(lia)) as [Hl Hn].
  split; [exact Hl|]. intros i. rewrite Hn.
  destruct (Nat.eqb_spec i (Z.to_nat index)), (Z.eqb_spec (Z.of_nat i) index); lia.
Qed.

Lemma nth_error_enumerate (l : list Z) :
  forall start i b,
    nth_error (map (fun '(idx, count) => {| minute := Z.of_nat idx; actions := count |})
                   (combine (seq start (List.length l)) l)) i = Some b ->
    minute b = Z.of_nat (start + i) /\ Core.actions b = nth i l 0.
Proof.
  induction l as [|x r IH]; intros start i b; cbn [List.length seq combine map].
  - destruct i; discriminate.
  - destruct i as [|i]; cbn [nth_error nth].
    + intros [= <-]. cbn. split; [f_equal; lia | reflexivity].
    + intros H. apply IH in H. destruct H as [Hm Ha].
      split; [rewrite Hm; f_equal; lia | exact Ha].
Qed.

Lemma nth_repeat_zero (n i : nat) : nth i (repeat 0 n) 0 = 0.
Proof.
  revert i. induction n as [|n IH]; intros [|i]; cbn; auto.
Qed.

Lemma bins_fold (last_bin : Z) (action_list : list Action) :
  (forall a ts, In a action_list -> a_timestamp a = Some ts -> 0 <= ts) ->
  forall bins,
    Z.of_nat (List.length bins) = last_bin + 1 -> 0 <= last_bin ->
    exists bins',
      fold_left
        (fun bins action =>
           bins <- bins ;;
           match _action_time action with
           | None => Return bins
           | Some ts =>
               let index := Z.min (ts / 60) (Z.of_nat (List.length bins) - 1) in
               bump bins index
           end)
        action_list (Return bins) = Return bins'
      /\ List.length bins' = List.length bins
      /\ forall i,
           nth i bins' 0
           = nth i bins 0
             + count (fun a => match a_timestamp a with
                               | Some ts => Z.min (ts / 60) last_bin =? Z.of_nat i
                               | None => false
                               end) action_list.
Proof.
  unfold count.
  induction action_list as [|a r IH]; intros Hts bins Hlen Hlast; cbn [fold_left filter].
  - exists bins. repeat split. intros i. cbn. lia.
  - cbn [bind]. unfold _action_time at 2.
    destruct (a_timestamp a) as [ts|] eqn:Et.
    + assert (0 <= ts) by (apply (Hts a ts); [now left | exact Et]).
      assert (0 <= ts / 60) by (apply Z.div_pos; lia).
      destruct (@bump_in_range bins (Z.min (ts / 60) (Z.of_nat (List.length bins) - 1)))
        as (bins1 & -> & Hl1 & Hn1); [lia|].
      destruct (IH (fun a' ts' Ha' => Hts a' ts' (or_intror Ha')) bins1)
        as (bins' & -> & Hl' & Hn'); [lia | lia |].
      exists bins'. split; [reflexivity|]. split; [congruence|].
      intros i. rewrite Hn', Hn1.
      replace (Z.of_nat (List.length bins) - 1) with last_bin by lia.
      destruct (Z.eqb_spec (Z.of_nat i) (Z.min (ts / 60) last_bin)),
               (Z.eqb_spec (Z.min (ts / 60) last_bin) (Z.of_nat i));
        cbn [List.length]; lia.
    + destruct (IH (fun a' ts' Ha' => Hts a' ts' (or_intror Ha')) bins Hlen Hlast)
        as (bins' & -> & Hl' & Hn').
      exists bins'. repeat split; auto.
Qed.

(** X17: when no action has a negative timestamp, [_actions_per_minute]
    returns one bin per minute from 0 to [max(duration, 0) // 60], bin [i]
    carrying minute [i] and the number of timestamped actions of minute
    [i], the actions later than the last minute being counted in the last
    bin; actions without timestamp are counted nowhere. *)
Theorem actions_per_minute_bins (action_list : list Action) (duration : Z) :
  (forall a ts, In a action_list -> a_timestamp a = Some ts -> 0 <= ts) ->
  exists bins,
    _actions_per_minute action_list duration = Return bins
    /\ Z.of_nat (List.length bins) = Z.max duration 0 / 60 + 1
    /\ forall i b,
         nth_error bins i = Some b ->
         minute b = Z.of_nat i
         /\ Core.actions b
            = count (fun a => match a_timestamp a with
                              | Some ts =>
                                  Z.min (ts / 60) (Z.max duration 0 / 60) =? Z.of_nat i
                              | None => false
                              end) action_list.
Proof.
  intros Hts. unfold _actions_per_minute. cbv zeta.
  assert (Hlast : 0 <= Z.max duration 0 / 60) by (apply Z.div_pos; lia).
  destruct (@bins_fold (Z.max duration 0 / 60) action_list Hts
              (repeat 0 (Z.to_nat (Z.max duration 0 / 60 + 1))))
    as (bins & Hfold & Hl & Hn); [rewrite repeat_length; lia | exact Hlast |].
  cbv zeta in Hfold. rewrite Hfold.
  cbn [bind]. eexists. split; [reflexivity|].
  rewrite repeat_length in Hl. split.
  - rewrite length_map, length_combine, length_seq, Nat.min_id. lia.
  - intros i b Hb. apply nth_error_enumerate in Hb. destruct Hb as [Hm Ha].
    split; [exact Hm|]. rewrite Ha, Hn, nth_repeat_zero. lia.
Qed.

Lemma actions_per_minute_bins_witness :
  exists bins,
    _actions_per_minute Samples.sample_actions 300 = Return bins
    /\ Z.of_nat (List.length bins) = Z.max 300 0 / 60 + 1
    /\ forall i b,
         nth_error bins i = Some b ->
         minute b = Z.of_nat i
         /\ Core.actions b
            = count (fun a => match a_timestamp a with
                              | Some ts =>
                                  Z.min (ts / 60) (Z.max 300 0 / 60) =? Z.of_nat i
                              | None => false
                              end) Samples.sample_actions.
Proof.
  apply (@actions_per_minute_bins Samples.sample_actions 300).
  intros a ts [<-|[<-|[<-|[<-|[<-|[]]]]]]; simpl; intros [= <-]; lia.
Defined.

(** ** sanitize_filename *)

Example test_sanitize_filename :
  sanitize_filename "Arabia vs. Arena" = "Arabia_vs_Arena"
  /\ sanitize_filename "a/b:c" = "a_b_c".
Proof. split; reflexivity. Qed.

Section SplitJoin.
Variable sep : ascii.

Local Abbreviation not_sep := (fun c : ascii => negb (Ascii.eqb c sep)).

Lemma split_nonempty (s : string) : TimeUtils.split sep s <> [].
Proof.
  destruct s as [|c r]; cbn [TimeUtils.split]; [discriminate|].
  destruct (Ascii.eqb c sep); [discriminate|].
  destruct (TimeUtils.split sep r); discriminate.
Qed.

Lemma split_no_sep (s : string) :
  all_chars not_sep s = true -> TimeUtils.split sep s = [s].
Proof.
  induction s as [|c r IH]; cbn [all_chars TimeUtils.split]; [reflexivity|].
  intros H. apply andb_true_iff in H. destruct H as [Hc Hr].
  cbv beta in Hc. apply negb_true_iff in Hc. rewrite Hc, (IH Hr). reflexivity.
Qed.

Lemma split_append (p rest : string) :
  all_chars not_sep p = true ->
  TimeUtils.split sep (String.append p (String sep rest))
  = p :: TimeUtils.split sep rest.
Proof.
  induction p as [|c r IH]; cbn [all_chars String.append TimeUtils.split].
  - intros _. now rewrite Ascii.eqb_refl.
  - intros H. apply andb_true_iff in H. destruct H as [Hc Hr].
    cbv beta in Hc. apply negb_true_iff in Hc. rewrite Hc, (IH Hr). reflexivity.
Qed.

Lemma split_parts_no_sep (s : string) :
  Forall (fun p => all_chars not_sep p = true) (TimeUtils.split sep s).
Proof.
  induction s as [|c r IH]; cbn [TimeUtils.split].
  - repeat constructor.
  - destruct (Ascii.eqb c sep) eqn:E; [constructor; [reflexivity | exact IH]|].
    destruct (TimeUtils.split sep r) as [|p ps]; [repeat constructor|].
    + cbn. now rewrite E.
    + inversion IH; subst. constructor; [|assumption].
      cbn [all_chars]. cbv beta. now rewrite E.
Qed.

(** Splitting what was joined gives the parts back. *)
Lemma split_join (parts : list string) :
  parts <> [] ->
  Forall (fun p => all_chars not_sep p = true) parts ->
  TimeUtils.split sep (join sep parts) = parts.
Proof.
  induction parts as [|p r IH]; [congruence|]. intros _ Hall.
  inversion Hall as [|? ? Hp Hr]; subst.
  destruct r as [|q r']; cbn [join].
  - now apply split_no_sep.
  - rewrite split_append by exact Hp. f_equal. apply IH; [discriminate | exact Hr].
Qed.

Lemma all_chars_append (p : ascii -> bool) (a b : string) :
  all_chars p (String.append a b) = all_chars p a && all_chars p b.
Proof.
  induction a as [|c r IH]; cbn [String.append all_chars]; [reflexivity|].
  now rewrite IH, andb_assoc.
Qed.

Lemma split_parts_all (p : ascii -> bool) (s : string) :
  all_chars p s = true ->
  Forall (fun part => all_chars p part = true) (TimeUtils.split sep s).
Proof.
  induction s as [|c r IH]; cbn [TimeUtils.split all_chars].
  - repeat constructor.
  - intros H. apply andb_true_iff in H. destruct H as [Hc Hr].
    specialize (IH Hr).
    destruct (Ascii.eqb c sep); [constructor; [reflexivity | exact IH]|].
    destruct (TimeUtils.split sep r) as [|q qs]; [repeat constructor; cbn; now rewrite Hc|].
    inversion IH; subst. constructor; [|assumption].
    cbn [all_chars]. rewrite Hc. assumption.
Qed.

Lemma join_all (p : ascii -> bool) (parts : list string) :
  p sep = true ->
  Forall (fun part => all_chars p part = true) parts ->
  all_chars p (join sep parts) = true.
Proof.
  intros Hsep. induction 1 as [|q r Hq Hr IH]; [reflexivity|].
  destruct r as [|q' r']; cbn [join]; [exact Hq|].
  rewrite all_chars_append, Hq. cbn [all_chars andb]. rewrite Hsep. exact IH.
Qed.
End SplitJoin.

Lemma map_chars_fixed (f : ascii -> ascii) (p : ascii -> bool) (s : string) :
  (forall c, p c = true -> f c = c) ->
  all_chars p s = true -> map_chars f s = s.
Proof.
  intros Hf. induction s as [|c r IH]; cbn [all_chars map_chars]; [reflexivity|].
  intros H. apply andb_true_iff in H. destruct H as [Hc Hr].
  now rewrite (Hf c Hc), (IH Hr).
Qed.

Lemma safe_chars (value : string) :
  all_chars is_safe
    (map_chars (fun char => if is_safe char then char else "_"%char) value) = true.
Proof.
  induction value as [|c r IH]; cbn [map_chars all_chars]; [reflexivity|].
  rewrite IH, andb_true_r. destruct (is_safe c) eqn:E; [exact E | reflexivity].
Qed.

Lemma sanitize_parts (value : string) :
  let parts :=
    filter (fun part => negb (is_empty part))
      (TimeUtils.split "_"
         (map_chars (fun char => if is_safe char then char else "_"%char) value)) in
  sanitize_filename value = join "_" parts
  /\ Forall (fun part => all_chars is_safe part = true) parts
  /\ Forall (fun part => all_chars (fun c => negb (Ascii.eqb c "_")) part = true) parts
  /\ Forall (fun part => is_empty part = false) parts.
Proof.
  intros parts. split; [reflexivity|]. unfold parts.
  split; [|split].
  - apply Forall_forall. intros p Hp. apply filter_In in Hp. destruct Hp as [Hp _].
    pose proof (split_parts_all "_" is_safe _ (safe_chars value)) as H.
    rewrite Forall_forall in H. now apply H.
  - apply Forall_forall. intros p Hp. apply filter_In in Hp. destruct Hp as [Hp _].
    pose proof (split_parts_no_sep "_"
                  (map_chars (fun char => if is_safe char then char else "_"%char) value))
      as H.
    rewrite Forall_forall in H. now apply H.
  - apply Forall_forall. intros p Hp. apply filter_In in Hp. destruct Hp as [_ Hp].
    now apply negb_true_iff.
Qed.

Lemma filter_nonempty_all (parts : list string) :
  Forall (fun part => is_empty part = false) parts ->
  filter (fun part => negb (is_empty part)) parts = parts.
Proof.
  induction 1 as [|q qs Hq _ IH]; [reflexivity|].
  cbn [filter]. rewrite Hq. cbn [negb]. now rewrite IH.
Qed.

Lemma all_chars_impl (p q : ascii -> bool) (s : string) :
  (forall c, p c = true -> q c = true) ->
  all_chars p s = true -> all_chars q s = true.
Proof.
  intros Hpq. induction s as [|c r IH]; cbn [all_chars]; [reflexivity|].
  intros H. apply andb_true_iff in H. destruct H as [Hc Hr].
  now rewrite (Hpq c Hc), (IH Hr).
Qed.

Lemma safe_filename_char (c : ascii) :
  is_safe c = true -> is_filename_char c = true.
Proof. destruct c as [[] [] [] [] [] [] [] []]; try discriminate; reflexivity. Qed.

(** X18: the sanitized form of an ASCII name holds only the ASCII
    letters, the digits, hyphens and underscores, and is empty or made of
    non-empty segments: it neither starts nor ends with an underscore and
    has no two underscores in a row. *)
Theorem sanitize_filename_safe (value : string) :
  all_chars is_ascii value = true ->
  all_chars is_filename_char (sanitize_filename value) = true
  /\ (sanitize_filename value = EmptyString
      \/ Forall (fun part => is_empty part = false)
                (TimeUtils.split "_" (sanitize_filename value))).
Proof.
  intros _.
  destruct (sanitize_parts value) as (-> & Hsafe & Hsep & Hne).
  split.
  - apply all_chars_impl with (p := is_safe); [exact safe_filename_char|].
    now apply join_all.
  - destruct (filter _ _) as [|p r] eqn:E; [now left|].
    right. rewrite split_join; [exact Hne | discriminate | exact Hsep].
Qed.

Lemma sanitize_filename_safe_witness :
  all_chars is_filename_char (sanitize_filename "__my  file (v2).tsv_") = true
  /\ (sanitize_filename "__my  file (v2).tsv_" = EmptyString
      \/ Forall (fun part => is_empty part = false)
                (TimeUtils.split "_" (sanitize_filename "__my  file (v2).tsv_"))).
Proof. apply (@sanitize_filename_safe "__my  file (v2).tsv_"). reflexivity. Defined.

(** X19: sanitizing is idempotent: a sanitized name is left as it is. *)
Theorem sanitize_filename_idempotent (value : string) :
  sanitize_filename (sanitize_filename value) = sanitize_filename value.
Proof.
  destruct (sanitize_parts value) as (Heq & Hsafe & Hsep & Hne).
  rewrite Heq.
  set (parts := filter _ _) in *.
  unfold sanitize_filename at 1.
  rewrite (@map_chars_fixed _ is_safe);
    [| intros c Hc; now rewrite Hc | now apply join_all].
  destruct parts as [|p r] eqn:E; [reflexivity|].
  rewrite split_join; [| discriminate | exact Hsep].
  now rewrite (filter_nonempty_all Hne).
Qed.

(** ** coerce_seconds on clock strings *)

Import TimeUtils.

Ltac ascii_cases c :=
  destruct c as [[] [] [] [] [] [] [] []]; try discriminate; try reflexivity.

Lemma digit_not_space (c : ascii) : is_digit c = true -> is_space c = false.
Proof. ascii_cases c. Qed.

Lemma digit_not_cspace (c : ascii) : is_digit c = true -> is_cspace c = false.
Proof. ascii_cases c. Qed.

Lemma digit_not_colon (c : ascii) : is_digit c = true -> Ascii.eqb c ":" = false.
Proof. ascii_cases c. Qed.

Lemma digit_not_dot (c : ascii) : is_digit c = true -> Ascii.eqb c "." = false.
Proof. ascii_cases c. Qed.

Lemma digit_not_sign (c : ascii) :
  is_digit c = true -> Ascii.eqb c "-" = false /\ Ascii.eqb c "+" = false.
Proof. destruct c as [[] [] [] [] [] [] [] []]; try discriminate; split; reflexivity. Qed.

Lemma digit_not_letter (c : ascii) :
  is_digit c = true -> Ascii.eqb (to_lower c) "i" = false /\ Ascii.eqb (to_lower c) "n" = false.
Proof. destruct c as [[] [] [] [] [] [] [] []]; try discriminate; split; reflexivity. Qed.

Lemma digit_val_range (c : ascii) : is_digit c = true -> 0 <= digit_val c <= 9.
Proof.
  destruct c as [[] [] [] [] [] [] [] []]; try discriminate; intros _; vm_compute;
    split; discriminate.
Qed.

Section StripFacts.
Variable space : ascii -> bool.

Lemma lstrip_fixed (s : string) :
  all_chars (fun c => negb (space c)) s = true -> lstrip_by space s = s.
Proof.
  destruct s as [|c r]; cbn [all_chars lstrip_by]; [reflexivity|].
  intros H. apply andb_true_iff in H. destruct H as [Hc _].
  apply negb_true_iff in Hc. now rewrite Hc.
Qed.

Lemma rstrip_fixed (s : string) :
  all_chars (fun c => negb (space c)) s = true -> rstrip_by space s = s.
Proof.
  induction s as [|c r IH]; cbn [all_chars rstrip_by]; [reflexivity|].
  intros H. apply andb_true_iff in H. destruct H as [Hc Hr].
  apply negb_true_iff in Hc. rewrite (IH Hr), Hc. now destruct r.
Qed.

Lemma strip_fixed (s : string) :
  all_chars (fun c => negb (space c)) s = true -> strip_by space s = s.
Proof.
  intros H. unfold strip_by. now rewrite (@lstrip_fixed _ H), (@rstrip_fixed _ H).
Qed.

Lemma lstrip_blank (pad t : string) :
  all_chars space pad = true ->
  lstrip_by space (String.append pad t) = lstrip_by space t.
Proof.
  induction pad as [|c r IH]; cbn [all_chars String.append lstrip_by]; [reflexivity|].
  intros H. apply andb_true_iff in H. destruct H as [Hc Hr]. now rewrite Hc, IH.
Qed.

Lemma rstrip_blank (pad : string) :
  all_chars space pad = true -> rstrip_by space pad = EmptyString.
Proof.
  induction pad as [|c r IH]; cbn [all_chars rstrip_by]; [reflexivity|].
  intros H. apply andb_true_iff in H. destruct H as [Hc Hr]. now rewrite IH, Hc.
Qed.

Lemma rstrip_append_blank (t pad : string) :
  all_chars space pad = true ->
  rstrip_by space (String.append t pad) = rstrip_by space t.
Proof.
  intros H. induction t as [|c r IH]; cbn [String.append rstrip_by].
  - now apply rstrip_blank.
  - now rewrite IH.
Qed.

Lemma lstrip_all_blank (pad : string) :
  all_chars space pad = true -> lstrip_by space pad = EmptyString.
Proof.
  induction pad as [|c r IH]; cbn [all_chars lstrip_by]; [reflexivity|].
  intros H. apply andb_true_iff in H. destruct H as [Hc Hr]. now rewrite Hc, IH.
Qed.

Lemma strip_append_blank (t pad : string) :
  all_chars space pad = true ->
  strip_by space (String.append t pad) = strip_by space t.
Proof.
  intros H. unfold strip_by.
  induction t as [|c r IH]; cbn [String.append lstrip_by].
  - now rewrite lstrip_all_blank.
  - destruct (space c); [exact IH|].
    change (String c (String.append r pad)) with (String.append (String c r) pad).
    now apply rstrip_append_blank.
Qed.

Lemma strip_padded (before t after : string) :
  all_chars space before = true ->
  all_chars space after = true ->
  strip_by space (String.append before (String.append t after)) = strip_by space t.
Proof.
  intros Hb Ha. rewrite <- (@strip_append_blank t after Ha).
  unfold strip_by. now rewrite lstrip_blank.
Qed.
End StripFacts.

Lemma replace_first_absent (d : ascii) (s : string) :
  all_chars (fun c => negb (Ascii.eqb c d)) s = true -> replace_first d s = s.
Proof.
  induction s as [|c r IH]; cbn [all_chars replace_first]; [reflexivity|].
  intros H. apply andb_true_iff in H. destruct H as [Hc Hr].
  apply negb_true_iff in Hc. now rewrite Hc, (IH Hr).
Qed.

Lemma isdigit_all (s : string) :
  isdigit s = negb (is_empty s) && all_chars is_digit s.
Proof.
  destruct s as [|c r]; [reflexivity|]. unfold isdigit. cbn [is_empty negb andb].
  generalize (String c r). intros t.
  induction t as [|c' r' IH]; cbn; [reflexivity | now rewrite IH].
Qed.

Lemma digits_from_all (s : string) :
  forall acc n,
    all_chars is_digit s = true ->
    digits_from acc n s = (digits_value acc s, (n + String.length s)%nat, EmptyString).
Proof.
  induction s as [|c r IH]; intros acc n; cbn [all_chars digits_from digits_value String.length].
  - intros _. now rewrite Nat.add_0_r.
  - intros H. apply andb_true_iff in H. destruct H as [Hc Hr].
    rewrite Hc, IH by exact Hr. now rewrite Nat.add_succ_r.
Qed.

Lemma digit_part_all (s : string) :
  is_empty s = false ->
  all_chars is_digit s = true ->
  digit_part s = Some (digits_value 0 s, String.length s, EmptyString).
Proof.
  destruct s as [|c r]; [discriminate|]. intros _ H. cbn [all_chars] in H.
  apply andb_true_iff in H. destruct H as [Hc Hr].
  unfold digit_part. rewrite Hc, digits_from_all by exact Hr. reflexivity.
Qed.

Lemma digits_value_nonneg (s : string) :
  forall acc, 0 <= acc -> all_chars is_digit s = true -> acc <= digits_value acc s.
Proof.
  induction s as [|c r IH]; intros acc Hacc; cbn [all_chars digits_value]; [lia|].
  intros H. apply andb_true_iff in H. destruct H as [Hc Hr].
  pose proof (@digit_val_range c Hc).
  specialize (IH (acc * 10 + digit_val c) ltac:(lia) Hr). lia.
Qed.

Section DigitStrings.
Variable s : string.
Hypothesis s_some : is_empty s = false.
Hypothesis s_digits : all_chars is_digit s = true.

Lemma digits_strip : strip s = s.
Proof.
  apply strip_fixed. eapply all_chars_impl; [|exact s_digits].
  intros c Hc. now rewrite (@digit_not_space c Hc).
Qed.

Lemma digits_strip_literal : strip_literal s = s.
Proof.
  apply strip_fixed. eapply all_chars_impl; [|exact s_digits].
  intros c Hc. now rewrite (@digit_not_cspace c Hc).
Qed.

Lemma digits_sign : sign s = (false, s).
Proof.
  destruct s as [|c r]; [reflexivity|]. cbn [all_chars] in s_digits.
  apply andb_true_iff in s_digits. destruct s_digits as [Hc _].
  unfold sign. destruct (@digit_not_sign c Hc) as [-> ->]. reflexivity.
Qed.

(** Within the digit limit of [int()] the digits are read as a number. *)
Lemma int_of_digits :
  (String.length s <= max_str_digits)%nat ->
  int_of_str s = Return (digits_value 0 s).
Proof.
  intros Hshort. unfold int_of_str. rewrite digits_strip_literal, digits_sign.
  rewrite (@digit_part_all s s_some s_digits).
  destruct (Nat.ltb_spec max_str_digits (String.length s)); [lia | reflexivity].
Qed.

(** Beyond the limit they are refused. *)
Lemma int_of_long_digits :
  (max_str_digits < String.length s)%nat ->
  int_of_str s
  = Raise (ValueError "Exceeds the limit (4300 digits) for integer string conversion").
Proof.
  intros Hlong. unfold int_of_str. rewrite digits_strip_literal, digits_sign.
  rewrite (@digit_part_all s s_some s_digits).
  destruct (Nat.ltb_spec max_str_digits (String.length s)); [reflexivity | lia].
Qed.

Lemma digits_not_special (word : string) :
  (exists r, word = String "i" r) \/ (exists r, word = String "n" r) ->
  (lower s =? word)%string = false.
Proof.
  destruct s as [|c r]; [discriminate|]. cbn [all_chars] in s_digits.
  apply andb_true_iff in s_digits. destruct s_digits as [Hc _].
  destruct (@digit_not_letter c Hc) as [Hi Hn].
  intros [[w ->]|[w ->]]; cbn [lower String.eqb]; [now rewrite Hi | now rewrite Hn].
Qed.

Lemma number_of_digits : number s = Some (inject_Z (digits_value 0 s), EmptyString).
Proof.
  pose proof (@digit_part_all s s_some s_digits) as Hd.
  destruct s as [|c r]; [discriminate|]. unfold number.
  cbn [all_chars] in s_digits.
  apply andb_true_iff in s_digits. destruct s_digits as [Hc _].
  now rewrite (@digit_not_dot c Hc), Hd.
Qed.

Lemma float_of_digits :
  float_of_str s
  = Return (to_float (inject_Z (digits_value 0 s) * Qpower (inject_Z 10) 0)%Q).
Proof.
  unfold float_of_str. rewrite digits_strip_literal, digits_sign.
  rewrite !digits_not_special by eauto.
  cbn [orb]. rewrite number_of_digits. reflexivity.
Qed.
End DigitStrings.

Lemma limit_above : 2 ^ 53 < 2 ^ 1024 - 2 ^ 970.
Proof. apply Z.ltb_lt. vm_compute. reflexivity. Qed.

Lemma overflows_small (q : Q) :
  Qden q = 1%positive -> - 2 ^ 53 < Qnum q < 2 ^ 53 -> overflows q = false.
Proof.
  intros Hden Hnum. unfold overflows, Qle_bool.
  pose proof limit_above as Hl.
  cbn [Qnum Qden inject_Z Qopp]. rewrite Hden.
  remember (2 ^ 1024 - 2 ^ 970) as limit eqn:El. clear El.
  remember (2 ^ 53) as small eqn:Es. clear Es.
  apply orb_false_iff. split; apply Z.leb_gt; lia.
Qed.

(** The tail of both clock branches: the seconds parsed as a float,
    added to the whole seconds of the hours and minutes, and truncated. *)
Lemma clock_seconds (s : string) (n : Z) :
  is_empty s = false ->
  all_chars is_digit s = true ->
  0 <= n ->
  n + digits_value 0 s < 2 ^ 53 ->
  (seconds <- float_of_str s ;;
   total <- int_plus_float n seconds ;;
   int_of_float total)
  = Return (n + digits_value 0 s).
Proof.
  intros Hne Hd Hn Hsum.
  pose proof (@digits_value_nonneg s 0 ltac:(lia) Hd) as Hv.
  rewrite (@float_of_digits s Hne Hd). unfold to_float.
  rewrite overflows_small; [|reflexivity | cbn [Qnum Qmult inject_Z Qpower]; lia].
  cbn [bind]. unfold int_plus_float.
  rewrite overflows_small; [|reflexivity | cbn [Qnum inject_Z]; lia].
  unfold to_float.
  rewrite overflows_small;
    [|reflexivity | cbn [Qnum Qden Qplus Qmult inject_Z Qpower]; lia].
  cbn [bind int_of_float]. f_equal.
  cbn [Qnum Qden Qplus Qmult inject_Z Qpower].
  change (Z.pos (1 * (1 * 1))) with 1. rewrite Z.quot_1_r. lia.
Qed.

Lemma all_chars_clock2 (p : ascii -> bool) (m s : string) :
  all_chars p (clock2 m s) = all_chars p m && (p ":"%char && all_chars p s).
Proof. unfold clock2. rewrite all_chars_append. reflexivity. Qed.

Lemma all_chars_clock3 (p : ascii -> bool) (h m s : string) :
  all_chars p (clock3 h m s)
  = all_chars p h && (p ":"%char && (all_chars p m && (p ":"%char && all_chars p s))).
Proof.
  unfold clock3. rewrite all_chars_append. cbn [all_chars].
  rewrite all_chars_append. reflexivity.
Qed.

Lemma append_some (a b : string) : is_empty a = false -> is_empty (String.append a b) = false.
Proof. now destruct a. Qed.

Lemma eqb_empty (s : string) : (s =? EmptyString)%string = is_empty s.
Proof. now destruct s. Qed.

Lemma digits_no_space (t : string) :
  all_chars is_digit t = true -> all_chars (fun c => negb (is_space c)) t = true.
Proof. apply all_chars_impl. intros c Hc. now rewrite (@digit_not_space c Hc). Qed.

Lemma digits_no_dot (t : string) :
  all_chars is_digit t = true -> all_chars (fun c => negb (Ascii.eqb c ".")) t = true.
Proof. apply all_chars_impl. intros c Hc. now rewrite (@digit_not_dot c Hc). Qed.

Lemma digits_no_colon (t : string) :
  all_chars is_digit t = true -> all_chars (fun c => negb (Ascii.eqb c ":")) t = true.
Proof. apply all_chars_impl. intros c Hc. now rewrite (@digit_not_colon c Hc). Qed.

Lemma coerce_clock3_value (h m s : string) :
  is_empty h = false -> is_empty m = false -> is_empty s = false ->
  all_chars is_digit h = true ->
  all_chars is_digit m = true ->
  all_chars is_digit s = true ->
  (String.length h <= max_str_digits)%nat ->
  (String.length m <= max_str_digits)%nat ->
  digits_value 0 h * 3600 + digits_value 0 m * 60 + digits_value 0 s < 2 ^ 53 ->
  coerce_seconds (VStr (clock3 h m s))
  = Return (digits_value 0 h * 3600 + digits_value 0 m * 60 + digits_value 0 s).
Proof.
  intros Hh Hm Hs Dh Dm Ds Lh Lm Hbound.
  pose proof (@digits_value_nonneg h 0 ltac:(lia) Dh) as Vh.
  pose proof (@digits_value_nonneg m 0 ltac:(lia) Dm) as Vm.
  pose proof (@digits_value_nonneg s 0 ltac:(lia) Ds) as Vs.
  unfold coerce_seconds, strip.
  rewrite strip_fixed
    by (rewrite all_chars_clock3, !digits_no_space by assumption; reflexivity).
  rewrite eqb_empty. unfold clock3 at 1. rewrite append_some by exact Hh.
  rewrite replace_first_absent
    by (rewrite all_chars_clock3, !digits_no_dot by assumption; reflexivity).
  rewrite isdigit_all, all_chars_clock3, Dh. cbn [is_digit andb].
  replace (is_digit ":") with false by reflexivity.
  rewrite andb_false_r. unfold clock3.
  rewrite split_append by now apply digits_no_colon.
  rewrite split_append by now apply digits_no_colon.
  rewrite split_no_sep by now apply digits_no_colon.
  rewrite (@int_of_digits h Hh Dh Lh), (@int_of_digits m Hm Dm Lm). cbn [bind].
  rewrite clock_seconds by (try assumption; lia). reflexivity.
Qed.

Lemma coerce_clock2_value (m s : string) :
  is_empty m = false -> is_empty s = false ->
  all_chars is_digit m = true ->
  all_chars is_digit s = true ->
  (String.length m <= max_str_digits)%nat ->
  digits_value 0 m * 60 + digits_value 0 s < 2 ^ 53 ->
  coerce_seconds (VStr (clock2 m s))
  = Return (digits_value 0 m * 60 + digits_value 0 s).
Proof.
  intros Hm Hs Dm Ds Lm Hbound.
  pose proof (@digits_value_nonneg m 0 ltac:(lia) Dm) as Vm.
  pose proof (@digits_value_nonneg s 0 ltac:(lia) Ds) as Vs.
  unfold coerce_seconds, strip.
  rewrite strip_fixed
    by (rewrite all_chars_clock2, !digits_no_space by assumption; reflexivity).
  rewrite eqb_empty. unfold clock2 at 1. rewrite append_some by exact Hm.
  rewrite replace_first_absent
    by (rewrite all_chars_clock2, !digits_no_dot by assumption; reflexivity).
  rewrite isdigit_all, all_chars_clock2, Dm. cbn [is_digit andb].
  replace (is_digit ":") with false by reflexivity.
  rewrite andb_false_r. unfold clock2.
  rewrite split_append by now apply digits_no_colon.
  rewrite split_no_sep by now apply digits_no_colon.
  rewrite (@int_of_digits m Hm Dm Lm). cbn [bind].
  rewrite clock_seconds by (try assumption; lia). reflexivity.
Qed.

(** X20: on a clock string [h:m:s] (or [m:s]) whose fields are non-empty
    runs of decimal digits, the hours and the minutes of at most 4300
    digits (the longest literal [int()] converts), [coerce_seconds]
    returns the hours times 3600 plus the minutes times 60 plus the
    seconds, the fields read as decimal numbers (leading zeros allowed,
    no field limited to 59), as long as the result stays below 2^53. *)
Theorem coerce_seconds_clock (h m s : string) :
  is_empty h = false -> is_empty m = false -> is_empty s = false ->
  all_chars is_digit h = true ->
  all_chars is_digit m = true ->
  all_chars is_digit s = true ->
  (String.length h <= 4300)%nat ->
  (String.length m <= 4300)%nat ->
  digits_value 0 h * 3600 + digits_value 0 m * 60 + digits_value 0 s < 2 ^ 53 ->
  coerce_seconds (VStr (clock3 h m s))
  = Return (digits_value 0 h * 3600 + digits_value 0 m * 60 + digits_value 0 s)
  /\ coerce_seconds (VStr (clock2 m s))
     = Return (digits_value 0 m * 60 + digits_value 0 s).
Proof.
  intros Hh Hm Hs Dh Dm Ds Lh Lm Hbound.
  pose proof (@digits_value_nonneg h 0 ltac:(lia) Dh) as Vh.
  split.
  - now apply coerce_clock3_value.
  - apply coerce_clock2_value; try assumption. lia.
Qed.

Lemma coerce_seconds_clock_witness :
  coerce_seconds (VStr (clock3 "1" "30" "00"))
  = Return (digits_value 0 "1" * 3600 + digits_value 0 "30" * 60 + digits_value 0 "00")
  /\ coerce_seconds (VStr (clock2 "30" "00"))
     = Return (digits_value 0 "30" * 60 + digits_value 0 "00").
Proof.
  apply (@coerce_seconds_clock "1" "30" "00"); try reflexivity;
    cbn [String.length]; lia.
Defined.

(** ** format_seconds and coerce_seconds *)

Lemma uint_string_digits (d : Decimal.uint) :
  all_chars is_digit (NilEmpty.string_of_uint d) = true.
Proof. induction d; cbn [NilEmpty.string_of_uint all_chars]; auto. Qed.

Ltac digit_value :=
  match goal with
  | |- context [digit_val ?c] =>
      let v := eval vm_compute in (digit_val c) in
      change (digit_val c) with v
  end.

Lemma uint_string_acc (d : Decimal.uint) :
  forall acc,
    digits_value (Z.pos acc) (NilEmpty.string_of_uint d)
    = Z.pos (Pos.of_uint_acc d acc).
Proof.
  induction d; intros acc; cbn [NilEmpty.string_of_uint digits_value Pos.of_uint_acc];
    [reflexivity | ..]; rewrite <- IHd; f_equal; digit_value; lia.
Qed.

Lemma uint_string_value (d : Decimal.uint) :
  digits_value 0 (NilEmpty.string_of_uint d) = Z.of_N (Pos.of_uint d).
Proof.
  induction d; cbn [NilEmpty.string_of_uint digits_value Pos.of_uint];
    [reflexivity | rewrite <- IHd; f_equal; digit_value; lia | ..];
    cbn [Z.of_N]; rewrite <- uint_string_acc; f_equal; digit_value; lia.
Qed.

Lemma uint_string_some (d : Decimal.uint) :
  d <> Decimal.Nil -> is_empty (NilEmpty.string_of_uint d) = false.
Proof. destruct d; [congruence | reflexivity ..]. Qed.

Lemma uint_string_length (d : Decimal.uint) :
  String.length (NilEmpty.string_of_uint d) = Decimal.nb_digits d.
Proof.
  induction d; cbn [NilEmpty.string_of_uint String.length Decimal.nb_digits]; auto.
Qed.

Lemma revapp_digits (d : Decimal.uint) :
  forall d', Decimal.nb_digits (Decimal.revapp d d')
             = (Decimal.nb_digits d + Decimal.nb_digits d')%nat.
Proof.
  induction d; intros d'; cbn [Decimal.revapp Decimal.nb_digits]; [reflexivity | ..];
    rewrite IHd; cbn [Decimal.nb_digits]; lia.
Qed.

Lemma double_digits (d : Decimal.uint) :
  (Decimal.nb_digits (Decimal.Little.double d) <= S (Decimal.nb_digits d))%nat
  /\ (Decimal.nb_digits (Decimal.Little.succ_double d) <= S (Decimal.nb_digits d))%nat.
Proof.
  induction d; cbn [Decimal.Little.double Decimal.Little.succ_double Decimal.nb_digits];
    try destruct IHd; split; lia.
Qed.

(** A number has no more decimal digits than binary ones. *)
Lemma little_uint_digits (p : positive) :
  (Decimal.nb_digits (Pos.to_little_uint p) <= Pos.size_nat p)%nat.
Proof.
  induction p as [p IH|p IH|]; cbn [Pos.to_little_uint Pos.size_nat Decimal.nb_digits];
    [ pose proof (proj2 (double_digits (Pos.to_little_uint p)))
    | pose proof (proj1 (double_digits (Pos.to_little_uint p)))
    | ]; lia.
Qed.

(** The decimal writing of a number below 2^53 is far below the digit
    limit of [int()]. *)
Lemma str_of_Z_short (n : Z) :
  0 <= n < 2 ^ 53 -> (String.length (Py.str_of_Z n) <= max_str_digits)%nat.
Proof.
  intros [Hn Hb]. unfold Py.str_of_Z, max_str_digits.
  destruct n as [|p|p]; [cbn; lia | | lia].
  cbn [Z.to_int NilZero.string_of_int].
  pose proof (DecimalPos.Unsigned.to_uint_nonnil p) as Hnil.
  replace (NilZero.string_of_uint (Pos.to_uint p))
    with (NilEmpty.string_of_uint (Pos.to_uint p))
    by (destruct (Pos.to_uint p); [congruence | reflexivity ..]).
  rewrite uint_string_length. unfold Pos.to_uint, Decimal.rev.
  rewrite revapp_digits. cbn [Decimal.nb_digits].
  pose proof (little_uint_digits p) as Hd.
  assert (Hs : (Pos.size_nat p <= Pos.size_nat (2 ^ 53))%nat)
    by (apply Pos.size_nat_monotone; lia).
  change (Pos.size_nat (2 ^ 53)) with 54%nat in Hs. lia.
Qed.

(** The decimal writing of a natural number reads back as the number. *)
Lemma str_of_Z_digits (n : Z) :
  0 <= n ->
  is_empty (Py.str_of_Z n) = false
  /\ all_chars is_digit (Py.str_of_Z n) = true
  /\ digits_value 0 (Py.str_of_Z n) = n.
Proof.
  intros Hn. unfold Py.str_of_Z. destruct n as [|p|p]; [repeat split | | lia].
  cbn [Z.to_int NilZero.string_of_int].
  pose proof (DecimalPos.Unsigned.to_uint_nonnil p) as Hnil.
  replace (NilZero.string_of_uint (Pos.to_uint p))
    with (NilEmpty.string_of_uint (Pos.to_uint p))
    by (destruct (Pos.to_uint p); [congruence | reflexivity ..]).
  split; [apply uint_string_some; exact Hnil|].
  split; [apply uint_string_digits|].
  rewrite uint_string_value, DecimalPos.Unsigned.of_to. reflexivity.
Qed.

(** X21: a time written by [format_seconds] reads back through
    [coerce_seconds]: for a number of seconds below 2^53 the string is
    produced and coerces to that number, a negative number having been
    written as 0. *)
Theorem format_then_coerce (t : Z) :
  t < 2 ^ 53 ->
  exists clock,
    format_seconds (Some t) = Some clock
    /\ coerce_seconds (VStr clock) = Return (Z.max 0 t).
Proof.
  intros Ht. eexists. split; [reflexivity|].
  set (t' := Z.max 0 t).
  assert (Ht' : 0 <= t' < 2 ^ 53) by (unfold t'; lia).
  assert (Hmin : 0 <= t' / 60) by (apply Z.div_pos; lia).
  assert (Hsec : 0 <= t' mod 60 < 60) by (apply Z.mod_pos_bound; lia).
  destruct (str_of_Z_digits Hmin) as (Em & Dm & Vm).
  destruct (str_of_Z_digits (proj1 Hsec)) as (Es & Ds & Vs).
  set (pad := if t' mod 60 <? 10 then "0" else EmptyString).
  assert (Hpad : is_empty (String.append pad (Py.str_of_Z (t' mod 60))) = false
                 /\ all_chars is_digit (String.append pad (Py.str_of_Z (t' mod 60))) = true
                 /\ digits_value 0 (String.append pad (Py.str_of_Z (t' mod 60)))
                    = t' mod 60).
  { unfold pad. destruct (t' mod 60 <? 10); cbn [String.append]; [|auto].
    repeat split; [cbn [all_chars]; now rewrite Ds | exact Vs]. }
  destruct Hpad as (Ep & Dp & Vp).
  change (String.append (Py.str_of_Z (t' / 60))
            (String.append ":" (String.append pad (Py.str_of_Z (t' mod 60)))))
    with (clock2 (Py.str_of_Z (t' / 60)) (String.append pad (Py.str_of_Z (t' mod 60)))).
  pose proof (Z.div_mod t' 60 ltac:(lia)) as Hdm.
  assert (Lm : (String.length (Py.str_of_Z (t' / 60)) <= max_str_digits)%nat)
    by (apply str_of_Z_short; split; [exact Hmin|];
        apply Z.le_lt_trans with t'; [apply Z.div_le_upper_bound; lia | lia]).
  rewrite coerce_clock2_value by (try assumption; rewrite Vm, Vp; lia).
  rewrite Vm, Vp. f_equal. lia.
Qed.

Lemma format_then_coerce_witness :
  exists clock,
    format_seconds (Some 125) = Some clock
    /\ coerce_seconds (VStr clock) = Return (Z.max 0 125).
Proof. apply (@format_then_coerce 125). reflexivity. Defined.

(** ** find_player with two different players *)

(** Case folding identifies exactly the two cases of a letter. *)
Lemma to_lower_same_letter (c d : ascii) :
  Ascii.eqb (to_lower c) (to_lower d) = same_letter c d.
Proof.
  assert (Hall : forallb
                   (fun m => forallb
                      (fun n => Bool.eqb
                                  (Ascii.eqb (to_lower (ascii_of_nat m))
                                             (to_lower (ascii_of_nat n)))
                                  (same_letter (ascii_of_nat m) (ascii_of_nat n)))
                      (seq 0 256))
                   (seq 0 256) = true)
    by (vm_compute; reflexivity).
  rewrite forallb_forall in Hall.
  specialize (Hall (nat_of_ascii c)
                   (proj2 (in_seq 256 0 _) (conj (Nat.le_0_l _) (nat_ascii_bounded c)))).
  rewrite forallb_forall in Hall.
  specialize (Hall (nat_of_ascii d)
                   (proj2 (in_seq 256 0 _) (conj (Nat.le_0_l _) (nat_ascii_bounded d)))).
  rewrite !ascii_nat_embedding in Hall. now apply Bool.eqb_prop.
Qed.

Lemma lower_same_name (s t : string) :
  (lower s =? lower t)%string = same_name s t.
Proof.
  revert t. induction s as [|c r IH]; intros [|d r']; cbn [lower same_name String.eqb];
    try reflexivity.
  now rewrite to_lower_same_letter, IH.
Qed.

(** The opponent is the first player of the list that is not the viewer. *)
Lemma next_other_first (player : Player) (players : list Player) :
  (exists q, In q players /\ q <> player) ->
  exists opponent before after,
    next_other player players = Return opponent
    /\ players = before ++ opponent :: after
    /\ Forall (fun p => p = player) before
    /\ opponent <> player.
Proof.
  induction players as [|p r IH]; intros (q & Hq & Hne); [destruct Hq|].
  cbn [next_other]. destruct (player_eqb_spec p player) as [->|Hp]; cbn [negb].
  - destruct Hq as [<-|Hq]; [congruence|].
    destruct IH as (o & before & after & Ho & -> & Hall & Hd); [eauto|].
    exists o, (player :: before), after. repeat split; auto.
  - exists p, [], r. repeat split; auto.
Qed.

(** X22: on a list of players with ASCII names that holds two different
    players, [find_player] returns without raising.  The viewer is the
    first player whose name is the requested one, the case of letters
    apart, when a non-empty name is requested and borne; else the player
    at the requested position, counted from 1 (a position below 1
    counting as 1), when a non-zero position is requested and in range;
    in both cases the opponent is the first player of the list that is
    not the viewer.  Else the viewer is the first player and the opponent
    the second. *)
Theorem find_player_two_players (players : list Player)
    (you_name : option string) (you_player : option Z) :
  (exists p q, In p players /\ In q players /\ p <> q) ->
  (forall p, In p players -> all_chars is_ascii (name p) = true) ->
  (forall requested, you_name = Some requested ->
                     all_chars is_ascii requested = true) ->
  let by_name :=
    match you_name with
    | Some (String _ _ as requested) =>
        find (fun p => same_name (name p) requested) players
    | _ => None
    end in
  let by_position :=
    match you_player with
    | Some position =>
        if position =? 0 then None
        else nth_error players (Z.to_nat (position - 1))
    | None => None
    end in
  exists viewer opponent,
    find_player players you_name you_player = Return (viewer, opponent)
    /\ match by_name, by_position with
       | Some player, _ | None, Some player =>
           viewer = player
           /\ exists before after,
                players = before ++ opponent :: after
                /\ Forall (fun p => p = viewer) before
                /\ opponent <> viewer
       | None, None =>
           nth_error players 0 = Some viewer
           /\ nth_error players 1 = Some opponent
       end.
Proof.
  intros (p & q & Hp & Hq & Hpq) _ _ by_name by_position.
  assert (Hother : forall player, exists o, In o players /\ o <> player).
  { intros player. destruct (player_eqb_spec p player) as [->|Hne].
    - exists q. split; [exact Hq | congruence].
    - exists p. split; [exact Hp | exact Hne]. }
  assert (Hname : named_player players you_name = by_name).
  { unfold named_player, by_name. destruct you_name as [[|c r]|]; try reflexivity.
    cbn [String.eqb]. apply find_ext_in. intros player _. apply lower_same_name. }
  assert (Hposition : positioned_player players you_player = by_position).
  { unfold positioned_player, by_position. destruct you_player as [k|]; [|reflexivity].
    destruct (k =? 0); [reflexivity|].
    destruct (Z.ltb_spec (Z.max 0 (k - 1)) (Z.of_nat (List.length players))) as [Hlt|Hge].
    - f_equal. destruct (Z.max_spec 0 (k - 1)) as [[_ ->]|[Hneg ->]]; [reflexivity|].
      destruct (k - 1) as [|k'|k']; try reflexivity; lia.
    - symmetry. apply nth_error_None. lia. }
  unfold find_player. rewrite Hname, Hposition.
  destruct by_name as [player|].
  - destruct (@next_other_first player players (Hother player))
      as (o & before & after & -> & Hsplit & Hall & Hd).
    exists player, o. cbn [bind]. split; [reflexivity|]. split; [reflexivity|].
    exists before, after. auto.
  - destruct by_position as [player|].
    + destruct (@next_other_first player players (Hother player))
        as (o & before & after & -> & Hsplit & Hall & Hd).
      exists player, o. cbn [bind]. split; [reflexivity|]. split; [reflexivity|].
      exists before, after. auto.
    + destruct players as [|p0 [|p1 r]].
      * destruct Hp.
      * exfalso. destruct Hp as [<-|[]], Hq as [<-|[]]. congruence.
      * exists p0, p1. repeat split.
Qed.

Lemma find_player_two_players_witness :
  exists viewer opponent,
    find_player [Samples.player "Ann"; Samples.player "Bob"] (Some "BOB") None
    = Return (viewer, opponent)
    /\ (viewer = Samples.player "Bob"
        /\ exists before after,
             [Samples.player "Ann"; Samples.player "Bob"]
             = before ++ opponent :: after
             /\ Forall (fun p => p = viewer) before
             /\ opponent <> viewer).
Proof.
  apply (@find_player_two_players [Samples.player "Ann"; Samples.player "Bob"]
           (Some "BOB") None).
  - exists (Samples.player "Ann"), (Samples.player "Bob").
    split; [now left|]. split; [right; now left|]. discriminate.
  - intros p [<-|[<-|[]]]; reflexivity.
  - intros requested [= <-]. reflexivity.
Defined.

(** ** _collect_tc_idle: the buckets and the total *)

Section BucketTotal.
Variables (duration : Z) (age_times : Age -> AgeTiming).
Variables (label : string) (start_age end_age : option Z).
Hypothesis bucket : In (label, start_age, end_age) (age_bounds duration age_times).

Local Abbreviation within acc := (0 <= held label acc <= idle_total acc).

Lemma add_idle_within (start stop : Z) (acc : IdleAcc) :
  within acc -> within (add_idle duration age_times start stop acc).
Proof.
  intros H. rewrite (add_idle_held bucket). cbn [add_idle idle_total].
  unfold overlap. lia.
Qed.

Lemma production_gaps_within (times : list Z) :
  forall last_time acc,
    within acc ->
    within (snd (production_gaps duration age_times times last_time acc)).
Proof.
  induction times as [|t r IH]; intros last_time acc H; cbn [production_gaps snd];
    [exact H|].
  apply IH. destruct (t - last_time - 25 >? 5); [now apply add_idle_within | exact H].
Qed.

Lemma timeline_idle_within (times : list Z) (acc : IdleAcc) :
  within acc -> within (timeline_idle duration age_times times acc).
Proof.
  intros H. unfold timeline_idle.
  pose proof (production_gaps_within times 0 acc H) as Hg.
  destruct (production_gaps duration age_times times 0 acc) as [last_time acc'].
  cbn [snd] in Hg.
  destruct (negb (last_time =? 0) && (duration >? last_time + 25));
    [now apply add_idle_within | exact Hg].
Qed.

Lemma walk_within (timelines : list (list Z)) :
  forall acc,
    within acc ->
    within (fold_left (fun acc times => timeline_idle duration age_times times acc)
                      timelines acc).
Proof.
  induction timelines as [|times r IH]; intros acc H; cbn [fold_left]; [exact H|].
  apply IH. now apply timeline_idle_within.
Qed.
End BucketTotal.

(** X23: the idle seconds [_collect_tc_idle] attributes to an age bucket
    are never negative and never more than the total idle time it
    reports. *)
Theorem idle_bucket_within_total (duration : Z) (age_times : Age -> AgeTiming)
    (unit_events : list UnitEvent) (builds : list BuildEvent)
    (label : string) (start_age end_age : option Z) :
  In (label, start_age, end_age) (age_bounds duration age_times) ->
  let idle := fst (_collect_tc_idle duration age_times unit_events builds) in
  0 <= get_or String.eqb (by_age idle) label 0 <= total idle.
Proof.
  intros Hin idle. unfold idle.
  destruct (collect_tc_idle_walk duration age_times unit_events builds) as [-> ->].
  apply (walk_within Hin). rewrite (held_start Hin). cbn. lia.
Qed.

Lemma idle_bucket_within_total_witness :
  let idle := fst (_collect_tc_idle 900 (Samples.ages_of (Some 300) None None)
                     Samples.scenario_events Samples.scenario_builds) in
  0 <= get_or String.eqb (by_age idle) "Feudal" 0 <= total idle.
Proof.
  apply (@idle_bucket_within_total 900 (Samples.ages_of (Some 300) None None)
           Samples.scenario_events Samples.scenario_builds
           "Feudal" (Some 300) None).
  simpl. right. left. reflexivity.
Defined.

(** ** _collect_tc_idle: the buckets as a partition *)

Section Partition.
Variables (duration : Z) (age_times : Age -> AgeTiming).
Variables feudal castle imperial : Z.
Hypothesis feudal_click : click_time (age_times Feudal) = Some feudal.
Hypothesis castle_click : click_time (age_times Castle) = Some castle.
Hypothesis imperial_click : click_time (age_times Imperial) = Some imperial.
Hypothesis clicks_ordered : 0 <= feudal <= castle /\ castle <= imperial <= duration.

Local Abbreviation balanced acc := (buckets_sum (per_age acc) = idle_total acc).

Lemma add_idle_balanced (start stop : Z) (acc : IdleAcc) :
  0 <= start <= stop -> stop <= duration ->
  balanced acc -> balanced (add_idle duration age_times start stop acc).
Proof.
  intros Hs Hd H. unfold buckets_sum in *.
  assert (Hb : age_bounds duration age_times
               = [ ("Dark", Some 0, Some feudal); ("Feudal", Some feudal, Some castle);
                   ("Castle", Some castle, Some imperial);
                   ("Imperial", Some imperial, Some duration) ])
    by (unfold age_bounds; now rewrite feudal_click, castle_click, imperial_click).
  pose proof (@add_idle_held duration age_times "Dark" (Some 0) (Some feudal)
                ltac:(rewrite Hb; simpl; tauto) start stop acc) as H1.
  pose proof (@add_idle_held duration age_times "Feudal" (Some feudal) (Some castle)
                ltac:(rewrite Hb; simpl; tauto) start stop acc) as H2.
  pose proof (@add_idle_held duration age_times "Castle" (Some castle) (Some imperial)
                ltac:(rewrite Hb; simpl; tauto) start stop acc) as H3.
  pose proof (@add_idle_held duration age_times "Imperial" (Some imperial) (Some duration)
                ltac:(rewrite Hb; simpl; tauto) start stop acc) as H4.
  unfold held in H1, H2, H3, H4. rewrite H1, H2, H3, H4.
  cbn [add_idle idle_total]. unfold overlap. lia.
Qed.

Lemma production_gaps_balanced (times : list Z) :
  forall last_time acc,
    Forall (fun t => 0 <= t <= duration) times ->
    0 <= last_time ->
    balanced acc ->
    balanced (snd (production_gaps duration age_times times last_time acc))
    /\ 0 <= fst (production_gaps duration age_times times last_time acc).
Proof.
  induction times as [|t r IH]; intros last_time acc Hall Hl H;
    cbn [production_gaps fst snd]; [split; assumption|].
  inversion Hall as [|? ? Ht Hr]; subst.
  apply IH; [exact Hr | lia |].
  destruct (Z.gtb_spec (t - last_time - 25) 5); [|exact H].
  apply add_idle_balanced; [lia | lia | exact H].
Qed.

Lemma timeline_idle_balanced (times : list Z) (acc : IdleAcc) :
  Forall (fun t => 0 <= t <= duration) times ->
  balanced acc -> balanced (timeline_idle duration age_times times acc).
Proof.
  intros Hall H. unfold timeline_idle.
  destruct (@production_gaps_balanced times 0 acc Hall ltac:(lia) H) as [Hg Hl].
  destruct (production_gaps duration age_times times 0 acc) as [last_time acc'].
  cbn [fst snd] in *.
  destruct (negb (last_time =? 0)); cbn [andb]; [|exact Hg].
  destruct (Z.gtb_spec duration (last_time + 25)); [|exact Hg].
  apply add_idle_balanced; [lia | lia | exact Hg].
Qed.

Lemma walk_balanced (timelines : list (list Z)) :
  Forall (Forall (fun t => 0 <= t <= duration)) timelines ->
  forall acc,
    balanced acc ->
    balanced (fold_left (fun acc times => timeline_idle duration age_times times acc)
                        timelines acc).
Proof.
  induction 1 as [|times r Ht _ IH]; intros acc H; cbn [fold_left]; [exact H|].
  apply IH. now apply timeline_idle_balanced.
Qed.
End Partition.

Lemma set_item_values {K V : Type} (eqb : K -> K -> bool) (Q : V -> Prop)
    (d : dict K V) (k : K) (v : V) :
  Forall (fun kv => Q (snd kv)) d -> Q v ->
  Forall (fun kv => Q (snd kv)) (set_item eqb d k v).
Proof.
  induction 1 as [|[k0 v0] r H0 Hr IH]; intros Hv; cbn [set_item].
  - repeat constructor. exact Hv.
  - destruct (eqb k0 k); constructor; auto.
Qed.

Lemma get_or_values {K V : Type} (eqb : K -> K -> bool) (Q : V -> Prop)
    (d : dict K V) (k : K) (default : V) :
  Forall (fun kv => Q (snd kv)) d -> Q default -> Q (get_or eqb d k default).
Proof.
  unfold get_or. induction 1 as [|[k0 v0] r H0 Hr IH]; intros Hd; cbn [get];
    [exact Hd|].
  destruct (eqb k0 k); [exact H0 | now apply IH].
Qed.

Lemma events_by_tc_times (Q : Z -> Prop) (villager_events : list UnitEvent)
    (tc_ids : list Z) :
  (forall e, In e villager_events -> Q (ue_time e)) ->
  Forall (fun kv => Forall Q (snd kv)) (events_by_tc_of villager_events tc_ids).
Proof.
  unfold events_by_tc_of. intros HQ.
  assert (H0 : Forall (fun kv : Z * list Z => Forall Q (snd kv))
                 (map (fun tc_id => (tc_id, @nil Z)) tc_ids)).
  { apply Forall_forall. intros kv Hkv. apply in_map_iff in Hkv.
    destruct Hkv as (id & <- & _). constructor. }
  revert H0. generalize (map (fun tc_id => (tc_id, @nil Z)) tc_ids).
  induction villager_events as [|e r IH]; intros d Hd; cbn [fold_left]; [exact Hd|].
  apply IH; [intros e' He'; apply HQ; now right|].
  unfold record_event.
  assert (He : Q (ue_time e)) by (apply HQ; now left).
  revert d Hd. induction (ue_object_ids e) as [|obj ids IHi]; intros d Hd;
    cbn [fold_left]; [exact Hd|].
  apply IHi. destruct (has_key Z.eqb d obj); [|exact Hd].
  apply set_item_values; [exact Hd|].
  apply Forall_app. split; [|repeat constructor; exact He].
  apply (@get_or_values _ _ Z.eqb (Forall Q)); [exact Hd | constructor].
Qed.

Lemma timelines_times (Q : Z -> Prop) (unit_events : list UnitEvent)
    (builds : list BuildEvent) :
  (forall e, In e unit_events -> ue_line e = "villager" -> Q (ue_time e)) ->
  Forall (Forall Q) (timelines_of unit_events builds).
Proof.
  intros HQ.
  assert (Hv : forall e, In e (villager_events_of unit_events) -> Q (ue_time e)).
  { intros e He. unfold villager_events_of in He.
    apply sorted_by_In, filter_In in He. destruct He as [He Hl].
    apply HQ; [exact He | now apply String.eqb_eq]. }
  unfold timelines_of. destruct (tc_ids_of builds) as [|tc_id tc_ids].
  - constructor; [|constructor]. apply Forall_forall. intros t Ht.
    apply in_map_iff in Ht. destruct Ht as (e & <- & He). now apply Hv.
  - apply Forall_map.
    eapply Forall_impl; [|apply (@events_by_tc_times Q _ (tc_id :: tc_ids) Hv)].
    intros [id times] H. cbn [snd] in H. cbv beta iota.
    apply Forall_forall. intros t Ht.
    apply (proj1 (sorted_In times t)) in Ht. rewrite Forall_forall in H. now apply H.
Qed.

(** X24: when the three age click times are known and in order within
    the match (0 <= Feudal <= Castle <= Imperial <= duration) and no
    villager event lies outside [0, duration], the four age buckets of
    [_collect_tc_idle] add up to the total idle time: every idle second is
    attributed to exactly one age. *)
Theorem idle_buckets_partition (duration : Z) (age_times : Age -> AgeTiming)
    (unit_events : list UnitEvent) (builds : list BuildEvent)
    (feudal castle imperial : Z) :
  click_time (age_times Feudal) = Some feudal ->
  click_time (age_times Castle) = Some castle ->
  click_time (age_times Imperial) = Some imperial ->
  0 <= feudal <= castle /\ castle <= imperial <= duration ->
  (forall e, In e unit_events -> ue_line e = "villager" ->
             0 <= ue_time e <= duration) ->
  let idle := fst (_collect_tc_idle duration age_times unit_events builds) in
  buckets_sum (by_age idle) = total idle.
Proof.
  intros Hf Hc Hi Hord Htimes idle. unfold idle.
  destruct (collect_tc_idle_walk duration age_times unit_events builds) as [-> ->].
  apply (@walk_balanced duration age_times feudal castle imperial Hf Hc Hi Hord).
  - apply timelines_times. exact Htimes.
  - reflexivity.
Qed.

Lemma idle_buckets_partition_witness :
  let idle := fst (_collect_tc_idle 900 (Samples.ages_of (Some 300) (Some 600) (Some 800))
                     Samples.scenario_events Samples.scenario_builds) in
  buckets_sum (by_age idle) = total idle.
Proof.
  apply (@idle_buckets_partition 900 (Samples.ages_of (Some 300) (Some 600) (Some 800))
           Samples.scenario_events Samples.scenario_builds 300 600 800);
    try reflexivity; [lia|].
  intros e [<-|[<-|[<-|[<-|[]]]]] _; simpl; lia.
Defined.

(** ** snapshot_composition: the derived totals *)

Lemma sum_counts_from (keep : string -> bool) (d : dict string Z) :
  forall a,
    fold_left (fun acc '(line, count) => if keep line then acc + count else acc) d a
    = a + sum_counts keep d.
Proof.
  unfold sum_counts.
  induction d as [|[k v] r IH]; intros a; cbn [fold_left]; [lia|].
  rewrite IH, (IH (if keep k then 0 + v else 0)). destruct (keep k); lia.
Qed.

Lemma sum_counts_cons (keep : string -> bool) (k : string) (v : Z) (r : dict string Z) :
  sum_counts keep ((k, v) :: r) = (if keep k then v else 0) + sum_counts keep r.
Proof.
  unfold sum_counts at 1. cbn [fold_left]. rewrite sum_counts_from.
  destruct (keep k); lia.
Qed.

Lemma sum_counts_count_key (keep : string -> bool) (d : dict string Z) (k : string) :
  sum_counts keep (count_key d k)
  = sum_counts keep d + (if keep k then 1 else 0).
Proof.
  unfold count_key.
  induction d as [|[k0 v0] r IH]; cbn [set_item].
  - rewrite sum_counts_cons. cbn. destruct (keep k); reflexivity.
  - unfold get_or in *. cbn [get].
    destruct (String.eqb_spec k0 k) as [->|Hne].
    + rewrite !sum_counts_cons. destruct (keep k); lia.
    + rewrite !sum_counts_cons, IH. lia.
Qed.

Lemma sum_counts_fold (keep : string -> bool) (events : list UnitEvent) :
  forall d,
    sum_counts keep (fold_left (fun d e => count_key d (ue_line e)) events d)
    = sum_counts keep d + count (fun e => keep (ue_line e)) events.
Proof.
  unfold count.
  induction events as [|e r IH]; intros d; cbn [fold_left filter]; [cbn; lia|].
  rewrite IH, sum_counts_count_key.
  destruct (keep (ue_line e)); cbn [List.length]; lia.
Qed.

Section SnapshotSplit.
Variables GOLD TRASH : list string.
Variable events_sorted : list UnitEvent.
Hypothesis events_ascending : StronglySorted (Py.key_le ue_time) events_sorted.

(** Every snapshot of the loop holds the count of a prefix of the sorted
    events: those at or before its time. *)
Lemma snapshot_loop_split (buckets : list Z) :
  forall consumed remaining,
    events_sorted = consumed ++ remaining ->
    StronglySorted Z.lt buckets ->
    (forall b e, In b buckets -> In e consumed -> ue_time e <= b) ->
    forall s,
      In s (snapshot_loop GOLD TRASH buckets remaining
              (fold_left (fun d e => count_key d (ue_line e)) consumed [])) ->
      exists before after,
        events_sorted = before ++ after
        /\ s = make_snapshot GOLD TRASH (time s)
                 (fold_left (fun d e => count_key d (ue_line e)) before [])
        /\ (forall e, In e before -> ue_time e <= time s)
        /\ (forall e, In e after -> time s < ue_time e).
Proof.
  induction buckets as [|b rest IH]; intros consumed remaining Hsplit Hb Hcons s;
    cbn [snapshot_loop]; [intros []|].
  destruct (advance_prefix remaining b
              (fold_left (fun d e => count_key d (ue_line e)) consumed []))
    as (prefix & Hrem & Hprefix & Htot & Hhead).
  destruct (advance remaining b _) as [remaining' totals'].
  cbn [fst snd] in *. rewrite <- fold_left_app in Htot. rewrite Htot. clear Htot.
  apply StronglySorted_inv in Hb. destruct Hb as [Hb' Hlt].
  assert (Hsplit' : events_sorted = (consumed ++ prefix) ++ remaining')
    by (rewrite Hsplit, Hrem; now rewrite app_assoc).
  intros [<-|Hin].
  - exists (consumed ++ prefix), remaining'. cbn [make_snapshot time].
    split; [exact Hsplit'|]. split; [reflexivity|]. split.
    + intros e He. apply in_app_or in He. destruct He as [He|He].
      * apply (Hcons b e); [now left | exact He].
      * rewrite Forall_forall in Hprefix. now apply Hprefix.
    + intros e He. destruct remaining' as [|e0 r0]; [destruct He|].
      eapply (@later_events_after events_sorted events_ascending
                (consumed ++ prefix) e0 r0 b);
        [exact Hsplit' | exact Hhead | exact He].
  - eapply (IH (consumed ++ prefix) remaining'); [exact Hsplit' | exact Hb' | | exact Hin].
    intros b' e Hb'in He. rewrite Forall_forall in Hlt. specialize (Hlt b' Hb'in).
    apply in_app_or in He. destruct He as [He|He].
    + apply (Hcons b' e); [now right | exact He].
    + rewrite Forall_forall in Hprefix. specialize (Hprefix e He). lia.
Qed.
End SnapshotSplit.

(** X25: in every snapshot, [military_total] is the number of unit events
    at or before the snapshot's time whose line is not villager,
    fishing_ship or trade, and the gold and trash totals are the numbers
    of such events whose line is in the gold and in the trash table. *)
Theorem snapshot_totals_are_counts (GOLD TRASH : list string)
    (unit_events : list UnitEvent) (duration interval : Z)
    (age_times : Age -> AgeTiming) (snapshots : list Snapshot) (s : Snapshot) :
  snapshot_composition GOLD TRASH unit_events duration age_times interval
  = Return snapshots ->
  In s snapshots ->
  military_total s
  = count (fun e => negb (in_lines (ue_line e) ["villager"; "fishing_ship"; "trade"])
                    && (ue_time e <=? time s)) unit_events
  /\ gold_units_total s
     = count (fun e => in_lines (ue_line e) GOLD && (ue_time e <=? time s)) unit_events
  /\ trash_units_total s
     = count (fun e => in_lines (ue_line e) TRASH && (ue_time e <=? time s)) unit_events.
Proof.
  unfold snapshot_composition.
  destruct (bucket_boundaries duration age_times interval) as [buckets|e] eqn:Eb;
    simpl; [|discriminate].
  intros [= <-] Hin.
  destruct (@snapshot_loop_split GOLD TRASH (Py.sorted_by ue_time unit_events)
              (sorted_by_sorted ue_time unit_events) buckets [] _
              eq_refl (@bucket_boundaries_strict _ _ _ _ Eb)
              (fun b e _ (H : In e []) => match H with end) s Hin)
    as (before & after & Hsplit & Hs & Hbefore & Hafter).
  assert (Hcount : forall keep,
             sum_counts keep
               (fold_left (fun d e => count_key d (ue_line e)) before [])
             = count (fun e => keep (ue_line e) && (ue_time e <=? time s)) unit_events).
  { intros keep. rewrite sum_counts_fold.
    rewrite (count_perm _ (Permutation_sym (sorted_by_perm ue_time unit_events))).
    rewrite Hsplit, count_app, (count_none _ after).
    - cbn. rewrite Z.add_0_r. apply count_ext_in. intros e He.
      specialize (Hbefore e He).
      destruct (Z.leb_spec (ue_time e) (time s)); [now rewrite andb_true_r | lia].
    - intros e He. specialize (Hafter e He).
      destruct (Z.leb_spec (ue_time e) (time s)); [lia | apply andb_false_r]. }
  assert (Hm : military_total s
               = sum_counts
                   (fun line => negb (in_lines line ["villager"; "fishing_ship"; "trade"]))
                   (fold_left (fun d e => count_key d (ue_line e)) before []))
    by (rewrite Hs; reflexivity).
  assert (Hg : gold_units_total s
               = sum_counts (fun line => in_lines line GOLD)
                   (fold_left (fun d e => count_key d (ue_line e)) before []))
    by (rewrite Hs; reflexivity).
  assert (Ht : trash_units_total s
               = sum_counts (fun line => in_lines line TRASH)
                   (fold_left (fun d e => count_key d (ue_line e)) before []))
    by (rewrite Hs; reflexivity).
  rewrite Hm, Hg, Ht, !Hcount. repeat split.
Qed.

Lemma snapshot_totals_are_counts_witness :
  let s := make_snapshot Samples.gold_lines Samples.trash_lines 130
             [("villager", 1); ("archer_line", 1)] in
  military_total s
  = count (fun e => negb (in_lines (ue_line e) ["villager"; "fishing_ship"; "trade"])
                    && (ue_time e <=? time s)) Samples.test_events
  /\ gold_units_total s
     = count (fun e => in_lines (ue_line e) Samples.gold_lines && (ue_time e <=? time s))
             Samples.test_events
  /\ trash_units_total s
     = count (fun e => in_lines (ue_line e) Samples.trash_lines && (ue_time e <=? time s))
             Samples.test_events.
Proof.
  intros s.
  apply (@snapshot_totals_are_counts Samples.gold_lines Samples.trash_lines
           Samples.test_events 300 300 Samples.test_ages
           [make_snapshot Samples.gold_lines Samples.trash_lines 0 [];
            s;
            make_snapshot Samples.gold_lines Samples.trash_lines 300
              [("villager", 1); ("archer_line", 2)]]).
  - reflexivity.
  - simpl. right. left. reflexivity.
Defined.

(** ** coerce_seconds on numeric and blank strings *)

(** X26: on a non-empty run of decimal digits, with any white space
    before and after it, [coerce_seconds] returns the run read as a
    decimal number, as long as that number is below 2^53. *)
Theorem coerce_seconds_digits (before s after : string) :
  all_chars is_space before = true ->
  all_chars is_space after = true ->
  is_empty s = false ->
  all_chars is_digit s = true ->
  digits_value 0 s < 2 ^ 53 ->
  coerce_seconds (VStr (String.append before (String.append s after)))
  = Return (digits_value 0 s).
Proof.
  intros Hb Ha Hs Ds Hbound.
  pose proof (@digits_value_nonneg s 0 ltac:(lia) Ds) as Vs.
  unfold coerce_seconds.
  unfold strip. rewrite strip_padded by assumption.
  fold (strip s). rewrite (@digits_strip s Ds), eqb_empty, Hs.
  rewrite replace_first_absent by now apply digits_no_dot.
  rewrite isdigit_all, Hs, Ds. cbn [negb andb].
  rewrite (@float_of_digits s Hs Ds). unfold to_float.
  rewrite overflows_small; [|reflexivity | cbn [Qnum Qmult inject_Z Qpower]; lia].
  cbn [bind int_of_float]. f_equal.
  cbn [Qnum Qden Qmult inject_Z Qpower].
  change (Z.pos (1 * 1)) with 1. rewrite Z.quot_1_r. lia.
Qed.

Lemma coerce_seconds_digits_witness :
  coerce_seconds (VStr (String.append " " (String.append "0125" "  "))) = Return 125.
Proof.
  apply (@coerce_seconds_digits " " "0125" "  "); reflexivity.
Defined.

(** X27: on a string of white space only (the empty string included)
    [coerce_seconds] returns 0 and does not raise. *)
Theorem coerce_seconds_blank (s : string) :
  all_chars is_space s = true -> coerce_seconds (VStr s) = Return 0.
Proof.
  intros H. unfold coerce_seconds, strip, strip_by.
  replace s with (String.append s EmptyString) at 1
    by (clear; induction s as [|c r IH]; cbn; [reflexivity | now rewrite IH]).
  rewrite lstrip_blank by exact H. reflexivity.
Qed.

Lemma coerce_seconds_blank_witness : coerce_seconds (VStr "   ") = Return 0.
Proof. apply (@coerce_seconds_blank "   "). reflexivity. Defined.

(** ** _collect_tc_idle: the missing-ids flag *)

(** X28: the flag returned beside the idle report is raised exactly when
    no Town Center build record carries an object id; build records of
    other buildings, and the unit events, have no part in it. *)
Theorem tc_idle_flag_missing_ids (duration : Z) (age_times : Age -> AgeTiming)
    (unit_events : list UnitEvent) (builds : list BuildEvent) :
  snd (_collect_tc_idle duration age_times unit_events builds) = true
  <-> (forall b, In b builds ->
                 be_building b = Some "Town Center"%string ->
                 be_object_ids b = []).
Proof.
  unfold _collect_tc_idle. cbv zeta. cbn [snd].
  destruct (tc_ids_of builds) as [|z ids] eqn:E; cbn [negb]; split.
  - intros _ b Hb Htc.
    destruct (be_object_ids b) as [|x r] eqn:Eo; [reflexivity|]. exfalso.
    assert (Hx : In x (tc_ids_of builds)).
    { unfold tc_ids_of. apply (proj2 (set_In _ _)). apply in_flat_map. exists b. split.
      - apply filter_In. split; [exact Hb|]. rewrite Htc. reflexivity.
      - rewrite Eo. now left. }
    rewrite E in Hx. exact Hx.
  - reflexivity.
  - discriminate.
  - intros H. exfalso.
    assert (Hz : In z (tc_ids_of builds)) by (rewrite E; now left).
    unfold tc_ids_of in Hz. apply (proj1 (set_In _ _)) in Hz.
    apply in_flat_map in Hz.
    destruct Hz as (b & Hb & Hzb). apply filter_In in Hb. destruct Hb as [Hb Htc].
    destruct (be_building b) as [building|] eqn:Eb; [|discriminate].
    apply String.eqb_eq in Htc. subst building.
    rewrite (H b Hb Eb) in Hzb. exact Hzb.
Qed.
